(** * The Zalo bridge (bridge-zca): adapter and bridge server

    A shallow embedding of [src/bridge-zca/src/zalo.ts] (class [ZaloClient])
    and of the bridge server (class [BridgeServer]), with the properties of
    the specification that are about them and further properties of the
    code.

    Layout:
    - [JS]: the JavaScript values and the abstract operations the code
      applies to them (property access, [===], [Number], [||],
      template literals, [String.prototype.slice]);
    - the data model: messages, events sent to clients, vendor calls, and
      the actions a run performs on the outside;
    - [Async]: a small free monad for [async] functions: state access,
      actions, exceptions with [try]/[catch], and [await] on a vendor
      promise, where a handler suspends and others may run;
    - [ZaloClient]: the adapter, method by method;
    - [JSSet], [BridgeServer]: the client set and the server, handler by
      handler;
    - [EventLoop]: the environment's events and the step of the system;
    - [Shutdown]: the server's [stop()];
    - [TextZaloClient]: the listener and [sendMessage] of the text-only
      adapter;
    - [AdapterSpec], [ServerSpec], [SessionSpec]: the vocabulary of the
      statements;
    - [AdapterFacts], [ServerFacts]: lemmas and theorems of the
      specification;
    - [AdapterMethodFacts], [SessionFacts], [ShutdownFacts]: further
      theorems.

    Left out: what is written to the console (but not the evaluation of
    what is written), the entry point with its signal handlers, and the
    server of the text-only adapter.  [ws.send], [ws.close], [listener.on],
    [listener.start] and [listener.stop] are calls that return. *)

From stdpp Require Import base option list gmap strings.
From Stdlib Require Import ZArith Ascii String.

Local Open Scope string_scope.
Local Open Scope list_scope.

(* ===================================================================== *)
(** ** JavaScript values *)
(* ===================================================================== *)

Module JS.

(** Numbers: the values of the Number type.  [Fin z] is the integer [z],
    zero being [+0]; [Frac negative m e] is the number [m / 2^e], negated if
    [negative], for an odd [m]: a finite number that is not an integer.  A
    value of the programs is a double, so the integers and fractions that
    occur are those a double holds; the type does not say so. *)
Inductive jsnum : Type :=
| NaN
| Fin (z : Z)
| NegZero                                  (* -0 *)
| Inf (negative : bool)                    (* Infinity, -Infinity *)
| Frac (negative : bool) (m e : positive).

(** Strings are sequences of code units; the model has the code units
    below 256. *)

(** Values as [JSON.parse] and the vendor library deliver them, with
    [undefined] for an absent property.  An object is the list of its own
    properties; arrays and functions are not represented. *)
#[warnings="-register-all"]
Inductive jsval : Type :=
| JUndefined
| JNull
| JBool (b : bool)
| JNum (n : jsnum)
| JStr (s : string)
| JObj (fields : list (string * jsval)).

(** Thrown values, by origin. *)
Inductive exn : Type :=
| NotLoggedIn                 (* new Error("Not logged in to Zalo"), zalo.ts:130 *)
| TypeError (what : string)   (* raised by the runtime on a bad access *)
| SyntaxError                 (* raised by JSON.parse *)
| VendorError (detail : string). (* raised or rejected by zca-js *)

Inductive result (A : Type) : Type :=
| Ok (a : A)
| Raise (e : exn).
Arguments Ok {A} a.
Arguments Raise {A} e.

Definition rbind {A B} (r : result A) (f : A -> result B) : result B :=
  match r with
  | Ok a => f a
  | Raise e => Raise e
  end.

Declare Scope js_scope.
Delimit Scope js_scope with js.
Notation "'let*' x := r 'in' k" := (rbind r (fun x => k))
  (at level 10, x name, r at level 100, k at level 200) : js_scope.

(** Own property lookup. *)
Fixpoint own (fields : list (string * jsval)) (name : string) : option jsval :=
  match fields with
  | [] => None
  | (k, v) :: rest => if String.eqb k name then Some v else own rest name
  end.

(** [v.name] for a data property [name] (one that neither a primitive
    wrapper nor [Object.prototype] defines): a [TypeError] on [undefined] and
    [null], the own property of an object or [undefined], and [undefined] on
    the other primitives. *)
Definition get (v : jsval) (name : string) : result jsval :=
  match v with
  | JUndefined | JNull => Raise (TypeError name)
  | JObj fields => Ok (default JUndefined (own fields name))
  | _ => Ok JUndefined
  end.

(** [v?.name]. *)
Definition get_opt (v : jsval) (name : string) : result jsval :=
  match v with
  | JUndefined | JNull => Ok JUndefined
  | _ => get v name
  end.

(** [v !== null]. *)
Definition not_null (v : jsval) : bool :=
  match v with
  | JNull => false
  | _ => true
  end.

(** [a === b] on numbers: [NaN] is not equal to itself, and the two zeros
    are equal. *)
Definition num_eq (a b : jsnum) : bool :=
  match a, b with
  | Fin x, Fin y => Z.eqb x y
  | Fin x, NegZero | NegZero, Fin x => Z.eqb x 0
  | NegZero, NegZero => true
  | Inf x, Inf y => Bool.eqb x y
  | Frac s m e, Frac s' m' e' => (Bool.eqb s s' && Pos.eqb m m' && Pos.eqb e e')%bool
  | _, _ => false
  end.

(** [v === c] for a primitive constant [c]; an object is never identical to
    a primitive. *)
Definition strict_eq (v c : jsval) : bool :=
  match v, c with
  | JUndefined, JUndefined => true
  | JNull, JNull => true
  | JBool a, JBool b => Bool.eqb a b
  | JNum a, JNum b => num_eq a b
  | JStr a, JStr b => String.eqb a b
  | _, _ => false
  end.

(** ToPrimitive on the values of the model: an object converts through
    [Object.prototype.toString] unless an own property [toString] (which is
    data, hence not callable) shadows it; then the conversion throws. *)
Definition ToPrimitive (v : jsval) : result jsval :=
  match v with
  | JObj fields =>
      match own fields "toString" with
      | Some _ => Raise (TypeError "Cannot convert object to primitive value")
      | None => Ok (JStr "[object Object]")
      end
  | _ => Ok v
  end.

(** *** [Number(v)] *)

(** StrWhiteSpaceChar: white space and line terminators. *)
Definition is_ws (c : ascii) : bool :=
  let n := nat_of_ascii c in
  (Nat.eqb n 32 || (Nat.leb 9 n && Nat.leb n 13) || Nat.eqb n 160)%bool.

Fixpoint all_ws (s : string) : bool :=
  match s with
  | EmptyString => true
  | String c rest => (is_ws c && all_ws rest)%bool
  end.

Fixpoint skip_ws (s : string) : string :=
  match s with
  | EmptyString => EmptyString
  | String c rest => if is_ws c then skip_ws rest else s
  end.

(** The value of a digit in a radix: [0-9], and [a-f], [A-F] from ten on. *)
Definition digit (radix : Z) (c : ascii) : option Z :=
  let n := Z.of_nat (nat_of_ascii c) in
  let v := if (Z.leb 48 n && Z.leb n 57)%bool then (n - 48)%Z
           else if (Z.leb 97 n && Z.leb n 102)%bool then (n - 87)%Z
           else if (Z.leb 65 n && Z.leb n 70)%bool then (n - 55)%Z
           else radix in
  if Z.ltb v radix then Some v else None.

(** The longest run of digits at the head of [s]: the number read after
    [acc], how many digits were read after [count], and the rest. *)
Fixpoint digits (radix : Z) (s : string) (acc count : Z) : Z * Z * string :=
  match s with
  | EmptyString => (acc, count, s)
  | String c rest =>
      match digit radix c with
      | Some d => digits radix rest (radix * acc + d)%Z (count + 1)%Z
      | None => (acc, count, s)
      end
  end.

Local Open Scope Z_scope.

(** The number [m * 2^u], for [0 < m], signed. *)
Definition binary (negative : bool) (m u : Z) : jsnum :=
  if 0 <=? u then Fin (if negative then - (m * 2 ^ u) else m * 2 ^ u)
  else
    let g := Z.gcd m (2 ^ (- u)) in
    let d := 2 ^ (- u) / g in
    if d =? 1 then Fin (if negative then - (m / g) else m / g)
    else Frac negative (Z.to_pos (m / g)) (Z.to_pos (Z.log2 d)).

(** The double nearest to [p / q], for [0 < p] and [0 < q], a tie going to
    the even significand: 53 bits, exponents from -1074, and [Infinity]
    from [2^1024] on. *)
Definition round (negative : bool) (p q : Z) : jsnum :=
  let e0 := Z.log2 p - Z.log2 q in
  let above := if 0 <=? e0 then q * 2 ^ e0 <=? p else q <=? p * 2 ^ (- e0) in
  let e := if above then e0 else e0 - 1 in
  let u := Z.max (e - 52) (-1074) in
  let num := if u <? 0 then p * 2 ^ (- u) else p in
  let den := if u <? 0 then q else q * 2 ^ u in
  let d := num / den in
  let r := num mod den in
  let m := if 2 * r <? den then d
           else if den <? 2 * r then d + 1
           else if Z.even d then d else d + 1 in
  if m =? 0 then (if negative then NegZero else Fin 0)
  else if 1024 <=? Z.log2 m + u then Inf negative
  else binary negative m u.

(** The double nearest to [mantissa * 10^exponent], signed. *)
Definition decimal (negative : bool) (mantissa exponent : Z) : jsnum :=
  if mantissa =? 0 then (if negative then NegZero else Fin 0)
  else if 0 <=? exponent then round negative (mantissa * 10 ^ exponent) 1
  else round negative mantissa (10 ^ (- exponent)).

Local Close Scope Z_scope.

(** [s] without its prefix [p], if it has that prefix. *)
Definition starts_with (p s : string) : option string :=
  if String.prefix p s
  then Some (String.substring (String.length p) (String.length s - String.length p) s)
  else None.

(** ExponentPart, if [s] begins with one: its value and the rest. *)
Definition exponent_part (s : string) : option (Z * string) :=
  match s with
  | String c rest =>
      if (Ascii.eqb c "e" || Ascii.eqb c "E")%bool then
        let '(negative, r) :=
          match rest with
          | String "+"%char r => (false, r)
          | String "-"%char r => (true, r)
          | _ => (false, rest)
          end in
        let '(x, count, r') := digits 10 r 0 0 in
        if (count =? 0)%Z then None
        else Some (if negative then (- x)%Z else x, r')
      else None
  | EmptyString => None
  end.

(** StrUnsignedDecimalLiteral at the head of [s]. *)
Definition unsigned_decimal (negative : bool) (s : string) : option (jsnum * string) :=
  match starts_with "Infinity" s with
  | Some rest => Some (Inf negative, rest)
  | None =>
      let '(whole, c1, r1) := digits 10 s 0 0 in
      let '(mantissa, c2, r2) :=
        match r1 with
        | String "."%char r => digits 10 r whole 0
        | _ => (whole, 0%Z, r1)
        end in
      if (c1 + c2 =? 0)%Z then None
      else
        let '(x, r3) :=
          match exponent_part r2 with
          | Some (x, r3) => (x, r3)
          | None => (0%Z, r2)
          end in
        Some (decimal negative mantissa (x - c2), r3)
  end.

(** NonDecimalIntegerLiteral at the head of [s]. *)
Definition non_decimal (s : string) : option (jsnum * string) :=
  match s with
  | String "0"%char (String c rest) =>
      let radix :=
        if (Ascii.eqb c "x" || Ascii.eqb c "X")%bool then 16%Z
        else if (Ascii.eqb c "o" || Ascii.eqb c "O")%bool then 8%Z
        else if (Ascii.eqb c "b" || Ascii.eqb c "B")%bool then 2%Z
        else 0%Z in
      let '(n, count, r) := digits radix rest 0 0 in
      if (count =? 0)%Z then None else Some (decimal false n 0, r)
  | _ => None
  end.

(** StrNumericLiteral at the head of [s]. *)
Definition literal (s : string) : option (jsnum * string) :=
  match non_decimal s with
  | Some r => Some r
  | None =>
      match s with
      | String "+"%char rest => unsigned_decimal false rest
      | String "-"%char rest => unsigned_decimal true rest
      | _ => unsigned_decimal false s
      end
  end.

(** StringToNumber: the literal between white space, [+0] for white space
    only, and [NaN] for anything else. *)
Definition StringToNumber (s : string) : jsnum :=
  match skip_ws s with
  | EmptyString => Fin 0
  | t =>
      match literal t with
      | Some (n, rest) => if all_ws rest then n else NaN
      | None => NaN
      end
  end.

Definition prim_ToNumber (v : jsval) : jsnum :=
  match v with
  | JUndefined => NaN
  | JNull => Fin 0
  | JBool b => Fin (if b then 1 else 0)
  | JNum n => n
  | JStr s => StringToNumber s
  | JObj _ => NaN
  end.

Definition Number (v : jsval) : result jsnum :=
  (let* p := ToPrimitive v in Ok (prim_ToNumber p))%js.

(** ToBoolean. *)
Definition truthy (v : jsval) : bool :=
  match v with
  | JUndefined | JNull => false
  | JBool b => b
  | JNum NaN | JNum NegZero => false
  | JNum (Fin z) => negb (Z.eqb z 0)
  | JNum _ => true
  | JStr s => negb (String.eqb s "")
  | JObj _ => true
  end.

(** [a || b], both already evaluated. *)
Definition or_else (a b : jsval) : jsval :=
  if truthy a then a else b.

(** [`${v}`]: only whether the conversion throws matters to the code, which
    passes the text to the console. *)
Definition template (v : jsval) : result unit :=
  (let* p := ToPrimitive v in Ok tt)%js.

(** [v.slice(0, 8)]: defined on strings; on anything else of the model the
    property [slice] is missing or not callable. *)
Definition slice_0_8 (v : jsval) : result jsval :=
  match v with
  | JStr s => Ok (JStr (String.substring 0 8 s))
  | _ => Raise (TypeError "slice")
  end.

End JS.

(* ===================================================================== *)
(** ** Data model *)
(* ===================================================================== *)

Import JS.

(** [content: string | TAttachmentContent]; the attachment is the object
    [{ type: "attachment", href }]. *)
Inductive Content : Type :=
| Text (s : string)
| Attachment (href : jsval).

(** [InboundMessage] (zalo.ts:12).  The fields hold what the handler put
    there, which at run time need not have the declared type. *)
Record InboundMessage : Type := {
  senderId : jsval;
  threadId : jsval;
  content : Content;
  messageId : jsval;
  timestamp : jsval;
  isGroup : bool
}.

(** [BridgeMessage]: the events the server serialises to its clients.
    [error] fields carry the thrown value, which the code renders with
    [String(error)]. *)
Inductive BridgeMessage : Type :=
| MessageEvent (msg : InboundMessage)          (* { type: "message", ...msg } *)
| StatusEvent (status : string)                (* { type: "status", status } *)
| LoginEvent (success : bool) (error : option exn)
| ErrorEvent (error : exn).                    (* { type: "error", error } *)

Record Credentials : Type := {
  cookie : jsval;
  imei : jsval;
  userAgent : jsval
}.

(** Options of [new Zalo({...})]. *)
Record ZaloOptions : Type := {
  selfListen : bool;
  checkUpdate : bool;
  logging : bool
}.

(** The options [login] gives to [new Zalo({...})] (zalo.ts:40-44). *)
Definition zalo_options : ZaloOptions :=
  {| selfListen := false; checkUpdate := false; logging := true |}.

(** [WebSocket.readyState]. *)
Inductive ReadyState : Type := CONNECTING | OPEN | CLOSING | CLOSED.

Definition is_open (st : option ReadyState) : bool :=
  match st with
  | Some OPEN => true
  | _ => false
  end.

(** Calls into zca-js that return a promise.  API objects are named by
    numbers. *)
Inductive vendor_call : Type :=
| VLogin (credentials : Credentials)
| VSendMessage (api : nat) (text threadId type : jsval)
| VSendTypingEvent (api : nat) (threadId : jsval).

(** How a vendor promise settles.  The value of a fulfilled login is the
    new API object; the other calls fulfil with a value the code ignores. *)
Inductive outcome : Type :=
| Fulfilled (api : nat)
| Rejected (detail : string).

Inductive method : Type := Mlogin | MsendMessage | MsendTypingEvent | Mdisconnect.

(** What a run of the code does to the outside, in order. *)
Inductive action : Type :=
| WsSend (ws : nat) (msg : BridgeMessage)   (* ws.send(JSON.stringify(msg)) *)
| Construct (ref : nat)                     (* new ZaloClient({...}) *)
| Invoke (ref : nat) (m : method)           (* a method call on an adapter *)
| OnMessage (msg : InboundMessage)          (* this.onMessage(msg) *)
| OnStatus (status : string)                (* this.onStatus(status) *)
| ListenerOn (api : nat)                    (* api.listener.on("message" / "error", ...) *)
| ListenerStart (api : nat)                 (* api.listener.start() *)
| ListenerStop (api : nat)                  (* api.listener.stop() *)
| Call (c : vendor_call)                    (* a vendor call is issued *)
| Uncaught (e : exn).                       (* an exception left a top-level handler *)

(* ===================================================================== *)
(** ** Async functions *)
(* ===================================================================== *)

Module Async.

(** A program over a mutable state [S]: it reads and writes the state, acts
    on the outside, throws, and suspends on a vendor promise ([Await]),
    which the environment settles later, after any number of other events.
    The other [await]s of the code wait for [async] functions of the code
    itself: their continuations run as microtasks of the same task, before
    any other event is handled, so they are sequencing here. *)
Inductive prog (S A : Type) : Type :=
| Ret (a : A)
| Throw (e : exn)
| Get (k : S -> prog S A)
| Put (s : S) (k : prog S A)
| Emit (x : action) (k : prog S A)
| Await (c : vendor_call) (k : outcome -> prog S A).
Arguments Ret {S A} a.
Arguments Throw {S A} e.
Arguments Get {S A} k.
Arguments Put {S A} s k.
Arguments Emit {S A} x k.
Arguments Await {S A} c k.

Fixpoint bind {S A B} (p : prog S A) (f : A -> prog S B) : prog S B :=
  match p with
  | Ret a => f a
  | Throw e => Throw e
  | Get k => Get (fun s => bind (k s) f)
  | Put s k => Put s (bind k f)
  | Emit x k => Emit x (bind k f)
  | Await c k => Await c (fun o => bind (k o) f)
  end.

(** [try { p } catch (error) { handler error }]. *)
Fixpoint try_catch {S A} (p : prog S A) (handler : exn -> prog S A) : prog S A :=
  match p with
  | Ret a => Ret a
  | Throw e => handler e
  | Get k => Get (fun s => try_catch (k s) handler)
  | Put s k => Put s (try_catch k handler)
  | Emit x k => Emit x (try_catch k handler)
  | Await c k => Await c (fun o => try_catch (k o) handler)
  end.

Definition lift {S A} (r : result A) : prog S A :=
  match r with
  | Ok a => Ret a
  | Raise e => Throw e
  end.

Definition read {S} : prog S S := Get Ret.
Definition modify {S} (f : S -> S) : prog S unit := Get (fun s => Put (f s) (Ret tt)).
Definition emit {S} (x : action) : prog S unit := Emit x (Ret tt).

(** [await] on a vendor promise: its value, or its rejection thrown. *)
Definition await {S} (c : vendor_call) : prog S nat :=
  Await c (fun o => match o with
                    | Fulfilled v => Ret v
                    | Rejected detail => Throw (VendorError detail)
                    end).

(** The state of a run that stopped: finished, or suspended on a vendor
    call with the rest of the program. *)
Inductive status (S A : Type) : Type :=
| Done (r : result A)
| Suspended (c : vendor_call) (k : outcome -> prog S A).
Arguments Done {S A} r.
Arguments Suspended {S A} c k.

(** Run to completion or to the first vendor [await]. *)
Fixpoint run {S A} (p : prog S A) (s : S) : S * list action * status S A :=
  match p with
  | Ret a => (s, [], Done (Ok a))
  | Throw e => (s, [], Done (Raise e))
  | Get k => run (k s) s
  | Put s' k => run k s'
  | Emit x k => let '(s1, tr, st) := run k s in (s1, x :: tr, st)
  | Await c k => (s, [Call c], Suspended c k)
  end.

(** Run to the end, each vendor promise settling as [oracle] says before
    anything else happens: the run of an [async] function on its own. *)
Fixpoint complete {S A} (oracle : vendor_call -> outcome) (p : prog S A) (s : S)
  : S * list action * result A :=
  match p with
  | Ret a => (s, [], Ok a)
  | Throw e => (s, [], Raise e)
  | Get k => complete oracle (k s) s
  | Put s' k => complete oracle k s'
  | Emit x k => let '(s1, tr, r) := complete oracle k s in (s1, x :: tr, r)
  | Await c k => let '(s1, tr, r) := complete oracle (k (oracle c)) s in (s1, Call c :: tr, r)
  end.

Declare Scope prog_scope.
Delimit Scope prog_scope with prog.
Notation "'let*' x := p 'in' k" := (bind p (fun x => k))
  (at level 10, x name, p at level 100, k at level 200) : prog_scope.
Notation "p ;; k" := (bind p (fun _ => k))
  (at level 100, k at level 200, right associativity) : prog_scope.

End Async.

(* ===================================================================== *)
(** ** The adapter: class [ZaloClient] (zalo.ts) *)
(* ===================================================================== *)

Module ZaloClient.
Import Async.

(** The private fields.  [onMessage] and [onStatus] are fixed at
    construction; calling them is the action [OnMessage] or [OnStatus],
    which the owner of the adapter interprets. *)
Record t : Type := {
  zalo : option ZaloOptions;
  api : option nat
}.

(** [new ZaloClient(options)]. *)
Definition new : t := {| zalo := None; api := None |}.

(** [ThreadType.Group].  The enumeration is declared by zca-js
    ([enum ThreadType { User, Group }]), outside the repository; no property
    below depends on the value. *)
Definition ThreadType_Group : jsval := JNum (Fin 1).

Local Open Scope js_scope.

(** [message.data.content] *)
Definition data_content (message : jsval) : result jsval :=
  let* data := get message "data" in get data "content".

(** [message.data?.name] *)
Definition data_field (message : jsval) (name : string) : result jsval :=
  let* data := get message "data" in get_opt data name.

(** The body of the ["message"] listener (zalo.ts:73-111) up to the call of
    [onMessage]: [Ok None] is the [return] of line 97, [Ok (Some msg)] the
    argument of [onMessage], [Raise e] an exception thrown on the way.
    [now] is the value of [Date.now()]; console output is left out, but not
    the evaluation of its arguments. *)
Definition translate (now : Z) (message : jsval) : result (option InboundMessage) :=
  let* shown := data_content message in         (* JSON.stringify(message.data.content) *)
  let* senderId := data_field message "uidFrom" in
  let* threadId := get message "threadId" in
  let* messageId := data_field message "msgId" in
  let* ts := data_field message "ts" in
  let* n := Number ts in
  let timestamp := or_else (JNum n) (JNum (Fin now)) in
  let* type := get message "type" in
  let isGroup := strict_eq type ThreadType_Group in
  let* c := data_content message in
  let* content :=
    match c with
    | JStr s => Ok (Some (Text s))               (* typeof ... === "string" *)
    | _ =>
        let* c' := data_content message in
        let* href := get c' "href" in
        if not_null href then Ok (Some (Attachment href)) else Ok None
    end in
  match content with
  | None => Ok None
  | Some content =>
      let* shown := template senderId in         (* `... ${senderId} ...` *)
      let* short := slice_0_8 threadId in        (* threadId.slice(0, 8) *)
      let* shown := template short in
      Ok (Some {| senderId := senderId; threadId := threadId;
                  content := content; messageId := messageId;
                  timestamp := timestamp; isGroup := isGroup |})
  end.

Local Close Scope js_scope.
Local Open Scope prog_scope.

(** The listener of the vendor's ["message"] event (zalo.ts:72-115). *)
Definition on_message (now : Z) (message : jsval) : prog t unit :=
  try_catch
    (let* r := lift (translate now message) in
     match r with
     | None => Ret tt
     | Some msg => emit (OnMessage msg)
     end)
    (fun error => Ret tt).

(** The listener of the vendor's ["error"] event (zalo.ts:118-121). *)
Definition on_error : prog t unit :=
  emit (OnStatus "error").

(** [setupMessageListener] (zalo.ts:69): registers the two listeners on the
    API object held. *)
Definition setupMessageListener : prog t unit :=
  let* this := read in
  match api this with
  | None => Ret tt
  | Some h => emit (ListenerOn h)
  end.

(** [login] (zalo.ts:37). *)
Definition login (credentials : Credentials) : prog t unit :=
  try_catch
    (modify (fun this =>
       {| zalo := Some zalo_options; api := api this |}) ;;
     let* h := await (VLogin credentials) in
     modify (fun this => {| zalo := zalo this; api := Some h |}) ;;
     emit (OnStatus "connected") ;;
     setupMessageListener ;;
     let* this := read in
     match api this with
     | None => Throw (TypeError "listener")
     | Some h' => emit (ListenerStart h')
     end)
    (fun error =>
       emit (OnStatus "disconnected") ;;
       Throw error).

(** [sendMessage] (zalo.ts:124).  The server passes no [type]. *)
Definition sendMessage (threadId text type : jsval) : prog t unit :=
  let* this := read in
  match api this with
  | None => Throw NotLoggedIn
  | Some h =>
      try_catch
        (lift (rbind (slice_0_8 threadId) template) ;;   (* console.log(`... ${threadId.slice(0, 8)}...`) *)
         await (VSendMessage h text threadId type) ;;
         Ret tt)
        (fun error => Throw error)
  end.

(** [sendTypingEvent] (zalo.ts:142). *)
Definition sendTypingEvent (threadId : jsval) : prog t unit :=
  let* this := read in
  match api this with
  | None => Ret tt
  | Some h =>
      try_catch
        (await (VSendTypingEvent h threadId) ;; Ret tt)
        (fun error => Ret tt)
  end.

(** [disconnect] (zalo.ts:155).  An API object always has its [listener]. *)
Definition disconnect : prog t unit :=
  let* this := read in
  match api this with
  | Some h => emit (ListenerStop h)
  | None => Ret tt
  end ;;
  modify (fun this => {| zalo := zalo this; api := None |}) ;;
  modify (fun this => {| zalo := None; api := api this |}) ;;
  emit (OnStatus "disconnected").

End ZaloClient.

(* ===================================================================== *)
(** ** JavaScript [Set], in insertion order *)
(* ===================================================================== *)

Module JSSet.

Definition add (x : nat) (s : list nat) : list nat :=
  if decide (x ∈ s) then s else s ++ [x].

Definition delete (x : nat) (s : list nat) : list nat :=
  filter (fun y => y ≠ x) s.

End JSSet.

(* ===================================================================== *)
(** ** The server: class [BridgeServer] *)
(* ===================================================================== *)

Module BridgeServer.
Import Async.

(** The listener of an API object: the adapter whose [setupMessageListener]
    registered the handlers, and whether [start()] has been called without
    a later [stop()]. *)
Record Listener : Type := {
  owner : nat;
  started : bool
}.

(** The fields of the server ([zalo], [clients]) and the objects they
    reach: the adapters, by reference, the sockets that have connected with
    their [readyState], and the listeners of the vendor's API objects. *)
Record t : Type := {
  zalo : option nat;
  clients : list nat;
  heap : gmap nat ZaloClient.t;
  next_ref : nat;
  sockets : gmap nat ReadyState;
  listeners : gmap nat Listener
}.

Definition set_zalo (v : option nat) (w : t) : t :=
  {| zalo := v; clients := clients w; heap := heap w; next_ref := next_ref w;
     sockets := sockets w; listeners := listeners w |}.

Definition set_clients (v : list nat) (w : t) : t :=
  {| zalo := zalo w; clients := v; heap := heap w; next_ref := next_ref w;
     sockets := sockets w; listeners := listeners w |}.

Definition set_heap (v : gmap nat ZaloClient.t) (w : t) : t :=
  {| zalo := zalo w; clients := clients w; heap := v; next_ref := next_ref w;
     sockets := sockets w; listeners := listeners w |}.

Definition set_next_ref (v : nat) (w : t) : t :=
  {| zalo := zalo w; clients := clients w; heap := heap w; next_ref := v;
     sockets := sockets w; listeners := listeners w |}.

Definition set_sockets (v : gmap nat ReadyState) (w : t) : t :=
  {| zalo := zalo w; clients := clients w; heap := heap w; next_ref := next_ref w;
     sockets := v; listeners := listeners w |}.

Definition set_listeners (v : gmap nat Listener) (w : t) : t :=
  {| zalo := zalo w; clients := clients w; heap := heap w; next_ref := next_ref w;
     sockets := sockets w; listeners := v |}.

(** [new BridgeServer(port)]. *)
Definition new : t :=
  {| zalo := None; clients := []; heap := ∅; next_ref := 0;
     sockets := ∅; listeners := ∅ |}.

Local Open Scope prog_scope.

Fixpoint for_of (l : list nat) (body : nat -> prog t unit) : prog t unit :=
  match l with
  | [] => Ret tt
  | x :: rest => body x ;; for_of rest body
  end.

(** [broadcast]. *)
Definition broadcast (msg : BridgeMessage) : prog t unit :=
  let* this := read in
  for_of (clients this) (fun client =>
    let* w := read in
    if is_open (sockets w !! client) then emit (WsSend client msg) else Ret tt).

(** What an action of adapter [a] does in the server's world: the two
    callbacks are the closures given to the constructor in [handleLogin],
    and the calls on a listener change that listener. *)
Definition effect (a : nat) (x : action) : prog t unit :=
  match x with
  | OnMessage msg => broadcast (MessageEvent msg)
  | OnStatus status => broadcast (StatusEvent status)
  | ListenerOn h =>
      modify (fun w => set_listeners (<[h := {| owner := a; started := false |}]> (listeners w)) w)
  | ListenerStart h =>
      modify (fun w => set_listeners
        (alter (fun l => {| owner := owner l; started := true |}) h (listeners w)) w)
  | ListenerStop h =>
      modify (fun w => set_listeners
        (alter (fun l => {| owner := owner l; started := false |}) h (listeners w)) w)
  | _ => Ret tt
  end.

Definition deref (w : t) (a : nat) : ZaloClient.t :=
  default ZaloClient.new (heap w !! a).

(** A program of adapter [a], run on the adapter the reference [a] points
    to. *)
Fixpoint on_adapter {A} (a : nat) (p : prog ZaloClient.t A) : prog t A :=
  match p with
  | Ret x => Ret x
  | Throw e => Throw e
  | Get k => Get (fun w => on_adapter a (k (deref w a)))
  | Put c k => Get (fun w => Put (set_heap (<[a := c]> (heap w)) w) (on_adapter a k))
  | Emit x k => Emit x (bind (effect a x) (fun _ => on_adapter a k))
  | Await c k => Await c (fun o => on_adapter a (k o))
  end.

(** A method call on the adapter [a]. *)
Definition invoke {A} (a : nat) (m : method) (p : prog ZaloClient.t A) : prog t A :=
  Emit (Invoke a m) (on_adapter a p).

(** [handleLogin]. *)
Definition handleLogin (cmd : jsval) (ws : nat) : prog t unit :=
  try_catch
    (let* this := read in
     match zalo this with
     | None =>
         let a := next_ref this in
         emit (Construct a) ;;
         modify (fun w =>
           set_zalo (Some a) (set_next_ref (S a) (set_heap (<[a := ZaloClient.new]> (heap w)) w)))
     | Some _ => Ret tt
     end ;;
     let* cookie := lift (get cmd "cookie") in
     let* imei := lift (get cmd "imei") in
     let* userAgent := lift (get cmd "userAgent") in
     let credentials := {| cookie := cookie; imei := imei; userAgent := userAgent |} in
     let* this := read in
     match zalo this with
     | None => Throw (TypeError "login")
     | Some a => invoke a Mlogin (ZaloClient.login credentials)
     end ;;
     emit (WsSend ws (LoginEvent true None)))
    (fun error =>
       emit (WsSend ws (LoginEvent false (Some error)))).

(** [handleCommand]. *)
Definition handleCommand (cmd : jsval) (ws : nat) : prog t unit :=
  let* type := lift (get cmd "type") in
  if strict_eq type (JStr "login") then handleLogin cmd ws
  else
    let* this := read in
    match strict_eq type (JStr "send"), zalo this with
    | true, Some a =>
        let* to := lift (get cmd "to") in
        let* text := lift (get cmd "text") in
        invoke a MsendMessage (ZaloClient.sendMessage to text JUndefined)
    | _, _ =>
        match strict_eq type (JStr "typing"), zalo this with
        | true, Some a =>
            let* to := lift (get cmd "to") in
            invoke a MsendTypingEvent (ZaloClient.sendTypingEvent to)
        | _, _ => Ret tt
        end
    end.

(** A frame received on a socket, by what [JSON.parse(data.toString())]
    makes of it. *)
Inductive frame : Type :=
| Malformed                (* JSON.parse throws *)
| Parsed (cmd : jsval).

Definition JSON_parse (data : frame) : result jsval :=
  match data with
  | Malformed => Raise SyntaxError
  | Parsed cmd => Ok cmd
  end.

(** [wss.on("connection", ...)]: the synchronous part. *)
Definition on_connection (ws : nat) : prog t unit :=
  modify (fun this => set_clients (JSSet.add ws (clients this)) this).

(** [ws.on("message", ...)]. *)
Definition on_message (ws : nat) (data : frame) : prog t unit :=
  try_catch
    (let* cmd := lift (JSON_parse data) in
     handleCommand cmd ws)
    (fun error => emit (WsSend ws (ErrorEvent error))).

(** [ws.on("close", ...)]. *)
Definition on_close (ws : nat) : prog t unit :=
  modify (fun this => set_clients (JSSet.delete ws (clients this)) this) ;;
  let* this := read in
  match clients this, zalo this with
  | [], Some a =>
      invoke a Mdisconnect ZaloClient.disconnect ;;
      modify (set_zalo None)
  | _, _ => Ret tt
  end.

(** [ws.on("error", ...)]: a rejection of [disconnect()] goes to
    [console.error]. *)
Definition on_error (ws : nat) : prog t unit :=
  modify (fun this => set_clients (JSSet.delete ws (clients this)) this) ;;
  let* this := read in
  match clients this, zalo this with
  | [], Some a =>
      try_catch (invoke a Mdisconnect ZaloClient.disconnect) (fun error => Ret tt) ;;
      modify (set_zalo None)
  | _, _ => Ret tt
  end.

End BridgeServer.

(* ===================================================================== *)
(** ** The event loop *)
(* ===================================================================== *)

Module EventLoop.
Import Async.

(** What the environment does: socket events of the [ws] library, the
    settling of a vendor promise, and the events of a vendor listener. *)
Inductive event : Type :=
| Connection (ws : nat)                    (* wss "connection" *)
| Message (ws : nat) (data : BridgeServer.frame)   (* ws "message" *)
| Close (ws : nat)                         (* ws "close" *)
| SocketError (ws : nat)                   (* ws "error" *)
| Closing (ws : nat)                       (* the socket leaves OPEN; no handler *)
| Settle (i : nat) (rejection : option string)
                                           (* the i-th pending vendor promise settles *)
| ListenerMessage (h : nat) (message : jsval) (now : Z)
                                           (* listener "message", at time [now] *)
| ListenerError (h : nat).                   (* listener "error" *)

(** The server's world, the suspended handlers in the order they
    suspended, and the number of API objects the vendor has made. *)
Record System : Type := {
  world : BridgeServer.t;
  pending : list (vendor_call * (outcome -> prog BridgeServer.t unit));
  apis : nat
}.

(** The system after [new BridgeServer(port)] and [start()]. *)
Definition boot : System :=
  {| world := BridgeServer.new; pending := []; apis := 0 |}.

(** Run a handler as a task of its own. *)
Definition spawn (p : prog BridgeServer.t unit) (s : System) : System * list action :=
  let '(w, tr, st) := run p (world s) in
  match st with
  | Done (Ok _) => ({| world := w; pending := pending s; apis := apis s |}, tr)
  | Done (Raise e) => ({| world := w; pending := pending s; apis := apis s |}, tr ++ [Uncaught e])
  | Suspended c k => ({| world := w; pending := pending s ++ [(c, k)]; apis := apis s |}, tr)
  end.

Definition with_socket (ws : nat) (st : ReadyState) (s : System) : System :=
  {| world := BridgeServer.set_sockets (<[ws := st]> (BridgeServer.sockets (world s))) (world s);
     pending := pending s; apis := apis s |}.

(** The handlers of a socket exist once it has connected. *)
Definition registered (ws : nat) (s : System) : bool :=
  bool_decide (is_Some (BridgeServer.sockets (world s) !! ws)).

(** The listener [h] is running: its handlers are registered and
    [start()] has been called without a later [stop()]; the handlers belong
    to the adapter that registered them. *)
Definition listening (h : nat) (s : System) : option nat :=
  match BridgeServer.listeners (world s) !! h with
  | Some l => if BridgeServer.started l then Some (BridgeServer.owner l) else None
  | None => None
  end.

(** The adapter whose handlers are registered on the listener [h].  The
    code never removes a handler, and whether the vendor still emits events
    once [stop()] has been called is the vendor's business: an event of [h]
    runs the handler whenever one is registered. *)
Definition handler (h : nat) (s : System) : option nat :=
  BridgeServer.owner <$> BridgeServer.listeners (world s) !! h.

Definition step (s : System) (e : event) : System * list action :=
  match e with
  | Connection ws =>
      spawn (BridgeServer.on_connection ws) (with_socket ws OPEN s)
  | Message ws data =>
      if registered ws s then spawn (BridgeServer.on_message ws data) s else (s, [])
  | Close ws =>
      if registered ws s then spawn (BridgeServer.on_close ws) (with_socket ws CLOSED s)
      else (s, [])
  | SocketError ws =>
      if registered ws s then spawn (BridgeServer.on_error ws) s else (s, [])
  | Closing ws =>
      if registered ws s then (with_socket ws CLOSING s, []) else (s, [])
  | Settle i rejection =>
      match pending s !! i with
      | None => (s, [])
      | Some (c, k) =>
          let rest := delete i (pending s) in
          match rejection, c with
          | Some detail, _ =>
              spawn (k (Rejected detail)) {| world := world s; pending := rest; apis := apis s |}
          | None, VLogin _ =>
              spawn (k (Fulfilled (apis s))) {| world := world s; pending := rest; apis := S (apis s) |}
          | None, _ =>
              spawn (k (Fulfilled 0)) {| world := world s; pending := rest; apis := apis s |}
          end
      end
  | ListenerMessage h message now =>
      match handler h s with
      | Some a => spawn (BridgeServer.on_adapter a (ZaloClient.on_message now message)) s
      | None => (s, [])
      end
  | ListenerError h =>
      match handler h s with
      | Some a => spawn (BridgeServer.on_adapter a ZaloClient.on_error) s
      | None => (s, [])
      end
  end.

(** A sequence of events, from a state: the final state and everything
    done on the way. *)
Fixpoint exec (s : System) (evs : list event) : System * list action :=
  match evs with
  | [] => (s, [])
  | e :: rest =>
      let '(s1, tr1) := step s e in
      let '(s2, tr2) := exec s1 rest in
      (s2, tr1 ++ tr2)
  end.

End EventLoop.

(* ===================================================================== *)
(** ** Shutting down: [stop()] *)
(* ===================================================================== *)

Module Shutdown.
Import Async BridgeServer.

(** What [stop()] does to the outside: beside the actions of the running
    server, it closes sockets. *)
Inductive shutdown_action : Type :=
| WsClose (ws : nat)        (* client.close() *)
| WssClose                  (* this.wss.close() *)
| Ran (x : action).

(** The server with its listening socket: [wss] tells whether [this.wss]
    holds the [WebSocketServer] that [start()] made. *)
Record Server : Type := {
  base : BridgeServer.t;
  wss : bool
}.

(** [ws.close()] on the [readyState]: a socket that is not closed yet is
    closing from then on. *)
Definition ws_close (st : ReadyState) : ReadyState :=
  match st with
  | CLOSED => CLOSED
  | _ => CLOSING
  end.

(** [for (const client of this.clients) client.close()], on the sockets. *)
Fixpoint close_all (l : list nat) (m : gmap nat ReadyState) : gmap nat ReadyState :=
  match l with
  | [] => m
  | client :: rest => close_all rest (alter ws_close client m)
  end.

Local Open Scope prog_scope.

(** The last part of [stop()]:
    [if (this.zalo) { await this.zalo.disconnect(); this.zalo = null; }]. *)
Definition stop_session : prog t unit :=
  let* this := read in
  match zalo this with
  | Some a =>
      invoke a Mdisconnect ZaloClient.disconnect ;;
      modify (set_zalo None)
  | None => Ret tt
  end.

(** [stop()]: the server afterwards, what the call did, and how it ended. *)
Definition stop (s : Server) : Server * list shutdown_action * status t unit :=
  let this := base s in
  let closed := set_sockets (close_all (clients this) (sockets this)) this in
  let cleared := set_clients [] closed in
  let '(w, tr, st) := run stop_session cleared in
  ({| base := w; wss := false |},
   map WsClose (clients this) ++ (if wss s then [WssClose] else []) ++ map Ran tr,
   st).

End Shutdown.

(* ===================================================================== *)
(** ** The text-only adapter: class [ZaloClient] of [src/unnamed/part_001] *)
(* ===================================================================== *)

(** The repository holds a second adapter, which forwards text messages
    only.  Its [login], [sendTypingEvent] and [disconnect] are those of
    [zalo.ts]; its ["message"] listener and its [sendMessage] differ. *)

Module TextZaloClient.
Import Async.

Local Open Scope js_scope.

(** The body of the ["message"] listener (part_001:68-90) up to the call of
    [onMessage].  The property read again at line 77 is the string tested
    at line 70: reading a data property has no effect. *)
Definition translate (now : Z) (message : jsval) : result (option InboundMessage) :=
  let* c := ZaloClient.data_content message in    (* typeof message.data.content *)
  match c with
  | JStr s =>
      let* senderId := ZaloClient.data_field message "uidFrom" in
      let* threadId := get message "threadId" in
      let* content := ZaloClient.data_field message "content" in
      let* messageId := ZaloClient.data_field message "msgId" in
      let* ts := ZaloClient.data_field message "ts" in
      let* n := Number ts in
      let timestamp := or_else (JNum n) (JNum (Fin now)) in
      let* type := get message "type" in
      let isGroup := strict_eq type ZaloClient.ThreadType_Group in
      Ok (Some {| senderId := senderId; threadId := threadId;
                  content := Text s; messageId := messageId;
                  timestamp := timestamp; isGroup := isGroup |})
  | _ => Ok None                                   (* Ignore non-text messages *)
  end.

Local Close Scope js_scope.
Local Open Scope prog_scope.

(** The listener of the vendor's ["message"] event (part_001:67-94). *)
Definition on_message (now : Z) (message : jsval) : prog ZaloClient.t unit :=
  try_catch
    (let* r := lift (translate now message) in
     match r with
     | None => Ret tt
     | Some msg => emit (OnMessage msg)
     end)
    (fun error => Ret tt).

(** [sendMessage] (part_001:103): no log line, so the thread id is passed
    on as it is. *)
Definition sendMessage (threadId text type : jsval) : prog ZaloClient.t unit :=
  let* this := read in
  match ZaloClient.api this with
  | None => Throw NotLoggedIn
  | Some h =>
      try_catch
        (await (VSendMessage h text threadId type) ;;
         Ret tt)
        (fun error => Throw error)
  end.

End TextZaloClient.

(* ===================================================================== *)
(** * Vocabulary of the properties *)
(* ===================================================================== *)

(** ** About the adapter *)

Module AdapterSpec.
Import Async ZaloClient.

(** The number a timestamp field converts to decides the timestamp:
    [n || Date.now()]. *)
Definition stamp (n : jsnum) (now : Z) : jsnum :=
  if truthy (JNum n) then n else Fin now.

(** What [translate] read from an event it translated to [msg]: each of the
    six fields of [msg], and where in the event it comes from. *)
Record extracted (now : Z) (message : jsval) (msg : InboundMessage) : Prop := {
  ex_sender : data_field message "uidFrom" = Ok (senderId msg);
  ex_thread : get message "threadId" = Ok (threadId msg);
  ex_thread_string : exists s, threadId msg = JStr s;
  ex_id : data_field message "msgId" = Ok (messageId msg);
  ex_stamp : exists ts n,
      data_field message "ts" = Ok ts /\ Number ts = Ok n /\
      timestamp msg = JNum (stamp n now) /\ stamp n now <> NaN;
  ex_group : exists type,
      get message "type" = Ok type /\ isGroup msg = strict_eq type ThreadType_Group;
  ex_content : exists c,
      data_content message = Ok c /\
      match c with
      | JStr s => content msg = Text s
      | _ => exists href, get c "href" = Ok href /\ href <> JNull /\
                          content msg = Attachment href
      end
}.

(** An event as the vendor library types it: a [Message] of zca-js has a
    string [threadId], a [type] and a [data] record whose [uidFrom], [msgId]
    and [ts] are strings; [content] is a string or a record. *)
Definition vendor_event (type : jsval) (thread uid mid ts : string) (c : jsval) : jsval :=
  JObj [("type", type); ("threadId", JStr thread);
        ("data", JObj [("uidFrom", JStr uid); ("msgId", JStr mid);
                       ("ts", JStr ts); ("content", c)])].

(** The message a vendor event is forwarded as, given its content. *)
Definition forwarded (now : Z) (type : jsval) (thread uid mid ts : string)
    (c : Content) : InboundMessage :=
  {| senderId := JStr uid; threadId := JStr thread; content := c;
     messageId := JStr mid;
     timestamp := JNum (stamp (StringToNumber ts) now);
     isGroup := strict_eq type ThreadType_Group |}.

(** A sticker: structured content without a link. *)
Definition sticker_event : jsval :=
  vendor_event (JNum (Fin 0)) "2757412803318084159" "8412076905511446202"
    "5612020938012" "1700000000000"
    (JObj [("id", JNum (Fin 21979)); ("catId", JNum (Fin 10425)); ("type", JNum (Fin 7))]).

(** A text event with the timestamp field [ts]. *)
Definition stamped_event (ts : jsval) : jsval :=
  JObj [("type", JNum (Fin 0)); ("threadId", JStr "2757412803318084159");
        ("data", JObj [("uidFrom", JStr "8412076905511446202");
                       ("msgId", JStr "5612020938012");
                       ("ts", ts); ("content", JStr "hello")])].

(** What [stamped_event] is forwarded as, given the timestamp. *)
Definition stamped (timestamp : jsnum) : InboundMessage :=
  {| senderId := JStr "8412076905511446202"; threadId := JStr "2757412803318084159";
     content := Text "hello"; messageId := JStr "5612020938012";
     timestamp := JNum timestamp; isGroup := false |}.


(** An event whose timestamp is the number 0. *)
Definition zero_ts_event : jsval :=
  JObj [("type", JNum (Fin 0)); ("threadId", JStr "2757412803318084159");
        ("data", JObj [("uidFrom", JStr "8412076905511446202");
                       ("msgId", JStr "5612020938012");
                       ("ts", JNum (Fin 0)); ("content", JStr "hello")])].

End AdapterSpec.

(** ** About the server *)

Module ServerSpec.
Import Async BridgeServer EventLoop.

(** *** Commands and frames *)

(** [cmd.type === name], [false] when reading [cmd.type] throws. *)
Definition has_type (cmd : jsval) (name : string) : bool :=
  match get cmd "type" with
  | Ok type => strict_eq type (JStr name)
  | Raise _ => false
  end.

(** The command a frame carries is a [login]. *)
Definition is_login (data : frame) : bool :=
  match data with
  | Malformed => false
  | Parsed cmd => has_type cmd "login"
  end.

(** The credentials [handleLogin] reads from a command. *)
Definition credentials_of (cmd : jsval) : Credentials :=
  match cmd with
  | JObj fields =>
      {| cookie := default JUndefined (own fields "cookie");
         imei := default JUndefined (own fields "imei");
         userAgent := default JUndefined (own fields "userAgent") |}
  | _ => {| cookie := JUndefined; imei := JUndefined; userAgent := JUndefined |}
  end.

Definition login_command : jsval :=
  JObj [("type", JStr "login"); ("cookie", JStr "zpsid=8f3a");
        ("imei", JStr "4a1f-7c20"); ("userAgent", JStr "Mozilla/5.0")].

Definition send_command : jsval :=
  JObj [("type", JStr "send"); ("to", JStr "2757412803318084159"); ("text", JStr "hi")].

(** *** Broadcasts *)

(** The clients a broadcast reaches: the members of the client set whose
    socket is open, in the order of the set. *)
Definition reached (w : t) : list nat :=
  filter (fun client => is_open (sockets w !! client) = true) (clients w).

(** A broadcast of [msg], as actions. *)
Definition sends (msg : BridgeMessage) (w : t) : list action :=
  map (fun client => WsSend client msg) (reached w).

(** The sockets a trace sends a login result to. *)
Definition login_recipients (tr : list action) : list nat :=
  flat_map (fun x => match x with
                     | WsSend ws (LoginEvent _ _) => [ws]
                     | _ => []
                     end) tr.

(** *** Scenarios *)

(** One client, connected. *)
Definition one_client : System := fst (exec boot [Connection 1]).

(** One client whose socket has begun to close. *)
Definition closing_client : System := fst (exec boot [Connection 1; Closing 1]).

(** A login that the vendor rejects. *)
Definition rejected_login : list event :=
  [Connection 1; Message 1 (Parsed login_command); Settle 0 (Some "invalid cookie")].

(** The only client leaves while its login is pending; the vendor then
    accepts the login, and later delivers a message. *)
Definition login_after_leaving : list event :=
  [Connection 1; Message 1 (Parsed login_command); Close 1; Settle 0 None;
   ListenerMessage 0 (AdapterSpec.vendor_event (JNum (Fin 0)) "2757412803318084159"
                        "8412076905511446202" "5612020938012" "1700000000000"
                        (JStr "hello")) 1700000000123].

(** The scenario of the specification (section 8): A connects and logs in,
    B connects, a message arrives, A leaves, B leaves. *)
Definition two_clients : list event :=
  [Connection 1; Message 1 (Parsed login_command); Settle 0 None; Connection 2;
   ListenerMessage 0 (AdapterSpec.vendor_event (JNum (Fin 0)) "2757412803318084159"
                        "8412076905511446202" "5612020938012" "1700000000000"
                        (JStr "hello")) 1700000000123;
   Close 1; Close 2].

(** *** The session lifecycle *)

(** The session state machine of the specification (section 4.2), read
    with "a [login] command was handled" in place of "a login succeeded":
    the sockets that have connected, the client set, and whether a session
    is active.  A session becomes active with a [login] command from a
    connected socket, and stays active until a disconnect or socket error
    leaves the client set empty. *)
Record lifecycle : Type := {
  connected : list nat;
  members : list nat;
  active : bool
}.

Definition lifecycle_init : lifecycle :=
  {| connected := []; members := []; active := false |}.

Definition lifecycle_step (st : lifecycle) (e : event) : lifecycle :=
  match e with
  | Connection ws =>
      {| connected := ws :: connected st;
         members := JSSet.add ws (members st);
         active := active st |}
  | Message ws data =>
      if (bool_decide (ws ∈ connected st) && is_login data)%bool
      then {| connected := connected st; members := members st; active := true |}
      else st
  | Close ws | SocketError ws =>
      if bool_decide (ws ∈ connected st)
      then {| connected := connected st;
              members := JSSet.delete ws (members st);
              active := match JSSet.delete ws (members st) with
                        | [] => false
                        | _ => active st
                        end |}
      else st
  | _ => st
  end.

Definition lifecycle_run (evs : list event) : lifecycle :=
  fold_left lifecycle_step evs lifecycle_init.

(** The event [e] empties the client set of a server that holds the
    adapter [a]. *)
Definition empties (s : System) (e : event) (a : nat) : Prop :=
  exists ws, (e = Close ws \/ e = SocketError ws) /\ registered ws s = true /\
             zalo (world s) = Some a /\ JSSet.delete ws (clients (world s)) = [].

(** Every message of the sequence comes from a socket that is in the
    client set when the message arrives. *)
Fixpoint messages_from_clients (s : System) (evs : list event) : Prop :=
  match evs with
  | [] => True
  | e :: rest =>
      match e with
      | Message ws _ => ws ∈ clients (world s)
      | _ => True
      end /\ messages_from_clients (fst (step s e)) rest
  end.

(** *** What a suspended handler may still do

    A handler that resumes after a vendor promise has settled no longer
    touches the server's own fields.  [framed strict p] is a syntactic
    reading of this: every write of [p] is an update [w => f w] of the state
    just read, where [f] keeps the client set and the sockets ([strict]: and
    the adapter reference), every action is [calm], and whatever follows an
    [await] is strict. *)

Definition calm (strict : bool) (x : action) : Prop :=
  match x with
  | Invoke _ Mdisconnect => False
  | Construct _ => strict = false
  | _ => True
  end.

Definition keeps (strict : bool) (w w' : t) : Prop :=
  clients w' = clients w /\ sockets w' = sockets w /\
  (strict = true -> zalo w' = zalo w).

Inductive framed {A : Type} (strict : bool) : prog t A -> Prop :=
| framed_ret a : framed strict (Ret a)
| framed_throw e : framed strict (Throw e)
| framed_get k : (forall w, framed strict (k w)) -> framed strict (Get k)
| framed_modify f k :
    (forall w, keeps strict w (f w)) -> framed strict k ->
    framed strict (Get (fun w => Put (f w) k))
| framed_emit x k : calm strict x -> framed strict k -> framed strict (Emit x k)
| framed_await c k : (forall o, framed true (k o)) -> framed strict (Await c k).

(** The actions of an adapter program are calls of its callbacks and of
    the vendor's listener. *)
Fixpoint calm_prog {S A} (p : prog S A) : Prop :=
  match p with
  | Ret _ | Throw _ => True
  | Get k => forall s, calm_prog (k s)
  | Put _ k => calm_prog k
  | Emit x k => calm true x /\ calm_prog k
  | Await _ k => forall o, calm_prog (k o)
  end.

(** Every suspended handler is strict from where it resumes. *)
Definition pending_ok (s : System) : Prop :=
  Forall (fun ck : vendor_call * (outcome -> prog t unit) => forall o, framed true (snd ck o))
         (pending s).

(** What each kind of event does to the server's fields and what it may
    do to the outside. *)
Definition step_effect (s : System) (e : event) (s' : System) (tr : list action) : Prop :=
  let w := world s in
  let w' := world s' in
  match e with
  | Connection ws =>
      clients w' = JSSet.add ws (clients w) /\ zalo w' = zalo w /\
      sockets w' = <[ws := OPEN]> (sockets w) /\ tr = []
  | Message ws data =>
      if registered ws s then
        clients w' = clients w /\ sockets w' = sockets w /\
        (if is_login data then is_Some (zalo w') else zalo w' = zalo w) /\
        Forall (calm false) tr /\
        (forall a, In (Construct a) tr -> zalo w = None /\ zalo w' = Some a)
      else s' = s /\ tr = []
  | Close ws | SocketError ws =>
      if registered ws s then
        clients w' = JSSet.delete ws (clients w) /\
        (forall x, is_Some (sockets w' !! x) <-> is_Some (sockets w !! x)) /\
        match JSSet.delete ws (clients w), zalo w with
        | [], Some a =>
            zalo w' = None /\ heap w' !! a = Some ZaloClient.new /\
            exists tr', tr = Invoke a Mdisconnect :: tr' /\ Forall (calm true) tr'
        | _, _ => zalo w' = zalo w /\ tr = []
        end
      else s' = s /\ tr = []
  | Closing ws =>
      clients w' = clients w /\ zalo w' = zalo w /\ tr = [] /\
      (forall x, is_Some (sockets w' !! x) <-> is_Some (sockets w !! x))
  | Settle _ _ | ListenerMessage _ _ _ | ListenerError _ =>
      keeps true w w' /\ Forall (calm true) tr
  end.

(** The server and the state machine agree. *)
Definition sim (s : System) (st : lifecycle) : Prop :=
  clients (world s) = members st /\
  (forall x, is_Some (sockets (world s) !! x) <-> x ∈ connected st) /\
  (is_Some (zalo (world s)) <-> active st = true).

(** *** A login, in its two halves *)

(** The world once [login] has made its [Zalo] instance and waits for the
    vendor. *)
Definition login_begun (a : nat) (w : t) : t :=
  set_heap (<[a := {| ZaloClient.zalo := Some zalo_options;
                      ZaloClient.api := ZaloClient.api (deref w a) |}]> (heap w)) w.

(** The world once [handleLogin] has constructed an adapter. *)
Definition constructed (w : t) : t :=
  set_zalo (Some (next_ref w))
    (set_next_ref (S (next_ref w))
       (set_heap (<[next_ref w := ZaloClient.new]> (heap w)) w)).

(** The adapter a [login] command goes to, the world in which its [login]
    is called, and the construction that may precede the call. *)
Definition login_target (w : t) : nat * t * list action :=
  match zalo w with
  | Some a => (a, w, [])
  | None => (next_ref w, constructed w, [Construct (next_ref w)])
  end.

End ServerSpec.

(* ===================================================================== *)
(** ** About sessions, listeners and exceptions *)
(* ===================================================================== *)

Module SessionSpec.
Import Async BridgeServer EventLoop ServerSpec.

(** *** Worlds *)

(** The world once a [login] has resumed with the API object [h]: the
    adapter [a] holds [h], and the listener of [h] belongs to [a] and is
    started. *)
Definition login_done (a h : nat) (w : t) : t :=
  set_listeners (<[h := {| owner := a; started := true |}]> (listeners w))
    (set_heap (<[a := {| ZaloClient.zalo := ZaloClient.zalo (deref w a);
                         ZaloClient.api := Some h |}]> (heap w)) w).

(** The world once [disconnect] has run on the adapter [a]. *)
Definition released (a : nat) (w : t) : t :=
  set_heap (<[a := ZaloClient.new]> (heap w))
    match ZaloClient.api (deref w a) with
    | Some h =>
        set_listeners
          (alter (fun l => {| owner := owner l; started := false |}) h (listeners w)) w
    | None => w
    end.

(** The calls [disconnect] makes on the listener of the API object held. *)
Definition stops (a : nat) (w : t) : list action :=
  match ZaloClient.api (deref w a) with
  | Some h => [ListenerStop h]
  | None => []
  end.

(** A socket that has connected and is not closed. *)
Definition live (st : option ReadyState) : Prop :=
  st = Some OPEN \/ st = Some CLOSING.

(** *** Programs that keep their exceptions

    [tame throws p]: no action of [p] is the report of an uncaught
    exception, and [p] throws only if [throws] allows it.  The reading is
    syntactic, over every state and every outcome of a vendor call. *)

Definition silent (x : action) : Prop :=
  match x with
  | Uncaught _ => False
  | _ => True
  end.

Fixpoint tame {S A} (throws : bool) (p : prog S A) : Prop :=
  match p with
  | Ret _ => True
  | Throw _ => throws = true
  | Get k => forall s, tame throws (k s)
  | Put _ k => tame throws k
  | Emit x k => silent x /\ tame throws k
  | Await _ k => forall o, tame throws (k o)
  end.

(** No suspended handler throws when it resumes. *)
Definition pending_tame (s : System) : Prop :=
  Forall (fun ck : vendor_call * (outcome -> prog t unit) => forall o, tame false (snd ck o))
         (pending s).

(** *** Adapters and their listeners *)

(** What a suspended handler does when it resumes: after a rejection it
    leaves the world as it is; after a fulfilled login it completes the
    login of one adapter, and after any other fulfilled call it leaves the
    world as it is. *)
Definition resumes (ck : vendor_call * (outcome -> prog t unit)) : Prop :=
  (forall detail w, exists tr, run (snd ck (Rejected detail)) w = (w, tr, Done (Ok tt))) /\
  match fst ck with
  | VLogin _ =>
      exists a, forall h w, exists tr,
        run (snd ck (Fulfilled h)) w = (login_done a h w, tr, Done (Ok tt))
  | _ => forall v w, exists tr, run (snd ck (Fulfilled v)) w = (w, tr, Done (Ok tt))
  end.

(** Every adapter that holds an API object owns the listener of that
    object, which is started; and the vendor has made every API object a
    listener is known of. *)
Definition wired_world (n : nat) (w : t) : Prop :=
  (forall a h, ZaloClient.api (deref w a) = Some h ->
     listeners w !! h = Some {| owner := a; started := true |}) /\
  (forall h, is_Some (listeners w !! h) -> h < n).

Definition wired (s : System) : Prop :=
  wired_world (apis s) (world s) /\ Forall resumes (pending s).

(** *** Scenarios *)

(** One client, connected and logged in: the adapter 0 holds the API
    object 0. *)
Definition logged_in : System :=
  fst (exec boot [Connection 1; Message 1 (Parsed login_command); Settle 0 None]).

Definition typing_command : jsval :=
  JObj [("type", JStr "typing"); ("to", JStr "2757412803318084159")].

(** A [send] command without a recipient. *)
Definition send_nowhere : jsval :=
  JObj [("type", JStr "send"); ("text", JStr "hi")].

End SessionSpec.

(* ===================================================================== *)
(** * Properties of the adapter *)
(* ===================================================================== *)

Module AdapterFacts.
Import Async ZaloClient AdapterSpec.

Lemma rbind_Ok {A B} (r : result A) (f : A -> result B) (b : B) :
  rbind r f = Ok b -> exists a, r = Ok a /\ f a = Ok b.
Proof.
  destruct r as [a|e]; simpl; intros H; [eauto | discriminate].
Qed.

(** Split a hypothesis [rbind r f = Ok b] into its two halves. *)
Ltac rsplit H a Ha :=
  apply rbind_Ok in H; destruct H as (a & Ha & H).

Lemma or_else_stamp (n : jsnum) (now : Z) :
  or_else (JNum n) (JNum (Fin now)) = JNum (stamp n now).
Proof.
  unfold or_else, stamp. destruct (truthy (JNum n)); reflexivity.
Qed.

Lemma not_null_true (v : jsval) : not_null v = true -> v <> JNull.
Proof. destruct v; simpl; congruence. Qed.

Lemma translate_Some (now : Z) (message : jsval) (msg : InboundMessage) :
  translate now message = Ok (Some msg) -> extracted now message msg.
Proof.
  unfold translate; intros H.
  rsplit H shown Eshown. rsplit H sender Esender. rsplit H thread Ethread.
  rsplit H mid Emid. rsplit H ts Ets. rsplit H n En. rsplit H type Etype.
  rsplit H c Ec. rsplit H cont Econt.
  destruct cont as [cont|]; [|discriminate].
  rsplit H u1 Eu1. rsplit H short Eshort. rsplit H u2 Eu2.
  injection H as <-.
  assert (Hs : exists s, thread = JStr s).
  { destruct thread; simpl in Eshort; try discriminate; eauto. }
  assert (Hc : match c with
               | JStr s => cont = Text s
               | _ => exists href, get c "href" = Ok href /\ href <> JNull /\
                                   cont = Attachment href
               end).
  { destruct c; simpl in Econt; try (injection Econt as <-; reflexivity);
      rsplit Econt c' Ec'; rsplit Econt href Ehref;
      rewrite Ec in Ec'; injection Ec' as <-;
      (destruct (not_null href) eqn:Hn; [|discriminate]);
      injection Econt as <-; exists href; auto using not_null_true. }
  constructor; simpl; eauto.
  exists ts, n. rewrite or_else_stamp. repeat split; auto.
  unfold stamp. destruct (truthy (JNum n)) eqn:E; [intros ->; discriminate|discriminate].
Qed.

(** The handler, by the three outcomes of [translate]. *)
Lemma on_message_run (now : Z) (message : jsval) (this : t) :
  run (on_message now message) this =
    (this,
     match translate now message with
     | Ok (Some msg) => [OnMessage msg]
     | _ => []
     end,
     Done (Ok tt)).
Proof.
  unfold on_message.
  destruct (translate now message) as [[msg|]|e]; reflexivity.
Qed.

(** *** Content classification *)

(** Content classification on the events of the vendor library, case by
    case: a string is forwarded as it is; [null] and [undefined] make the
    handler throw (and catch); any other value is an attachment unless its
    [href] is [null], which is the only content dropped silently. *)
Lemma translate_vendor_event now type thread uid mid ts c :
  translate now (vendor_event type thread uid mid ts c) =
    match c with
    | JStr s => Ok (Some (forwarded now type thread uid mid ts (Text s)))
    | JUndefined | JNull => Raise (TypeError "href")
    | JObj fields =>
        match own fields "href" with
        | Some JNull => Ok None
        | Some href => Ok (Some (forwarded now type thread uid mid ts (Attachment href)))
        | None => Ok (Some (forwarded now type thread uid mid ts (Attachment JUndefined)))
        end
    | _ => Ok (Some (forwarded now type thread uid mid ts (Attachment JUndefined)))
    end.
Proof.
  unfold translate, data_content, data_field, vendor_event, forwarded.
  cbn -[StringToNumber or_else strict_eq ThreadType_Group].
  rewrite or_else_stamp.
  destruct c as [| |b|n|s|fields]; try reflexivity.
  cbn -[StringToNumber strict_eq ThreadType_Group stamp].
  destruct (own fields "href") as [[| | | | |]|]; reflexivity.
Qed.

(** C1, at the failing input.  Content classification: a string is
    forwarded verbatim and a record whose [href] is [null] is dropped, but a
    record that has no [href] at all (here a sticker) is not dropped: since
    [undefined !== null], [onMessage] is called with the attachment
    [{ type: "attachment", href: undefined }]. *)
Theorem content_without_link_is_forwarded (now : Z) (this : t) :
  run (on_message now sticker_event) this =
    (this,
     [OnMessage {| senderId := JStr "8412076905511446202";
                   threadId := JStr "2757412803318084159";
                   content := Attachment JUndefined;
                   messageId := JStr "5612020938012";
                   timestamp := JNum (Fin 1700000000000);
                   isGroup := false |}],
     Done (Ok tt)).
Proof.
  rewrite on_message_run. unfold sticker_event.
  rewrite translate_vendor_event. reflexivity.
Qed.

(** The three cases of the specification's example hold on the code. *)
Lemma classification_examples now type thread uid mid ts this :
  run (on_message now (vendor_event type thread uid mid ts (JStr "hello"))) this
    = (this, [OnMessage (forwarded now type thread uid mid ts (Text "hello"))], Done (Ok tt)) /\
  run (on_message now (vendor_event type thread uid mid ts (JObj [("href", JStr "http://x")]))) this
    = (this, [OnMessage (forwarded now type thread uid mid ts (Attachment (JStr "http://x")))],
       Done (Ok tt)) /\
  run (on_message now (vendor_event type thread uid mid ts (JObj [("href", JNull)]))) this
    = (this, [], Done (Ok tt)).
Proof.
  rewrite !on_message_run, !translate_vendor_event. auto.
Qed.

(** *** The timestamp *)

(** C3, counterexample.  The timestamp field is present and numeric (the
    number 0), the event is forwarded, and the timestamp of the forwarded
    event is the receipt time, not the vendor's 0: [0 || Date.now()] is
    [Date.now()]. *)
Lemma zero_timestamp_is_replaced :
  data_field zero_ts_event "ts" = Ok (JNum (Fin 0)) /\
  Number (JNum (Fin 0)) = Ok (Fin 0) /\
  run (on_message 1700000000000 zero_ts_event) new =
    (new,
     [OnMessage {| senderId := JStr "8412076905511446202";
                   threadId := JStr "2757412803318084159";
                   content := Text "hello";
                   messageId := JStr "5612020938012";
                   timestamp := JNum (Fin 1700000000000);
                   isGroup := false |}],
     Done (Ok tt)).
Proof. repeat split; reflexivity. Qed.

Lemma truthy_number (n : jsnum) :
  truthy (JNum n) = false <-> n = NaN \/ n = Fin 0 \/ n = NegZero.
Proof.
  destruct n as [|z| |b|b m e]; simpl; split; auto; try discriminate.
  - intros H. apply Bool.negb_false_iff, Z.eqb_eq in H. subst. auto.
  - intros [H|[H|H]]; try discriminate. injection H as ->. reflexivity.
  - intros [H|[H|H]]; discriminate.
  - intros [H|[H|H]]; discriminate.
Qed.

(** C3, amended.  For every vendor event that is forwarded, with [ts] the
    value of [message.data?.ts] ([undefined] when the field is absent) and
    [n] the number [Number(ts)]: the timestamp of the forwarded event is [n]
    itself whenever [n] is neither [NaN] nor a zero, and the receipt time
    [now] whenever [n] is [NaN] (the field is absent, or does not convert
    to a number) or a zero ([0], [-0], and what converts to them: [null],
    [false], the empty string); it is a number other than [NaN] in every
    case, never [undefined]. *)
Theorem timestamp_fallback (now : Z) (message : jsval) (this this' : t)
    (msg : InboundMessage) (st : status t unit) :
  run (on_message now message) this = (this', [OnMessage msg], st) ->
  exists ts n,
    data_field message "ts" = Ok ts /\ Number ts = Ok n /\
    (n <> NaN -> n <> Fin 0 -> n <> NegZero -> timestamp msg = JNum n) /\
    (n = NaN \/ n = Fin 0 \/ n = NegZero -> timestamp msg = JNum (Fin now)) /\
    (ts = JUndefined -> timestamp msg = JNum (Fin now)) /\
    (exists m, timestamp msg = JNum m /\ m <> NaN).
Proof.
  rewrite on_message_run. intros H.
  destruct (translate now message) as [[m|]|e] eqn:Ht; try discriminate.
  assert (m = msg) as -> by congruence.
  destruct (translate_Some _ _ _ Ht) as [_ _ _ _ (ts & n & Ets & En & Hs & _) _ _].
  exists ts, n. unfold stamp in Hs.
  pose proof (truthy_number n) as Hn.
  split; [exact Ets|]. split; [exact En|].
  destruct (truthy (JNum n)) eqn:Htr.
  - assert (Hno : ~ (n = NaN \/ n = Fin 0 \/ n = NegZero)).
    { intros H0. apply Hn in H0. discriminate. }
    split; [auto|]. split; [tauto|]. split.
    + intros ->. simpl in En. injection En as <-. tauto.
    + exists n. split; [exact Hs|]. tauto.
  - split; [intros H1 H2 H3; destruct Hn as [Hn _]; destruct (Hn eq_refl) as [?|[?|?]];
            contradiction|].
    split; [auto|]. split; [auto|].
    exists (Fin now). split; [exact Hs|discriminate].
Qed.

Lemma timestamp_fallback_witness :
  exists ts n,
    data_field (stamped_event (JStr "1e3")) "ts" = Ok ts /\ Number ts = Ok n /\
    (n <> NaN -> n <> Fin 0 -> n <> NegZero ->
     timestamp (stamped (Fin 1000)) = JNum n) /\
    (n = NaN \/ n = Fin 0 \/ n = NegZero ->
     timestamp (stamped (Fin 1000)) = JNum (Fin 5)) /\
    (ts = JUndefined -> timestamp (stamped (Fin 1000)) = JNum (Fin 5)) /\
    (exists m, timestamp (stamped (Fin 1000)) = JNum m /\ m <> NaN).
Proof.
  apply (timestamp_fallback 5 (stamped_event (JStr "1e3")) new new _ (Done (Ok tt))).
  vm_compute. reflexivity.
Defined.

(** [Number] on strings, by the forms of a numeric literal: exponents,
    fractions, the other radices, [Infinity], rounding to the nearest
    double, and the strings that are no literal. *)
Example StringToNumber_examples :
  StringToNumber "1700000000000" = Fin 1700000000000 /\
  StringToNumber "1e3" = Fin 1000 /\
  StringToNumber "1700000000000.0" = Fin 1700000000000 /\
  StringToNumber "0x10" = Fin 16 /\
  StringToNumber "1.5" = Frac false 3 1 /\
  StringToNumber "0.1" = Frac false 3602879701896397 55 /\
  StringToNumber "Infinity" = Inf false /\
  StringToNumber "-Infinity" = Inf true /\
  StringToNumber "1e400" = Inf false /\
  StringToNumber "9007199254740993" = Fin 9007199254740992 /\
  StringToNumber "1e23" = Fin 99999999999999991611392 /\
  StringToNumber "5e-324" = Frac false 1 1074 /\
  StringToNumber "2e-324" = Fin 0 /\
  StringToNumber "-0" = NegZero /\
  StringToNumber "" = Fin 0 /\
  StringToNumber " 12 " = Fin 12 /\
  StringToNumber "12px" = NaN /\
  StringToNumber "0x" = NaN /\
  StringToNumber "-0x10" = NaN /\
  StringToNumber "1e" = NaN /\
  StringToNumber "." = NaN /\
  StringToNumber "infinity" = NaN.
Proof. repeat split; vm_compute; reflexivity. Qed.

(** The timestamp of a forwarded event, by what the field holds. *)
Example timestamp_examples (now : Z) (this : t) :
  run (on_message now (stamped_event (JStr "1e3"))) this =
    (this, [OnMessage (stamped (Fin 1000))], Done (Ok tt)) /\
  run (on_message now (stamped_event (JStr "1.5"))) this =
    (this, [OnMessage (stamped (Frac false 3 1))], Done (Ok tt)) /\
  run (on_message now (stamped_event (JStr "Infinity"))) this =
    (this, [OnMessage (stamped (Inf false))], Done (Ok tt)) /\
  run (on_message now (stamped_event (JBool true))) this =
    (this, [OnMessage (stamped (Fin 1))], Done (Ok tt)) /\
  run (on_message now (stamped_event (JStr "yesterday"))) this =
    (this, [OnMessage (stamped (Fin now))], Done (Ok tt)) /\
  run (on_message now (stamped_event (JStr ""))) this =
    (this, [OnMessage (stamped (Fin now))], Done (Ok tt)) /\
  run (on_message now (stamped_event JNull)) this =
    (this, [OnMessage (stamped (Fin now))], Done (Ok tt)) /\
  run (on_message now (stamped_event JUndefined)) this =
    (this, [OnMessage (stamped (Fin now))], Done (Ok tt)).
Proof. repeat split; vm_compute; reflexivity. Qed.

(** *** The handler contains its exceptions *)



(** *** [sendMessage] *)

(** C6.  Run on its own against any behaviour of the vendor library,
    [sendMessage] leaves the adapter's fields alone; it raises NotLoggedIn
    if and only if the adapter holds no API object, and then makes no
    vendor call; when an API object is held and the thread id is a string
    (as the signature declares) it makes exactly the vendor call
    [api.sendMessage(text, threadId, type)], returns when that call fulfils,
    and throws the vendor's error when it is rejected. *)
Theorem sendMessage_contract (oracle : vendor_call -> outcome) (this : t)
    (threadId text type : jsval) :
  exists tr r,
    complete oracle (sendMessage threadId text type) this = (this, tr, r) /\
    (r = Raise NotLoggedIn <-> api this = None) /\
    (api this = None -> tr = []) /\
    (forall h s, api this = Some h -> threadId = JStr s ->
       tr = [Call (VSendMessage h text threadId type)] /\
       r = match oracle (VSendMessage h text threadId type) with
           | Fulfilled _ => Ok tt
           | Rejected detail => Raise (VendorError detail)
           end).
Proof.
  unfold sendMessage. destruct this as [z [h|]]; simpl.
  - destruct threadId as [| |b|n|s|fields]; simpl;
      try (eexists _, _; split; [reflexivity|];
           split; [split; discriminate|]; split; [discriminate|];
           intros ? ? _ ?; discriminate).
    destruct (oracle (VSendMessage h text (JStr s) type)) as [v|d] eqn:Ho; simpl;
      eexists _, _; (split; [reflexivity|]);
      (split; [split; discriminate|]); (split; [discriminate|]);
      intros h' s' [= <-] _; rewrite Ho; auto.
  - eexists _, _. split; [reflexivity|].
    repeat split; auto; intros; discriminate.
Qed.

(** *** [disconnect] *)

(** C8.  Whatever the fields of the adapter hold, [disconnect] finishes
    normally: it stops the listener of the API object if one is held, calls
    [onStatus("disconnected")] exactly once, and leaves both fields [null];
    a second call finds nothing to stop, reports the status once more and
    leaves the same state. *)
Theorem disconnect_total_idempotent (oracle : vendor_call -> outcome) (this : t) :
  complete oracle disconnect this =
    ({| zalo := None; api := None |},
     match api this with
     | Some h => [ListenerStop h; OnStatus "disconnected"]
     | None => [OnStatus "disconnected"]
     end,
     Ok tt) /\
  complete oracle disconnect {| zalo := None; api := None |} =
    ({| zalo := None; api := None |}, [OnStatus "disconnected"], Ok tt).
Proof.
  destruct this as [z [h|]]; split; reflexivity.
Qed.

End AdapterFacts.

(* ===================================================================== *)
(** * Properties of the server *)
(* ===================================================================== *)

Module ServerFacts.
Import Async BridgeServer EventLoop ServerSpec.

(** *** Running composed programs *)

Lemma run_bind {S A B} (p : prog S A) (f : A -> prog S B) (s : S) :
  run (bind p f) s =
    match run p s with
    | (s1, tr1, Done (Ok a)) =>
        let '(s2, tr2, st) := run (f a) s1 in (s2, tr1 ++ tr2, st)
    | (s1, tr1, Done (Raise e)) => (s1, tr1, Done (Raise e))
    | (s1, tr1, Suspended c k) => (s1, tr1, Suspended c (fun o => bind (k o) f))
    end.
Proof.
  revert s. induction p as [a|e|k IH|s' k IH|x k IH|c k IH]; intros s; simpl.
  - destruct (run (f a) s) as [[s2 tr2] st]. reflexivity.
  - reflexivity.
  - apply IH.
  - apply IH.
  - rewrite IH. destruct (run k s) as [[s1 tr1] [[a|e]|c k']]; try reflexivity.
    destruct (run (f a) s1) as [[s2 tr2] st]. reflexivity.
  - reflexivity.
Qed.

Lemma run_try_catch {S A} (p : prog S A) (h : exn -> prog S A) (s : S) :
  run (try_catch p h) s =
    match run p s with
    | (s1, tr1, Done (Ok a)) => (s1, tr1, Done (Ok a))
    | (s1, tr1, Done (Raise e)) =>
        let '(s2, tr2, st) := run (h e) s1 in (s2, tr1 ++ tr2, st)
    | (s1, tr1, Suspended c k) => (s1, tr1, Suspended c (fun o => try_catch (k o) h))
    end.
Proof.
  revert s. induction p as [a|e|k IH|s' k IH|x k IH|c k IH]; intros s; simpl.
  - reflexivity.
  - destruct (run (h e) s) as [[s2 tr2] st]. reflexivity.
  - apply IH.
  - apply IH.
  - rewrite IH. destruct (run k s) as [[s1 tr1] [[a|e]|c k']]; try reflexivity.
    destruct (run (h e) s1) as [[s2 tr2] st]. reflexivity.
  - reflexivity.
Qed.

(** *** [broadcast] *)

Lemma run_for_of (body : nat -> prog t unit) (out : nat -> list action) (w : t)
    (l : list nat) :
  (forall x, run (body x) w = (w, out x, Done (Ok tt))) ->
  run (for_of l body) w = (w, List.concat (map out l), Done (Ok tt)).
Proof.
  intros Hbody. induction l as [|c l IH]; [reflexivity|].
  cbn [for_of map List.concat]. rewrite run_bind, Hbody, IH. reflexivity.
Qed.

Lemma sends_filter (msg : BridgeMessage) (P : nat -> bool) (l : list nat) :
  List.concat (map (fun c => if P c then [WsSend c msg] else []) l) =
    map (fun c => WsSend c msg) (filter (fun c => P c = true) l).
Proof.
  induction l as [|c l IH]; [reflexivity|].
  cbn [map List.concat]. rewrite filter_cons, IH.
  destruct (P c); [rewrite decide_True by reflexivity|rewrite decide_False by discriminate];
    reflexivity.
Qed.

Lemma run_broadcast (msg : BridgeMessage) (w : t) :
  run (broadcast msg) w =
    (w, map (fun client => WsSend client msg) (reached w), Done (Ok tt)).
Proof.
  unfold broadcast, reached. cbn [bind read run].
  rewrite <- (sends_filter msg (fun c => is_open (sockets w !! c))).
  apply run_for_of. intros c. cbn [bind read run].
  destruct (is_open (sockets w !! c)); reflexivity.
Qed.

(** *** Commands *)

Lemma strict_eq_JStr (v : jsval) (name : string) :
  strict_eq v (JStr name) = true -> v = JStr name.
Proof.
  destruct v as [| |b|n|s|f]; simpl; try discriminate.
  intros H. apply String.eqb_eq in H. congruence.
Qed.

Lemma has_type_get (cmd : jsval) (name : string) :
  has_type cmd name = true -> get cmd "type" = Ok (JStr name).
Proof.
  unfold has_type. destruct (get cmd "type") as [ty|e]; [|discriminate].
  intros H. apply strict_eq_JStr in H. congruence.
Qed.

Lemma spawn_done (p : prog t unit) (s : System) (tr : list action) :
  run p (world s) = (world s, tr, Done (Ok tt)) -> spawn p s = (s, tr).
Proof.
  intros H. unfold spawn. rewrite H. destruct s; reflexivity.
Qed.

(** C4, counterexample.  One client connects and sends [login]; the vendor
    has not answered, so no login has completed: no login result has been
    sent and the adapter holds no API object.  A [send] command is not a
    no-op now: [sendMessage] is called on the adapter and an error event is
    sent back to the client.  Nor is a [typing] command: [sendTypingEvent]
    is called on the adapter. *)
Lemma send_before_login_completes_is_answered :
  registered 1 (fst (exec boot [Connection 1; Message 1 (Parsed login_command)])) = true /\
  login_recipients (snd (exec boot [Connection 1; Message 1 (Parsed login_command)])) = [] /\
  ZaloClient.api
    (deref (world (fst (exec boot [Connection 1; Message 1 (Parsed login_command)]))) 0) =
    None /\
  snd (step (fst (exec boot [Connection 1; Message 1 (Parsed login_command)]))
         (Message 1 (Parsed send_command))) =
    [Invoke 0 MsendMessage; WsSend 1 (ErrorEvent NotLoggedIn)] /\
  snd (step (fst (exec boot [Connection 1; Message 1 (Parsed login_command)]))
         (Message 1 (Parsed (JObj [("type", JStr "typing");
                                   ("to", JStr "2757412803318084159")])))) =
    [Invoke 0 MsendTypingEvent].
Proof. repeat split; vm_compute; reflexivity. Qed.

(** C4, amended.  While the server holds no adapter (the no-session state
    of the session state machine: no [login] command has been handled since
    the server last entered it), a [send] or [typing] command from any
    socket changes nothing and does nothing: the state is the same, no
    method of an adapter and no vendor function is called, nothing is sent
    to any client, and no exception leaves the handler. *)
Theorem command_without_session_is_ignored (s : System) (ws : nat) (cmd : jsval) :
  zalo (world s) = None ->
  has_type cmd "send" = true \/ has_type cmd "typing" = true ->
  step s (Message ws (Parsed cmd)) = (s, []).
Proof.
  intros Hz Hty. cbn [step].
  destruct (registered ws s); [|reflexivity].
  apply spawn_done.
  unfold on_message, handleCommand. cbn [JSON_parse lift bind].
  destruct Hty as [Hty|Hty]; apply has_type_get in Hty; rewrite Hty;
    cbn; rewrite Hz; reflexivity.
Qed.

Lemma command_without_session_is_ignored_witness :
  registered 1 one_client = true /\
  step one_client (Message 1 (Parsed send_command)) = (one_client, []).
Proof.
  split; [reflexivity|].
  apply command_without_session_is_ignored; [reflexivity|left; reflexivity].
Defined.

(** C5, counterexample.  A frame that parses to an object whose [type] is
    none of [login], [send], [typing] gets no answer: the originating client,
    connected and open, is sent no error event. *)
Lemma unknown_command_gets_no_error :
  registered 1 one_client = true /\
  has_type (JObj [("type", JStr "ping")]) "login" = false /\
  has_type (JObj [("type", JStr "ping")]) "send" = false /\
  has_type (JObj [("type", JStr "ping")]) "typing" = false /\
  step one_client (Message 1 (Parsed (JObj [("type", JStr "ping")]))) = (one_client, []).
Proof. repeat split; vm_compute; reflexivity. Qed.

(** C5, amended.  On a connected socket, a frame that fails to parse as
    JSON is answered with exactly one error event, sent to the originating
    client and to nobody else; a frame that parses to a value whose [type]
    is none of [login], [send], [typing] is answered with nothing at all,
    unless reading [type] itself throws (the value [null]), which is
    answered like a parse failure.  In each case the state of the server is
    unchanged: the connection stays open and in the client set. *)
Theorem malformed_frame_is_answered (s : System) (ws : nat) :
  registered ws s = true ->
  step s (Message ws Malformed) = (s, [WsSend ws (ErrorEvent SyntaxError)]) /\
  (forall cmd,
     has_type cmd "login" = false -> has_type cmd "send" = false ->
     has_type cmd "typing" = false ->
     step s (Message ws (Parsed cmd)) =
       (s, match get cmd "type" with
           | Ok _ => []
           | Raise e => [WsSend ws (ErrorEvent e)]
           end)).
Proof.
  intros Hreg. cbn [step]. rewrite Hreg. split.
  - apply spawn_done. reflexivity.
  - intros cmd Hl Hs Ht. apply spawn_done.
    unfold on_message, handleCommand. cbn [JSON_parse lift bind].
    unfold has_type in Hl, Hs, Ht.
    destruct (get cmd "type") as [ty|e]; [|reflexivity].
    cbn [lift bind try_catch]. rewrite Hl. cbn [read bind try_catch run].
    rewrite Hs, Ht. destruct (zalo (world s)); reflexivity.
Qed.

Lemma malformed_frame_is_answered_witness :
  step one_client (Message 1 Malformed) =
    (one_client, [WsSend 1 (ErrorEvent SyntaxError)]) /\
  (forall cmd,
     has_type cmd "login" = false -> has_type cmd "send" = false ->
     has_type cmd "typing" = false ->
     step one_client (Message 1 (Parsed cmd)) =
       (one_client, match get cmd "type" with
                    | Ok _ => []
                    | Raise e => [WsSend 1 (ErrorEvent e)]
                    end)).
Proof.
  apply (malformed_frame_is_answered one_client 1). reflexivity.
Defined.

(** *** What a suspended handler may still do *)

Lemma keeps_refl strict w : keeps strict w w.
Proof. unfold keeps; auto. Qed.

Lemma keeps_trans strict w1 w2 w3 :
  keeps strict w1 w2 -> keeps strict w2 w3 -> keeps strict w1 w3.
Proof.
  unfold keeps. intros (Hc & Hs & Hz) (Hc' & Hs' & Hz').
  repeat split; try congruence. intros H. rewrite Hz', Hz; auto.
Qed.

Lemma keeps_weaken strict w w' : keeps true w w' -> keeps strict w w'.
Proof. unfold keeps. intros (Hc & Hs & Hz). auto. Qed.

Lemma calm_weaken strict x : calm true x -> calm strict x.
Proof. destruct x as [| |a []| | | | | | |]; simpl; auto; discriminate. Qed.

Lemma framed_weaken {A} strict (p : prog t A) : framed true p -> framed strict p.
Proof.
  intros H. remember true as b eqn:Hb. revert Hb.
  induction H as [b a|b e|b k Hk IH|b f k Hf Hk IH|b x k Hx Hk IH|b c k Hk IH];
    intros ->.
  - apply framed_ret.
  - apply framed_throw.
  - apply framed_get. auto.
  - apply framed_modify; auto using keeps_weaken.
  - apply framed_emit; auto using calm_weaken.
  - apply framed_await. exact Hk.
Qed.

(** Soundness of the reading. *)
Lemma framed_run {A} strict (p : prog t A) :
  framed strict p ->
  forall w w' tr st, run p w = (w', tr, st) ->
    keeps strict w w' /\ Forall (calm strict) tr /\
    match st with
    | Suspended c k => forall o, framed true (k o)
    | Done _ => True
    end.
Proof.
  induction 1 as [b a|b e|b k Hk IH|b f k Hf Hk IH|b x k Hx Hk IH|b c k Hk IH];
    intros w w' tr st; simpl.
  - intros [= <- <- <-]. auto using keeps_refl.
  - intros [= <- <- <-]. auto using keeps_refl.
  - apply IH.
  - intros Hr. destruct (IH _ _ _ _ Hr) as (Hfr & Htr & Hst).
    eauto using keeps_trans.
  - destruct (run k w) as [[w1 tr1] st1] eqn:Hr. intros [= <- <- <-].
    destruct (IH _ _ _ _ Hr) as (Hfr & Htr & Hst). auto.
  - intros [= <- <- <-]. repeat split; auto using keeps_refl.
    repeat constructor.
Qed.

Lemma framed_bind {A B} strict (p : prog t A) (f : A -> prog t B) :
  framed strict p -> (forall a, framed true (f a)) -> framed strict (bind p f).
Proof.
  intros Hp Hf.
  induction Hp as [b a|b e|b k Hk IH|b g k Hg Hk IH|b x k Hx Hk IH|b c k Hk IH]; simpl.
  - apply framed_weaken, Hf.
  - apply framed_throw.
  - apply framed_get. exact IH.
  - apply (framed_modify b g (bind k f)); assumption.
  - apply framed_emit; assumption.
  - apply framed_await. exact IH.
Qed.

Lemma framed_try_catch {A} strict (p : prog t A) (h : exn -> prog t A) :
  framed strict p -> (forall e, framed true (h e)) -> framed strict (try_catch p h).
Proof.
  intros Hp Hh.
  induction Hp as [b a|b e|b k Hk IH|b g k Hg Hk IH|b x k Hx Hk IH|b c k Hk IH]; simpl.
  - apply framed_ret.
  - apply framed_weaken, Hh.
  - apply framed_get. exact IH.
  - apply (framed_modify b g (try_catch k h)); assumption.
  - apply framed_emit; assumption.
  - apply framed_await. exact IH.
Qed.

(** After a program that cannot suspend, the rest need be no stricter. *)
Lemma framed_lift_bind {A B} strict (r : result A) (f : A -> prog t B) :
  (forall a, framed strict (f a)) -> framed strict (bind (lift r) f).
Proof. intros Hf. destruct r as [a|e]; simpl; [apply Hf|apply framed_throw]. Qed.

Lemma framed_emit_unit strict (x : action) : calm strict x -> framed strict (emit x).
Proof. intros Hx. apply framed_emit; [exact Hx|apply framed_ret]. Qed.

Lemma framed_modify_unit strict (f : t -> t) :
  (forall w, keeps strict w (f w)) -> framed strict (modify f).
Proof. intros Hf. apply (framed_modify strict f (Ret tt)); [exact Hf|apply framed_ret]. Qed.

Lemma framed_for_of (l : list nat) (body : nat -> prog t unit) :
  (forall x, framed true (body x)) -> framed true (for_of l body).
Proof.
  intros Hb. induction l as [|x l IH]; simpl; [apply framed_ret|].
  apply framed_bind; auto.
Qed.

Lemma framed_broadcast (msg : BridgeMessage) : framed true (broadcast msg).
Proof.
  unfold broadcast. cbn [bind read]. apply framed_get. intros this.
  apply framed_for_of. intros client. cbn [bind read]. apply framed_get. intros w.
  destruct (is_open (sockets w !! client)); [apply framed_emit_unit; exact I|apply framed_ret].
Qed.

Lemma framed_effect (a : nat) (x : action) : framed true (effect a x).
Proof.
  destruct x; simpl; try apply framed_ret; try apply framed_broadcast;
    apply framed_modify_unit; intros w; unfold keeps; simpl; auto.
Qed.

Lemma framed_on_adapter {A} (a : nat) (p : prog ZaloClient.t A) :
  calm_prog p -> framed true (on_adapter a p).
Proof.
  induction p as [x|e|k IH|c k IH|x k IH|c k IH]; simpl; intros Hp.
  - apply framed_ret.
  - apply framed_throw.
  - apply framed_get. intros w. apply IH, Hp.
  - apply (framed_modify true (fun w => set_heap (<[a:=c]> (heap w)) w) (on_adapter a k)).
    + intros w. unfold keeps; simpl; auto.
    + apply IH, Hp.
  - destruct Hp as [Hx Hp]. apply framed_emit; [exact Hx|].
    apply framed_bind; [apply framed_effect|]. intros _. apply IH, Hp.
  - apply framed_await. intros o. apply IH, Hp.
Qed.

Lemma framed_invoke {A} (a : nat) (m : method) (p : prog ZaloClient.t A) :
  m <> Mdisconnect -> calm_prog p -> framed true (invoke a m p).
Proof.
  intros Hm Hp. unfold invoke. apply framed_emit; [|apply framed_on_adapter, Hp].
  destruct m; simpl; auto.
Qed.

(** The adapter's methods and listeners are calm. *)
Ltac calm_tac :=
  repeat (cbn; intros;
          match goal with
          | |- True => exact I
          | |- _ /\ _ => split
          | |- context [match ?x with _ => _ end] => destruct x
          | |- context [lift ?r] => destruct r
          end).

Lemma calm_login credentials : calm_prog (ZaloClient.login credentials).
Proof. calm_tac. Qed.

Lemma calm_sendMessage threadId text type :
  calm_prog (ZaloClient.sendMessage threadId text type).
Proof. calm_tac. Qed.

Lemma calm_sendTypingEvent threadId : calm_prog (ZaloClient.sendTypingEvent threadId).
Proof. calm_tac. Qed.

Lemma calm_on_message now message : calm_prog (ZaloClient.on_message now message).
Proof.
  unfold ZaloClient.on_message.
  destruct (ZaloClient.translate now message) as [[msg|]|e]; cbn; auto.
Qed.

Lemma calm_on_error : calm_prog ZaloClient.on_error.
Proof. calm_tac. Qed.

(** *** The handlers of the server *)

Lemma framed_handleLogin (cmd : jsval) (ws : nat) : framed false (handleLogin cmd ws).
Proof.
  unfold handleLogin.
  apply framed_try_catch; [|intros e; apply framed_emit_unit; exact I].
  cbn [bind read]. apply framed_get. intros this.
  apply framed_bind.
  - destruct (zalo this); [apply framed_ret|].
    cbn [bind emit modify]. apply framed_emit; [reflexivity|].
    apply framed_modify_unit. intros w. unfold keeps; simpl. auto; repeat split; discriminate.
  - intros _. do 3 (apply framed_lift_bind; intros ?).
    cbn [bind read]. apply framed_get. intros w.
    apply framed_bind; [|intros _; apply framed_emit_unit; exact I].
    destruct (zalo w); [|apply framed_throw].
    apply framed_invoke; [discriminate|apply calm_login].
Qed.

(** Apart from [login], a command leaves the server's fields alone. *)
Lemma framed_handleCommand_other (cmd : jsval) (ws : nat) :
  has_type cmd "login" = false -> framed true (handleCommand cmd ws).
Proof.
  unfold has_type, handleCommand. intros Hl.
  destruct (get cmd "type") as [ty|e]; cbn [lift bind]; [|apply framed_throw].
  rewrite Hl. cbn [bind read]. apply framed_get. intros this.
  destruct (strict_eq ty (JStr "send")), (zalo this) as [a|];
    try (do 2 (apply framed_lift_bind; intros ?);
         apply framed_invoke; [discriminate|apply calm_sendMessage]);
    destruct (strict_eq ty (JStr "typing"));
    try apply framed_ret;
    apply framed_lift_bind; intros ?;
    apply framed_invoke; [discriminate|apply calm_sendTypingEvent].
Qed.

Lemma framed_handleCommand (cmd : jsval) (ws : nat) : framed false (handleCommand cmd ws).
Proof.
  destruct (has_type cmd "login") eqn:Hl;
    [|apply framed_weaken, framed_handleCommand_other, Hl].
  unfold handleCommand. rewrite (has_type_get _ _ Hl). cbn [lift bind].
  cbn. apply framed_handleLogin.
Qed.

Lemma framed_on_message (ws : nat) (data : frame) : framed false (on_message ws data).
Proof.
  unfold on_message.
  apply framed_try_catch; [|intros e; apply framed_emit_unit; exact I].
  apply framed_lift_bind. intros cmd. apply framed_handleCommand.
Qed.

Lemma framed_on_message_other (ws : nat) (data : frame) :
  is_login data = false -> framed true (on_message ws data).
Proof.
  intros Hl. unfold on_message.
  apply framed_try_catch; [|intros e; apply framed_emit_unit; exact I].
  destruct data as [|cmd]; cbn [JSON_parse lift bind]; [apply framed_throw|].
  apply framed_handleCommand_other, Hl.
Qed.

(** *** Tearing the session down *)

Lemma Forall_calm_sends strict (msg : BridgeMessage) (l : list nat) :
  Forall (calm strict) (map (fun client => WsSend client msg) l).
Proof. apply Forall_forall. intros x Hx. apply list_elem_of_fmap in Hx as (c & -> & _). exact I. Qed.

(** [this.zalo.disconnect()] on the adapter [a]: it always completes, and
    touches neither the client set nor the adapter reference. *)
Lemma run_invoke_disconnect (a : nat) (w : t) :
  exists w' tr,
    run (invoke a Mdisconnect ZaloClient.disconnect) w =
      (w', Invoke a Mdisconnect :: tr, Done (Ok tt)) /\
    keeps true w w' /\ Forall (calm true) tr /\
    heap w' !! a = Some ZaloClient.new.
Proof.
  unfold invoke, ZaloClient.disconnect.
  cbn -[broadcast]. destruct (ZaloClient.api (deref w a)) as [h|];
    cbn -[broadcast]; rewrite run_bind, run_broadcast; cbn -[reached];
    eexists _, _; (split; [reflexivity|]);
    (split; [unfold keeps; simpl; auto|]);
    (split; [|simpl; rewrite insert_insert_eq, lookup_insert_eq;
                unfold deref; simpl; rewrite lookup_insert_eq; reflexivity]);
    repeat constructor; rewrite app_nil_r; apply Forall_calm_sends.
Qed.

(** The ["close"] and ["error"] handlers, which differ only in how a
    rejection of [disconnect()] would be handled. *)
Lemma run_on_close (ws : nat) (w : t) :
  exists w' tr,
    run (on_close ws) w = (w', tr, Done (Ok tt)) /\
    clients w' = JSSet.delete ws (clients w) /\ sockets w' = sockets w /\
    match JSSet.delete ws (clients w), zalo w with
    | [], Some a =>
        zalo w' = None /\ heap w' !! a = Some ZaloClient.new /\
        exists tr', tr = Invoke a Mdisconnect :: tr' /\ Forall (calm true) tr'
    | _, _ => zalo w' = zalo w /\ tr = []
    end.
Proof.
  unfold on_close. cbn [bind modify read run].
  generalize (JSSet.delete ws (clients w)). intros d.
  cbn [clients zalo set_clients].
  destruct d as [|c l], (zalo w) as [a|] eqn:Hz;
    try (eexists _, _; split; [reflexivity|]; cbn [clients sockets zalo set_clients];
         rewrite ?Hz; auto).
  destruct (run_invoke_disconnect a (set_clients [] w))
    as (w' & tr & Hr & (Hc & Hs & Hk) & Htr & Hh).
  rewrite run_bind, Hr. cbn.
  eexists _, _. split; [reflexivity|]. simpl.
  rewrite Hc, Hs, app_nil_r. simpl. repeat split; eauto.
Qed.

Lemma run_on_error (ws : nat) (w : t) :
  exists w' tr,
    run (on_error ws) w = (w', tr, Done (Ok tt)) /\
    clients w' = JSSet.delete ws (clients w) /\ sockets w' = sockets w /\
    match JSSet.delete ws (clients w), zalo w with
    | [], Some a =>
        zalo w' = None /\ heap w' !! a = Some ZaloClient.new /\
        exists tr', tr = Invoke a Mdisconnect :: tr' /\ Forall (calm true) tr'
    | _, _ => zalo w' = zalo w /\ tr = []
    end.
Proof.
  unfold on_error. cbn [bind modify read run].
  generalize (JSSet.delete ws (clients w)). intros d.
  cbn [clients zalo set_clients].
  destruct d as [|c l], (zalo w) as [a|] eqn:Hz;
    try (eexists _, _; split; [reflexivity|]; cbn [clients sockets zalo set_clients];
         rewrite ?Hz; auto).
  destruct (run_invoke_disconnect a (set_clients [] w))
    as (w' & tr & Hr & (Hc & Hs & Hk) & Htr & Hh).
  rewrite run_bind, run_try_catch, Hr. cbn.
  eexists _, _. split; [reflexivity|]. simpl.
  rewrite Hc, Hs, app_nil_r. simpl. repeat split; eauto.
Qed.

(** *** [handleLogin] *)

Lemma In_calm_true_Construct (a : nat) (tr : list action) :
  Forall (calm true) tr -> ~ In (Construct a) tr.
Proof.
  intros H Hin. rewrite Forall_forall in H.
  apply list_elem_of_In, H in Hin. discriminate.
Qed.

Lemma In_calm_Invoke (strict : bool) (a : nat) (tr : list action) :
  Forall (calm strict) tr -> ~ In (Invoke a Mdisconnect) tr.
Proof.
  intros H Hin. rewrite Forall_forall in H.
  apply list_elem_of_In, H in Hin. exact Hin.
Qed.

(** A [login] command leaves the server holding an adapter, constructed
    now if none was held. *)
Lemma run_handleLogin (cmd : jsval) (ws : nat) (w w' : t) tr st :
  run (handleLogin cmd ws) w = (w', tr, st) ->
  is_Some (zalo w') /\
  (forall a, In (Construct a) tr -> zalo w = None /\ zalo w' = Some a).
Proof.
  unfold handleLogin. rewrite run_try_catch. cbn [bind read run]. rewrite run_bind.
  destruct (zalo w) as [a0|] eqn:Hz; cbn [run bind emit modify];
    match goal with
    | |- context [run ?p ?w1] =>
        assert (Hfr : framed true p);
        [ do 3 (apply framed_lift_bind; intros ?);
          cbn [bind read]; apply framed_get; intros w0;
          apply framed_bind; [|intros _; apply framed_emit_unit; exact I];
          destruct (zalo w0); [|apply framed_throw];
          apply framed_invoke; [discriminate|apply calm_login]
        | destruct (run p w1) as [[w2 tr2] st2] eqn:Hr;
          destruct (framed_run _ _ Hfr _ _ _ _ Hr) as ((_ & _ & Hk) & Htr & _);
          specialize (Hk eq_refl); simpl in Hk ]
    end.
  - destruct st2 as [[[]|e]|c k]; cbn; intros [= <- <- <-]; rewrite Hk; split; eauto;
      intros a Hin; exfalso; rewrite ?app_nil_r in Hin;
      try (apply in_app_or in Hin as [Hin|[Hin|[]]]; [|discriminate]);
      exact (In_calm_true_Construct _ _ Htr Hin).
  - destruct st2 as [[[]|e]|c k]; cbn; intros [= <- <- <-]; rewrite Hk; split; eauto;
      intros a [[= <-]|Hin]; auto; exfalso;
      try (apply in_app_or in Hin as [Hin|[Hin|[]]]; [|discriminate]);
      exact (In_calm_true_Construct _ _ Htr Hin).
Qed.

Lemma run_on_message_login (ws : nat) (data : frame) (w w' : t) tr st :
  is_login data = true ->
  run (on_message ws data) w = (w', tr, st) ->
  is_Some (zalo w') /\
  (forall a, In (Construct a) tr -> zalo w = None /\ zalo w' = Some a).
Proof.
  destruct data as [|cmd]; [discriminate|]. cbn [is_login]. intros Hl.
  unfold on_message, handleCommand. cbn [JSON_parse lift bind].
  rewrite (has_type_get _ _ Hl). cbn [lift bind strict_eq String.eqb Ascii.eqb Bool.eqb].
  rewrite run_try_catch.
  destruct (run (handleLogin cmd ws) w) as [[w1 tr1] st1] eqn:Hr.
  destruct (run_handleLogin _ _ _ _ _ _ Hr) as (Hs & Hc).
  destruct st1 as [[[]|e]|c k]; cbn; intros [= <- <- <-]; split; auto.
  intros a Hin. apply in_app_or in Hin as [Hin|[Hin|[]]]; [auto|discriminate].
Qed.

(** *** One step of the event loop *)

Lemma spawn_fr strict (p : prog t unit) (s s' : System) tr :
  framed strict p -> pending_ok s -> spawn p s = (s', tr) ->
  keeps strict (world s) (world s') /\ Forall (calm strict) tr /\ pending_ok s'.
Proof.
  intros Hfr Hp. unfold spawn.
  destruct (run p (world s)) as [[w tr0] st] eqn:Hr.
  destruct (framed_run _ _ Hfr _ _ _ _ Hr) as (Hk & Htr & Hst).
  destruct st as [[[]|e]|c k]; intros [= <- <-]; simpl; repeat split; auto;
    try apply Hk.
  - apply Forall_app. split; [exact Htr|]. repeat constructor.
  - unfold pending_ok; simpl. apply Forall_app. split; [exact Hp|].
    repeat constructor. exact Hst.
Qed.

Lemma spawn_run (p : prog t unit) (s : System) (w' : t) tr :
  run p (world s) = (w', tr, Done (Ok tt)) ->
  spawn p s = ({| world := w'; pending := pending s; apis := apis s |}, tr).
Proof. intros H. unfold spawn. rewrite H. reflexivity. Qed.

Lemma registered_spec (ws : nat) (s : System) :
  registered ws s = true <-> is_Some (sockets (world s) !! ws).
Proof. unfold registered. apply bool_decide_eq_true. Qed.

Lemma is_Some_insert_known (m : gmap nat ReadyState) (ws x : nat) (st : ReadyState) :
  is_Some (m !! ws) -> (is_Some (<[ws := st]> m !! x) <-> is_Some (m !! x)).
Proof.
  intros Hws. destruct (decide (ws = x)) as [<-|Hne].
  - rewrite lookup_insert_eq. split; eauto.
  - rewrite lookup_insert_ne by exact Hne. reflexivity.
Qed.

Lemma pending_ok_delete (s : System) (i : nat) (w : t) (n : nat) :
  pending_ok s ->
  pending_ok {| world := w; pending := delete i (pending s); apis := n |}.
Proof.
  unfold pending_ok; simpl. apply Forall_delete.
Qed.

Lemma step_spec (s s' : System) (e : event) (tr : list action) :
  pending_ok s -> step s e = (s', tr) -> pending_ok s' /\ step_effect s e s' tr.
Proof.
  intros Hp. unfold step_effect. destruct e as [ws|ws data|ws|ws|ws|i rej|h m now|h];
    cbn [step].
  - (* Connection *)
    rewrite (spawn_run _ _ (set_clients (JSSet.add ws (clients (world (with_socket ws OPEN s))))
                              (world (with_socket ws OPEN s))) []) by reflexivity.
    intros [= <- <-]. simpl. auto.
  - (* Message *)
    destruct (registered ws s) eqn:Hreg; [|intros [= <- <-]; auto].
    intros Hs. destruct (spawn_fr _ _ _ _ _ (framed_on_message ws data) Hp Hs)
      as ((Hc & Hso & _) & Htr & Hp').
    split; [exact Hp'|]. split; [exact Hc|]. split; [exact Hso|].
    unfold spawn in Hs.
    destruct (run (on_message ws data) (world s)) as [[w1 tr1] st1] eqn:Hr.
    assert (Hw : world s' = w1 /\ forall a, In (Construct a) tr -> In (Construct a) tr1).
    { destruct st1 as [[[]|e]|c k]; injection Hs as <- <-; simpl; split; auto.
      intros a Hin. apply in_app_or in Hin as [Hin|[Hin|[]]]; [exact Hin|discriminate]. }
    destruct Hw as (-> & Hin).
    destruct (is_login data) eqn:Hl.
    + destruct (run_on_message_login _ _ _ _ _ _ Hl Hr) as (Hsome & Hcons).
      split; [exact Hsome|]. split; [exact Htr|]. intros a Ha. apply Hcons, Hin, Ha.
    + destruct (framed_run _ _ (framed_on_message_other ws data Hl) _ _ _ _ Hr)
        as ((_ & _ & Hz) & Htr' & _).
      split; [auto|]. split; [exact Htr|]. intros a Ha. exfalso.
      exact (In_calm_true_Construct _ _ Htr' (Hin _ Ha)).
  - (* Close *)
    destruct (registered ws s) eqn:Hreg; [|intros [= <- <-]; auto].
    apply registered_spec in Hreg.
    destruct (run_on_close ws (world (with_socket ws CLOSED s)))
      as (w' & tr' & Hr & Hc & Hso & Hm).
    rewrite (spawn_run _ _ _ _ Hr). intros [= <- <-]. simpl in *.
    split; [exact Hp|]. split; [exact Hc|]. split; [|exact Hm].
    intros x. rewrite Hso. apply is_Some_insert_known, Hreg.
  - (* SocketError *)
    destruct (registered ws s) eqn:Hreg; [|intros [= <- <-]; auto].
    destruct (run_on_error ws (world s)) as (w' & tr' & Hr & Hc & Hso & Hm).
    rewrite (spawn_run _ _ _ _ Hr). intros [= <- <-]. simpl in *.
    split; [exact Hp|]. split; [exact Hc|]. split; [|exact Hm].
    intros x. rewrite Hso. reflexivity.
  - (* Closing *)
    destruct (registered ws s) eqn:Hreg; intros [= <- <-]; simpl;
      (split; [exact Hp|]); repeat split; auto.
    + apply is_Some_insert_known, registered_spec, Hreg.
    + apply is_Some_insert_known, registered_spec, Hreg.
  - (* Settle *)
    destruct (pending s !! i) as [[c k]|] eqn:Hi;
      [|intros [= <- <-]; split; [exact Hp|]; split; [apply keeps_refl|constructor]].
    assert (Hk : forall o, framed true (k o)).
    { unfold pending_ok in Hp. rewrite Forall_forall in Hp.
      apply (Hp (c, k)). eapply list_elem_of_lookup_2, Hi. }
    destruct rej as [detail|]; [|destruct c];
      intros Hs;
      match type of Hs with
      | spawn _ {| world := ?w; pending := _; apis := ?n |} = _ =>
          destruct (spawn_fr _ _ _ _ _ (Hk _) (pending_ok_delete s i w n Hp) Hs)
            as (Hkeep & Htr & Hp')
      end; auto.
  - (* ListenerMessage *)
    destruct (handler h s) as [a|];
      [|intros [= <- <-]; split; [exact Hp|]; split; [apply keeps_refl|constructor]].
    intros Hs.
    destruct (spawn_fr _ _ _ _ _ (framed_on_adapter a _ (calm_on_message now m)) Hp Hs)
      as (Hkeep & Htr & Hp'). auto.
  - (* ListenerError *)
    destruct (handler h s) as [a|];
      [|intros [= <- <-]; split; [exact Hp|]; split; [apply keeps_refl|constructor]].
    intros Hs.
    destruct (spawn_fr _ _ _ _ _ (framed_on_adapter a _ calm_on_error) Hp Hs)
      as (Hkeep & Htr & Hp'). auto.
Qed.

(** *** The session lifecycle *)

Lemma registered_connected (s : System) (st : lifecycle) (ws : nat) :
  sim s st -> registered ws s = bool_decide (ws ∈ connected st).
Proof.
  intros (_ & Hso & _). unfold registered. apply bool_decide_ext, Hso.
Qed.

Lemma is_Some_None_false {A} : is_Some (@None A) <-> false = true.
Proof. split; [intros [x Hx]; discriminate|discriminate]. Qed.

Lemma step_sim (s s' : System) (st : lifecycle) (e : event) (tr : list action) :
  pending_ok s -> sim s st -> step s e = (s', tr) -> sim s' (lifecycle_step st e).
Proof.
  intros Hp Hsim Hstep. pose proof (registered_connected s st) as Hreg.
  destruct (step_spec _ _ _ _ Hp Hstep) as (_ & He).
  destruct Hsim as (Hc & Hso & Hz). unfold step_effect in He.
  destruct e as [ws|ws data|ws|ws|ws|i rej|h m now|h]; cbn [lifecycle_step].
  - destruct He as (Hc' & Hz' & Hso' & _). unfold sim; simpl.
    rewrite Hc', Hz', Hso', Hc. repeat split; auto.
    + intros Hx. destruct (decide (ws = x)) as [<-|Hne]; [left|].
      rewrite lookup_insert_ne in Hx by exact Hne. right. apply Hso, Hx.
    + intros Hx. destruct (decide (ws = x)) as [<-|Hne].
      * rewrite lookup_insert_eq. eauto.
      * rewrite lookup_insert_ne by exact Hne. apply Hso.
        apply elem_of_cons in Hx as [->|Hx]; [contradiction|exact Hx].
    + apply Hz.
    + apply Hz.
  - rewrite <- Hreg by (unfold sim; auto).
    destruct (registered ws s); simpl.
    + destruct He as (Hc' & Hso' & Hz' & _).
      destruct (is_login data); unfold sim; simpl; rewrite Hc', Hso'.
      * repeat split; auto; apply Hso.
      * rewrite Hz'. repeat split; auto; try apply Hso; apply Hz.
    + destruct He as (-> & _). unfold sim; auto.
  - rewrite <- Hreg by (unfold sim; auto).
    destruct (registered ws s); simpl.
    + destruct He as (Hc' & Hso' & Hm). unfold sim; simpl.
      rewrite Hc', <- Hc. split; [reflexivity|]. split.
      * intros x. rewrite Hso'. apply Hso.
      * destruct (JSSet.delete ws (clients (world s))) as [|c l].
        -- destruct (zalo (world s)) as [a|]; [destruct Hm as (-> & _)|destruct Hm as (-> & _)];
             apply is_Some_None_false.
        -- destruct Hm as (-> & _). exact Hz.
    + destruct He as (-> & _). unfold sim; auto.
  - rewrite <- Hreg by (unfold sim; auto).
    destruct (registered ws s); simpl.
    + destruct He as (Hc' & Hso' & Hm). unfold sim; simpl.
      rewrite Hc', <- Hc. split; [reflexivity|]. split.
      * intros x. rewrite Hso'. apply Hso.
      * destruct (JSSet.delete ws (clients (world s))) as [|c l].
        -- destruct (zalo (world s)) as [a|]; [destruct Hm as (-> & _)|destruct Hm as (-> & _)];
             apply is_Some_None_false.
        -- destruct Hm as (-> & _). exact Hz.
    + destruct He as (-> & _). unfold sim; auto.
  - destruct He as (Hc' & Hz' & _ & Hso'). unfold sim. rewrite Hc', Hz'.
    repeat split; auto; try apply Hz; intros Hx; [apply Hso, Hso', Hx|apply Hso', Hso, Hx].
  - destruct He as ((Hc' & Hso' & Hz') & _). unfold sim.
    rewrite Hc', Hso', Hz' by reflexivity. auto.
  - destruct He as ((Hc' & Hso' & Hz') & _). unfold sim.
    rewrite Hc', Hso', Hz' by reflexivity. auto.
  - destruct He as ((Hc' & Hso' & Hz') & _). unfold sim.
    rewrite Hc', Hso', Hz' by reflexivity. auto.
Qed.

Lemma exec_sim (evs : list event) (s : System) (st : lifecycle) :
  pending_ok s -> sim s st ->
  pending_ok (fst (exec s evs)) /\ sim (fst (exec s evs)) (fold_left lifecycle_step evs st).
Proof.
  revert s st. induction evs as [|e evs IH]; intros s st Hp Hsim; [auto|].
  cbn [exec fold_left].
  destruct (step s e) as [s1 tr1] eqn:Hstep.
  destruct (exec s1 evs) as [s2 tr2] eqn:Hexec. simpl.
  destruct (step_spec _ _ _ _ Hp Hstep) as (Hp1 & _).
  pose proof (step_sim _ _ _ _ _ Hp Hsim Hstep) as Hsim1.
  specialize (IH s1 _ Hp1 Hsim1). rewrite Hexec in IH. exact IH.
Qed.

Lemma boot_ok : pending_ok boot /\ sim boot lifecycle_init.
Proof.
  split; [constructor|]. unfold sim; simpl. split; [reflexivity|]. split.
  - intros x. rewrite lookup_empty. split; [intros [y Hy]; discriminate|].
    intros Hx. inversion Hx.
  - apply is_Some_None_false.
Qed.

Lemma step_teardown (s s' : System) (e : event) (tr : list action) (a : nat) :
  pending_ok s -> step s e = (s', tr) ->
  (In (Invoke a Mdisconnect) tr <-> empties s e a) /\
  (In (Invoke a Mdisconnect) tr ->
     zalo (world s') = None /\ heap (world s') !! a = Some ZaloClient.new) /\
  (In (Construct a) tr -> zalo (world s) = None /\ zalo (world s') = Some a).
Proof.
  intros Hp Hstep. destruct (step_spec _ _ _ _ Hp Hstep) as (_ & He).
  unfold step_effect in He. unfold empties.
  assert (Hnil : forall x : action, In x [] <-> False) by (intros x; reflexivity).
  destruct e as [ws|ws data|ws|ws|ws|i rej|h m now|h].
  - destruct He as (_ & _ & _ & ->). rewrite !Hnil. repeat split; try tauto.
    intros (ws' & [[=]|[=]] & _).
  - destruct (registered ws s).
    + destruct He as (_ & _ & _ & Htr & Hcons).
      pose proof (In_calm_Invoke _ a _ Htr) as Hno.
      split; [split; [tauto|intros (ws' & [[=]|[=]] & _)]|].
      split; [tauto|apply Hcons].
    + destruct He as (_ & ->). rewrite !Hnil. repeat split; try tauto.
      intros (ws' & [[=]|[=]] & _).
  - destruct (registered ws s) eqn:Hreg.
    + destruct He as (_ & _ & Hm).
      destruct (JSSet.delete ws (clients (world s))) as [|c l] eqn:Hd,
               (zalo (world s)) as [a0|] eqn:Hz;
        try (destruct Hm as (_ & ->); rewrite !Hnil; repeat split; try tauto;
             intros (ws' & [[= <-]|[=]] & _ & Hz' & Hd'); congruence).
      destruct Hm as (Hz' & Hh & tr' & -> & Htr').
      pose proof (In_calm_Invoke _ a _ Htr') as Hno.
      pose proof (In_calm_true_Construct a _ Htr') as Hno'.
      split; [|split].
      * split.
        -- intros [[= <-]|Hin]; [|tauto]. exists ws. auto.
        -- intros (ws' & [[= <-]|[=]] & _ & [= <-] & _). left. reflexivity.
      * intros [[= <-]|Hin]; [auto|tauto].
      * intros [[=]|Hin]. tauto.
    + destruct He as (_ & ->). rewrite !Hnil. repeat split; try tauto.
      intros (ws' & [[= <-]|[=]] & Hr & _). congruence.
  - destruct (registered ws s) eqn:Hreg.
    + destruct He as (_ & _ & Hm).
      destruct (JSSet.delete ws (clients (world s))) as [|c l] eqn:Hd,
               (zalo (world s)) as [a0|] eqn:Hz;
        try (destruct Hm as (_ & ->); rewrite !Hnil; repeat split; try tauto;
             intros (ws' & [[=]|[= <-]] & _ & Hz' & Hd'); congruence).
      destruct Hm as (Hz' & Hh & tr' & -> & Htr').
      pose proof (In_calm_Invoke _ a _ Htr') as Hno.
      pose proof (In_calm_true_Construct a _ Htr') as Hno'.
      split; [|split].
      * split.
        -- intros [[= <-]|Hin]; [|tauto]. exists ws. auto.
        -- intros (ws' & [[=]|[= <-]] & _ & [= <-] & _). left. reflexivity.
      * intros [[= <-]|Hin]; [auto|tauto].
      * intros [[=]|Hin]. tauto.
    + destruct He as (_ & ->). rewrite !Hnil. repeat split; try tauto.
      intros (ws' & [[=]|[= <-]] & Hr & _). congruence.
  - destruct He as (_ & _ & -> & _). rewrite !Hnil. repeat split; try tauto.
    intros (ws' & [[=]|[=]] & _).
  - destruct He as (_ & Htr).
    pose proof (In_calm_Invoke _ a _ Htr) as Hno.
    pose proof (In_calm_true_Construct a _ Htr) as Hno'.
    repeat split; try tauto. intros (ws' & [[=]|[=]] & _).
  - destruct He as (_ & Htr).
    pose proof (In_calm_Invoke _ a _ Htr) as Hno.
    pose proof (In_calm_true_Construct a _ Htr) as Hno'.
    repeat split; try tauto. intros (ws' & [[=]|[=]] & _).
  - destruct He as (_ & Htr).
    pose proof (In_calm_Invoke _ a _ Htr) as Hno.
    pose proof (In_calm_true_Construct a _ Htr) as Hno'.
    repeat split; try tauto. intros (ws' & [[=]|[=]] & _).
Qed.

Lemma add_nonempty (x : nat) (l : list nat) : JSSet.add x l <> [].
Proof.
  unfold JSSet.add. destruct (decide (x ∈ l)) as [Hin|Hnin].
  - intros ->. inversion Hin.
  - destruct l; discriminate.
Qed.

(** While commands come from members of the client set, an adapter is
    held only while the set is not empty. *)
Lemma step_held_nonempty (s s' : System) (e : event) (tr : list action) :
  pending_ok s ->
  (is_Some (zalo (world s)) -> clients (world s) <> []) ->
  match e with
  | Message ws _ => ws ∈ clients (world s)
  | _ => True
  end ->
  step s e = (s', tr) ->
  is_Some (zalo (world s')) -> clients (world s') <> [].
Proof.
  intros Hp HJ Hfrom Hstep. destruct (step_spec _ _ _ _ Hp Hstep) as (_ & He).
  unfold step_effect in He.
  destruct e as [ws|ws data|ws|ws|ws|i rej|h m now|h].
  - destruct He as (-> & _). intros _. apply add_nonempty.
  - destruct (registered ws s).
    + destruct He as (-> & _ & Hz & _). intros Hsome.
      destruct (is_login data).
      * intros Hnil. rewrite Hnil in Hfrom. inversion Hfrom.
      * rewrite Hz in Hsome. auto.
    + destruct He as (-> & _). exact HJ.
  - destruct (registered ws s); [|destruct He as (-> & _); exact HJ].
    destruct He as (-> & _ & Hm).
    destruct (JSSet.delete ws (clients (world s))) as [|c l].
    + destruct (zalo (world s)); destruct Hm as (-> & _); intros [x Hx]; discriminate.
    + discriminate.
  - destruct (registered ws s); [|destruct He as (-> & _); exact HJ].
    destruct He as (-> & _ & Hm).
    destruct (JSSet.delete ws (clients (world s))) as [|c l].
    + destruct (zalo (world s)); destruct Hm as (-> & _); intros [x Hx]; discriminate.
    + discriminate.
  - destruct He as (-> & -> & _). exact HJ.
  - destruct He as ((-> & _ & ->) & _); auto.
  - destruct He as ((-> & _ & ->) & _); auto.
  - destruct He as ((-> & _ & ->) & _); auto.
Qed.

Lemma exec_held_nonempty (evs : list event) (s : System) :
  pending_ok s ->
  (is_Some (zalo (world s)) -> clients (world s) <> []) ->
  messages_from_clients s evs ->
  is_Some (zalo (world (fst (exec s evs)))) -> clients (world (fst (exec s evs))) <> [].
Proof.
  revert s. induction evs as [|e evs IH]; intros s Hp HJ Hfrom; [exact HJ|].
  cbn [exec]. destruct Hfrom as (He & Hrest).
  destruct (step s e) as [s1 tr1] eqn:Hstep.
  destruct (exec s1 evs) as [s2 tr2] eqn:Hexec. simpl.
  destruct (step_spec _ _ _ _ Hp Hstep) as (Hp1 & _).
  specialize (IH s1 Hp1 (step_held_nonempty _ _ _ _ Hp HJ He Hstep) Hrest).
  rewrite Hexec in IH. exact IH.
Qed.

(** C2, counterexample.  One client connects and sends [login]; the vendor
    rejects it.  No login has succeeded (the only login result sent is the
    failure, and the adapter holds no API object), the client set is not
    empty, and yet an adapter instance exists: the server is in the
    session-active state. *)
Lemma adapter_exists_without_successful_login :
  zalo (world (fst (exec boot rejected_login))) = Some 0 /\
  clients (world (fst (exec boot rejected_login))) = [1] /\
  heap (world (fst (exec boot rejected_login))) !! 0 =
    Some {| ZaloClient.zalo := Some {| selfListen := false; checkUpdate := false;
                                       logging := true |};
            ZaloClient.api := None |} /\
  snd (exec boot rejected_login) =
    [Construct 0; Invoke 0 Mlogin;
     Call (VLogin {| cookie := JStr "zpsid=8f3a"; imei := JStr "4a1f-7c20";
                     userAgent := JStr "Mozilla/5.0" |});
     OnStatus "disconnected"; WsSend 1 (StatusEvent "disconnected");
     WsSend 1 (LoginEvent false (Some (VendorError "invalid cookie")))].
Proof. repeat split; vm_compute; reflexivity. Qed.

(** C2, amended.  After every sequence of events (connects, commands,
    disconnects, socket errors, and the vendor's settlements and events in
    between): the server holds an adapter exactly when the session state
    machine is active, that is when a [login] command, successful or not,
    has been handled since a disconnect last left the client set empty; the
    client sets agree.  From there, any one event calls [disconnect()] on the
    adapter held exactly when it is a disconnect or socket error that leaves
    the client set empty, never when clients remain, and the handle is then
    released and the adapter's fields are cleared; and an adapter is
    constructed only when none is held, so the server never holds two.
    When every command came from a socket in the client set, an adapter is
    held only while the client set is not empty. *)
Theorem session_lifecycle (evs : list event) :
  let s := fst (exec boot evs) in
  (is_Some (zalo (world s)) <-> active (lifecycle_run evs) = true) /\
  clients (world s) = members (lifecycle_run evs) /\
  (messages_from_clients boot evs ->
   is_Some (zalo (world s)) -> clients (world s) <> []) /\
  forall (e : event) (a : nat),
    (In (Invoke a Mdisconnect) (snd (step s e)) <-> empties s e a) /\
    (In (Invoke a Mdisconnect) (snd (step s e)) ->
       zalo (world (fst (step s e))) = None /\
       heap (world (fst (step s e))) !! a = Some ZaloClient.new) /\
    (In (Construct a) (snd (step s e)) ->
       zalo (world s) = None /\ zalo (world (fst (step s e))) = Some a).
Proof.
  intros s. destruct boot_ok as (Hp0 & Hs0).
  destruct (exec_sim evs boot lifecycle_init Hp0 Hs0) as (Hp & Hc & _ & Hz).
  fold s in Hp, Hc, Hz. split; [exact Hz|]. split; [exact Hc|].
  split.
  { apply exec_held_nonempty; [exact Hp0|]. intros [x Hx]. discriminate. }
  intros e a. destruct (step s e) as [s' tr] eqn:Hstep.
  exact (step_teardown _ _ _ _ a Hp Hstep).
Qed.

(** *** A login, in its two halves *)

Lemma run_invoke_login (a : nat) (credentials : Credentials) (w : t) :
  exists k,
    run (invoke a Mlogin (ZaloClient.login credentials)) w =
      (login_begun a w, [Invoke a Mlogin; Call (VLogin credentials)],
       Suspended (VLogin credentials) k) /\
    (forall detail w',
       run (k (Rejected detail)) w' =
         (w', OnStatus "disconnected" :: sends (StatusEvent "disconnected") w',
          Done (Raise (VendorError detail)))) /\
    (forall h w', exists w'',
       run (k (Fulfilled h)) w' =
         (w'', OnStatus "connected" :: sends (StatusEvent "connected") w' ++
               [ListenerOn h; ListenerStart h],
          Done (Ok tt)) /\
       keeps true w' w'' /\ ZaloClient.api (deref w'' a) = Some h).
Proof.
  unfold invoke, ZaloClient.login. cbn -[broadcast].
  eexists. split; [reflexivity|]. split.
  - intros detail w'. cbn -[broadcast].
    rewrite run_bind, run_broadcast. cbn. rewrite app_nil_r. reflexivity.
  - intros h w'. cbn -[broadcast].
    rewrite run_bind, run_broadcast.
    do 3 (cbn -[reached]; unfold deref; cbn -[reached]; rewrite ?lookup_insert_eq).
    eexists. split; [reflexivity|]. split; [unfold keeps; simpl; auto|].
    simpl. rewrite lookup_insert_eq. reflexivity.
Qed.

Lemma run_login_command (ws : nat) (cmd : jsval) (w : t) :
  has_type cmd "login" = true ->
  let '(a, w0, pre) := login_target w in
  exists k,
    run (on_message ws (Parsed cmd)) w =
      (login_begun a w0,
       pre ++ [Invoke a Mlogin; Call (VLogin (credentials_of cmd))],
       Suspended (VLogin (credentials_of cmd)) k) /\
    (forall detail w',
       run (k (Rejected detail)) w' =
         (w', OnStatus "disconnected" :: sends (StatusEvent "disconnected") w' ++
              [WsSend ws (LoginEvent false (Some (VendorError detail)))],
          Done (Ok tt))) /\
    (forall h w', exists w'',
       run (k (Fulfilled h)) w' =
         (w'', OnStatus "connected" :: sends (StatusEvent "connected") w' ++
               [ListenerOn h; ListenerStart h; WsSend ws (LoginEvent true None)],
          Done (Ok tt)) /\
       keeps true w' w'' /\ ZaloClient.api (deref w'' a) = Some h).
Proof.
  intros Hl. pose proof (has_type_get _ _ Hl) as Hg.
  destruct cmd as [| |b|n|str|fields]; try discriminate.
  unfold login_target, on_message, handleCommand. cbn [JSON_parse lift bind].
  rewrite Hg. cbn [lift bind strict_eq String.eqb Ascii.eqb Bool.eqb].
  unfold handleLogin. rewrite !run_try_catch. cbn [bind read run]. rewrite run_bind.
  destruct (zalo w) as [a|] eqn:Hz.
  - cbn -[invoke ZaloClient.login]. rewrite Hz. rewrite run_bind.
    destruct (run_invoke_login a (credentials_of (JObj fields)) w) as (k & Hr & Hrej & Hful).
    cbn [credentials_of] in Hr. rewrite Hr.
    eexists. split; [reflexivity|]. split.
    + intros detail w'. rewrite !run_try_catch, run_bind, Hrej. cbn.
      rewrite <- ?List.app_assoc. reflexivity.
    + intros h w'. destruct (Hful h w') as (w'' & Hr' & Hk & Ha).
      exists w''. rewrite !run_try_catch, run_bind, Hr'. cbn.
      rewrite <- ?List.app_assoc. auto.
  - cbn -[invoke ZaloClient.login]. rewrite run_bind.
    destruct (run_invoke_login (next_ref w) (credentials_of (JObj fields)) (constructed w))
      as (k & Hr & Hrej & Hful).
    cbn [credentials_of] in Hr. unfold constructed in Hr. rewrite Hr.
    eexists. split; [reflexivity|]. split.
    + intros detail w'. rewrite !run_try_catch, run_bind, Hrej. cbn.
      rewrite <- ?List.app_assoc. reflexivity.
    + intros h w'. destruct (Hful h w') as (w'' & Hr' & Hk & Ha).
      exists w''. rewrite !run_try_catch, run_bind, Hr'. cbn.
      rewrite <- ?List.app_assoc. auto.
Qed.

(** *** The client set has no duplicates *)

Lemma NoDup_add (x : nat) (l : list nat) : NoDup l -> NoDup (JSSet.add x l).
Proof.
  intros Hl. unfold JSSet.add. destruct (decide (x ∈ l)) as [Hin|Hnin]; [exact Hl|].
  apply NoDup_app. split; [exact Hl|]. split; [|apply NoDup_singleton].
  intros y Hy Hy'. apply list_elem_of_singleton in Hy'. subst. contradiction.
Qed.

Lemma NoDup_delete (x : nat) (l : list nat) : NoDup l -> NoDup (JSSet.delete x l).
Proof. apply NoDup_filter. Qed.

Lemma step_NoDup (s s' : System) (e : event) (tr : list action) :
  pending_ok s -> NoDup (clients (world s)) -> step s e = (s', tr) ->
  NoDup (clients (world s')).
Proof.
  intros Hp Hn Hstep. destruct (step_spec _ _ _ _ Hp Hstep) as (_ & He).
  unfold step_effect in He.
  destruct e as [ws|ws data|ws|ws|ws|i rej|h m now|h];
    try (destruct (registered ws s); [|destruct He as (-> & _); exact Hn]).
  - destruct He as (-> & _). apply NoDup_add, Hn.
  - destruct He as (-> & _). exact Hn.
  - destruct He as (-> & _). apply NoDup_delete, Hn.
  - destruct He as (-> & _). apply NoDup_delete, Hn.
  - destruct He as (-> & _). exact Hn.
  - destruct He as ((-> & _) & _). exact Hn.
  - destruct He as ((-> & _) & _). exact Hn.
  - destruct He as ((-> & _) & _). exact Hn.
Qed.

Lemma exec_NoDup (evs : list event) (s : System) :
  pending_ok s -> NoDup (clients (world s)) ->
  NoDup (clients (world (fst (exec s evs)))).
Proof.
  revert s. induction evs as [|e evs IH]; intros s Hp Hn; [exact Hn|].
  cbn [exec]. destruct (step s e) as [s1 tr1] eqn:Hstep.
  destruct (exec s1 evs) as [s2 tr2] eqn:Hexec. simpl.
  destruct (step_spec _ _ _ _ Hp Hstep) as (Hp1 & _).
  specialize (IH s1 Hp1 (step_NoDup _ _ _ _ Hp Hn Hstep)).
  rewrite Hexec in IH. exact IH.
Qed.

(** *** Who is sent what *)

Lemma login_recipients_app (tr1 tr2 : list action) :
  login_recipients (tr1 ++ tr2) = login_recipients tr1 ++ login_recipients tr2.
Proof. apply flat_map_app. Qed.

Lemma login_recipients_status (status : string) (w : t) :
  login_recipients (sends (StatusEvent status) w) = [].
Proof.
  unfold sends. induction (reached w) as [|c l IH]; [reflexivity|exact IH].
Qed.

Lemma is_open_spec (st : option ReadyState) : is_open st = true <-> st = Some OPEN.
Proof. destruct st as [[]|]; simpl; split; congruence. Qed.

(** C7, counterexample.  Socket 1 is in the connected-client set, but it is
    no longer open; a broadcast delivers nothing to it. *)
Lemma broadcast_skips_closing_client :
  clients (world closing_client) = [1] /\
  sockets (world closing_client) !! 1 = Some CLOSING /\
  run (broadcast (StatusEvent "connected")) (world closing_client) =
    (world closing_client, [], Done (Ok tt)).
Proof. repeat split; vm_compute; reflexivity. Qed.

(** C7, amended.  After every sequence of events, broadcasting an event
    leaves the server as it was and sends that one event to the clients
    reached, each exactly once (the list has no duplicates), in the order of
    the client set; a client is reached exactly when it is in the client set
    and its socket is open, so a client removed from the set before the
    broadcast, or whose socket is closing, gets nothing.  The adapter's two
    callbacks are this broadcast, of a [message] and of a [status] event.
    The result of a [login] command is not broadcast: nothing is sent before
    the vendor answers, and when the handler resumes, on either answer and
    in whatever state, the login result goes to the requesting socket and to
    no other. *)
Theorem broadcast_reaches_open_clients (evs : list event) (msg : BridgeMessage) :
  let w := world (fst (exec boot evs)) in
  run (broadcast msg) w =
    (w, map (fun client => WsSend client msg) (reached w), Done (Ok tt)) /\
  NoDup (reached w) /\
  (forall client,
     client ∈ reached w <-> client ∈ clients w /\ sockets w !! client = Some OPEN) /\
  (forall a m,
     run (on_adapter a (emit (OnMessage m))) w =
       (w, OnMessage m :: sends (MessageEvent m) w, Done (Ok tt))) /\
  (forall a status,
     run (on_adapter a (emit (OnStatus status))) w =
       (w, OnStatus status :: sends (StatusEvent status) w, Done (Ok tt))) /\
  (forall ws cmd,
     has_type cmd "login" = true ->
     exists w1 tr c k,
       run (on_message ws (Parsed cmd)) w = (w1, tr, Suspended c k) /\
       login_recipients tr = [] /\
       forall o w', login_recipients (snd (fst (run (k o) w'))) = [ws]).
Proof.
  intros w. destruct boot_ok as (Hp0 & _).
  assert (Hn : NoDup (clients w)) by (apply exec_NoDup; [exact Hp0|constructor]).
  split; [apply run_broadcast|]. split; [apply NoDup_filter, Hn|].
  split; [|split; [|split]].
  - intros client. unfold reached. rewrite list_elem_of_filter, is_open_spec. tauto.
  - intros a m. cbn -[broadcast]. rewrite run_bind, run_broadcast. cbn.
    rewrite app_nil_r. reflexivity.
  - intros a status. cbn -[broadcast]. rewrite run_bind, run_broadcast. cbn.
    rewrite app_nil_r. reflexivity.
  - intros ws cmd Hl. pose proof (run_login_command ws cmd w Hl) as H.
    destruct (login_target w) as [[a w0] pre] eqn:Ht.
    destruct H as (k & Hr & Hrej & Hful).
    eexists _, _, _, k. split; [exact Hr|]. split.
    + unfold login_target in Ht. destruct (zalo w); injection Ht as <- <- <-; reflexivity.
    + intros [h|detail] w'.
      * destruct (Hful h w') as (w'' & -> & _). cbn [fst snd login_recipients flat_map].
        fold (login_recipients (sends (StatusEvent "connected") w' ++
                [ListenerOn h; ListenerStart h; WsSend ws (LoginEvent true None)])).
        rewrite login_recipients_app, login_recipients_status. reflexivity.
      * rewrite Hrej. cbn [fst snd login_recipients flat_map].
        fold (login_recipients (sends (StatusEvent "disconnected") w' ++
                [WsSend ws (LoginEvent false (Some (VendorError detail)))])).
        rewrite login_recipients_app, login_recipients_status. reflexivity.
Qed.

(** *** After a failed login *)

(** A [send] command routed to an adapter that holds no API object. *)
Lemma run_send_not_logged_in (ws a : nat) (cmd : jsval) (w : t) :
  zalo w = Some a -> ZaloClient.api (deref w a) = None ->
  has_type cmd "send" = true ->
  run (on_message ws (Parsed cmd)) w =
    (w, [Invoke a MsendMessage; WsSend ws (ErrorEvent NotLoggedIn)], Done (Ok tt)).
Proof.
  intros Hz Ha Hs. pose proof (has_type_get _ _ Hs) as Hg.
  destruct cmd as [| |b|n|str|fields]; try discriminate.
  unfold on_message, handleCommand. cbn [JSON_parse lift bind].
  rewrite Hg. cbn. rewrite Hz. cbn. rewrite Ha. reflexivity.
Qed.

(** C10.  From the no-session state, let a client [ws] send a [login]
    command and the vendor reject the login.  When the handler resumes it
    broadcasts the status [disconnected] and sends the failure result to
    [ws]; the server still holds the adapter constructed for the login, with
    its [Zalo] instance and no API object.  A [send] command from any
    connected client [ws'] is then routed to that adapter: [sendMessage] is
    invoked, no vendor call is made, and [ws'] is sent an error event
    carrying the NotLoggedIn error; the state is unchanged. *)
Theorem failed_login_keeps_adapter (s : System) (ws ws' : nat) (cmd cmd' : jsval)
    (detail : string) :
  zalo (world s) = None ->
  registered ws s = true -> registered ws' s = true ->
  has_type cmd "login" = true -> has_type cmd' "send" = true ->
  let a := next_ref (world s) in
  let s1 := fst (step s (Message ws (Parsed cmd))) in
  let settle := Settle (List.length (pending s)) (Some detail) in
  let s2 := fst (step s1 settle) in
  snd (step s1 settle) =
    OnStatus "disconnected" :: sends (StatusEvent "disconnected") (world s1) ++
    [WsSend ws (LoginEvent false (Some (VendorError detail)))] /\
  zalo (world s2) = Some a /\
  heap (world s2) !! a =
    Some {| ZaloClient.zalo := Some zalo_options; ZaloClient.api := None |} /\
  step s2 (Message ws' (Parsed cmd')) =
    (s2, [Invoke a MsendMessage; WsSend ws' (ErrorEvent NotLoggedIn)]).
Proof.
  intros Hz Hreg Hreg' Hl Hs a s1 settle s2.
  pose proof (run_login_command ws cmd (world s) Hl) as H.
  unfold login_target in H. rewrite Hz in H. destruct H as (k & Hr & Hrej & _).
  assert (Hs1 : s1 = {| world := login_begun a (constructed (world s));
                        pending := pending s ++ [(VLogin (credentials_of cmd), k)];
                        apis := apis s |}).
  { unfold s1. cbn [step]. rewrite Hreg. unfold spawn. rewrite Hr. reflexivity. }
  assert (Hstep : step s1 settle =
                    ({| world := world s1; pending := pending s; apis := apis s |},
                     OnStatus "disconnected" ::
                     sends (StatusEvent "disconnected") (world s1) ++
                     [WsSend ws (LoginEvent false (Some (VendorError detail)))])).
  { rewrite Hs1. unfold settle. cbn [step pending world apis].
    rewrite list_lookup_middle by reflexivity.
    rewrite delete_middle, app_nil_r.
    unfold spawn. cbn [world]. rewrite Hrej. reflexivity. }
  assert (Hs2 : s2 = {| world := world s1; pending := pending s; apis := apis s |}).
  { unfold s2. rewrite Hstep. reflexivity. }
  rewrite Hstep. split; [reflexivity|].
  assert (Hadapter : heap (world s2) !! a =
            Some {| ZaloClient.zalo := Some zalo_options; ZaloClient.api := None |}).
  { rewrite Hs2, Hs1. unfold login_begun, constructed, deref. simpl.
    rewrite !lookup_insert_eq. reflexivity. }
  split; [rewrite Hs2, Hs1; reflexivity|]. split; [exact Hadapter|].
  cbn [step].
  assert (Hreg2 : registered ws' s2 = true).
  { rewrite Hs2, Hs1. exact Hreg'. }
  rewrite Hreg2. apply spawn_done, run_send_not_logged_in; [| |exact Hs].
  - rewrite Hs2, Hs1. reflexivity.
  - unfold deref. rewrite Hadapter. reflexivity.
Qed.

Lemma failed_login_keeps_adapter_witness :
  let s1 := fst (step one_client (Message 1 (Parsed login_command))) in
  let settle := Settle 0 (Some "invalid cookie") in
  let s2 := fst (step s1 settle) in
  snd (step s1 settle) =
    OnStatus "disconnected" :: sends (StatusEvent "disconnected") (world s1) ++
    [WsSend 1 (LoginEvent false (Some (VendorError "invalid cookie")))] /\
  zalo (world s2) = Some 0 /\
  heap (world s2) !! 0 =
    Some {| ZaloClient.zalo := Some zalo_options; ZaloClient.api := None |} /\
  step s2 (Message 1 (Parsed send_command)) =
    (s2, [Invoke 0 MsendMessage; WsSend 1 (ErrorEvent NotLoggedIn)]).
Proof.
  apply (failed_login_keeps_adapter one_client 1 1 login_command send_command
           "invalid cookie"); reflexivity.
Defined.

(** *** Scenarios *)

(** The scenario of the specification: both clients receive the message,
    and the session is torn down when the second one leaves. *)
Example two_clients_scenario :
  snd (exec boot two_clients) =
    [Construct 0; Invoke 0 Mlogin;
     Call (VLogin {| cookie := JStr "zpsid=8f3a"; imei := JStr "4a1f-7c20";
                     userAgent := JStr "Mozilla/5.0" |});
     OnStatus "connected"; WsSend 1 (StatusEvent "connected");
     ListenerOn 0; ListenerStart 0; WsSend 1 (LoginEvent true None);
     OnMessage (AdapterSpec.forwarded 1700000000123 (JNum (Fin 0)) "2757412803318084159"
                  "8412076905511446202" "5612020938012" "1700000000000" (Text "hello"));
     WsSend 1 (MessageEvent
                 (AdapterSpec.forwarded 1700000000123 (JNum (Fin 0)) "2757412803318084159"
                    "8412076905511446202" "5612020938012" "1700000000000" (Text "hello")));
     WsSend 2 (MessageEvent
                 (AdapterSpec.forwarded 1700000000123 (JNum (Fin 0)) "2757412803318084159"
                    "8412076905511446202" "5612020938012" "1700000000000" (Text "hello")));
     Invoke 0 Mdisconnect; ListenerStop 0; OnStatus "disconnected"] /\
  zalo (world (fst (exec boot two_clients))) = None.
Proof. split; vm_compute; reflexivity. Qed.

(** A login that resolves after the last client has left: the server has
    released the adapter and is in the no-session state, but the released
    adapter then takes the API object and starts its listener, whose
    messages are broadcast to whoever is connected.  The lifecycle theorem
    speaks of the adapter the server holds, not of this one. *)
Example login_resolving_after_teardown :
  let s := fst (exec boot login_after_leaving) in
  zalo (world s) = None /\ clients (world s) = [] /\
  heap (world s) !! 0 = Some {| ZaloClient.zalo := None; ZaloClient.api := Some 0 |} /\
  listeners (world s) !! 0 = Some {| owner := 0; started := true |}.
Proof. repeat split; vm_compute; reflexivity. Qed.

(** On the event loop, no exception leaves the listener of the vendor's
    ["message"] event. *)
Lemma listener_message_never_escapes (s : System) (h : nat) (message : jsval) (now : Z)
    (e : exn) :
  ~ In (Uncaught e) (snd (step s (ListenerMessage h message now))).
Proof.
  cbn [step]. destruct (handler h s) as [a|]; [|simpl; tauto].
  unfold spawn, ZaloClient.on_message.
  destruct (ZaloClient.translate now message) as [[msg|]|e']; cbn -[broadcast];
    try tauto.
  rewrite run_bind, run_broadcast. cbn. rewrite app_nil_r.
  intros [[=]|Hin]. apply in_map_iff in Hin as (c & [=] & _).
Qed.

End ServerFacts.

(* ===================================================================== *)
(** * Further properties of the adapter's methods *)
(* ===================================================================== *)

Module AdapterMethodFacts.
Import Async ZaloClient AdapterSpec AdapterFacts.

(** X1.  [sendTypingEvent] never throws and never touches the adapter's
    fields, whatever the thread id is and however the vendor call settles:
    without an API object it makes no vendor call at all (where
    [sendMessage] throws), and with one it makes exactly the call
    [api.sendTypingEvent(threadId)] and swallows its rejection. *)
Theorem sendTypingEvent_swallows_failures (oracle : vendor_call -> outcome) (this : t)
    (threadId : jsval) :
  complete oracle (sendTypingEvent threadId) this =
    (this,
     match api this with
     | None => []
     | Some h => [Call (VSendTypingEvent h threadId)]
     end,
     Ok tt).
Proof.
  unfold sendTypingEvent. destruct this as [z [h|]]; simpl; [|reflexivity].
  destruct (oracle (VSendTypingEvent h threadId)); reflexivity.
Qed.

(** X2.  [login], run on its own against any behaviour of the vendor
    library, makes a [Zalo] instance with the fixed options and exactly one
    vendor login call with the credentials given.  When the call fulfils
    with the API object [h], the adapter holds [h], [onStatus("connected")]
    is called once, and the listener of [h] is registered and then started;
    the call returns.  When the call is rejected, [onStatus("disconnected")]
    is called once, the vendor's error is thrown on, no listener is touched,
    and the API object held before the call, if any, is still held: a
    failed login over an earlier session does not end that session. *)
Theorem login_outcomes (oracle : vendor_call -> outcome) (this : t)
    (credentials : Credentials) :
  complete oracle (login credentials) this =
    match oracle (VLogin credentials) with
    | Fulfilled h =>
        ({| zalo := Some zalo_options; api := Some h |},
         [Call (VLogin credentials); OnStatus "connected"; ListenerOn h; ListenerStart h],
         Ok tt)
    | Rejected detail =>
        ({| zalo := Some zalo_options; api := api this |},
         [Call (VLogin credentials); OnStatus "disconnected"],
         Raise (VendorError detail))
    end.
Proof.
  unfold login. simpl. destruct (oracle (VLogin credentials)); reflexivity.
Qed.

(** X3.  Content classification on the events of the vendor library, case
    by case.  A string is forwarded as text.  [null] and [undefined] are not
    forwarded: reading their [href] throws, and the handler catches it.  A
    record whose [href] is [null] is dropped.  Every other content is
    forwarded as an attachment with the [href] it has, which is [undefined]
    for a record without [href] and for a number or a boolean.  In each
    case the handler finishes normally, the adapter is unchanged, and the
    other five fields of a forwarded message are read from the event. *)
Theorem vendor_event_classification (now : Z) (type : jsval) (thread uid mid ts : string)
    (c : jsval) (this : t) :
  run (on_message now (vendor_event type thread uid mid ts c)) this =
    (this,
     match c with
     | JStr s => [OnMessage (forwarded now type thread uid mid ts (Text s))]
     | JUndefined | JNull => []
     | JObj fields =>
         match own fields "href" with
         | Some JNull => []
         | Some href => [OnMessage (forwarded now type thread uid mid ts (Attachment href))]
         | None => [OnMessage (forwarded now type thread uid mid ts (Attachment JUndefined))]
         end
     | _ => [OnMessage (forwarded now type thread uid mid ts (Attachment JUndefined))]
     end,
     Done (Ok tt)).
Proof.
  rewrite on_message_run, translate_vendor_event.
  destruct c as [| |b|n|s|fields]; try reflexivity.
  destruct (own fields "href") as [[| | | | |]|]; reflexivity.
Qed.

(** *** The text-only adapter *)

Lemma text_on_message_run (now : Z) (message : jsval) (this : t) :
  run (TextZaloClient.on_message now message) this =
    (this,
     match TextZaloClient.translate now message with
     | Ok (Some msg) => [OnMessage msg]
     | _ => []
     end,
     Done (Ok tt)).
Proof.
  unfold TextZaloClient.on_message.
  destruct (TextZaloClient.translate now message) as [[msg|]|e]; reflexivity.
Qed.

Lemma text_translate_Some (now : Z) (message : jsval) (msg : InboundMessage) :
  TextZaloClient.translate now message = Ok (Some msg) ->
  exists s, data_content message = Ok (JStr s) /\ content msg = Text s /\
            data_field message "content" = Ok (JStr s).
Proof.
  unfold TextZaloClient.translate. intros H.
  rsplit H c Ec. destruct c as [| |b|n|s|fields]; try discriminate.
  rsplit H sender Esender. rsplit H thread Ethread. rsplit H again Eagain.
  rsplit H mid Emid. rsplit H ts Ets. rsplit H n En. rsplit H type Etype.
  injection H as <-. exists s. split; [exact Ec|]. split; [reflexivity|].
  unfold data_content, data_field in *.
  destruct (get message "data") as [[| |b|n'|s'|fields]|e]; simpl in *;
    try discriminate; congruence.
Qed.

(** X4.  The ["message"] listener of the text-only adapter finishes
    normally on every raw vendor event and leaves the adapter as it was; it
    calls [onMessage] at most once, and only for an event whose
    [data.content] is a string, which is then the content forwarded.  Any
    other content (a record with or without a link, a number, [null]) is
    never forwarded by this adapter. *)
Theorem text_adapter_forwards_strings_only (now : Z) (message : jsval) (this : t) :
  exists tr,
    run (TextZaloClient.on_message now message) this = (this, tr, Done (Ok tt)) /\
    (tr = [] \/
     exists msg s, tr = [OnMessage msg] /\ data_content message = Ok (JStr s) /\
                   content msg = Text s) /\
    (forall c, data_content message = Ok c -> (forall s, c <> JStr s) -> tr = []).
Proof.
  rewrite text_on_message_run.
  destruct (TextZaloClient.translate now message) as [[msg|]|e] eqn:Ht;
    eexists; (split; [reflexivity|]); (split; [|]); auto.
  - right. destruct (text_translate_Some _ _ _ Ht) as (s & Hc & Hs & _). eauto.
  - intros c Hc Hne. destruct (text_translate_Some _ _ _ Ht) as (s & Hc' & _).
    rewrite Hc in Hc'. injection Hc' as ->. exfalso. exact (Hne s eq_refl).
Qed.

(** X5.  The two adapters agree on text: whenever the ["message"]
    listener of [zalo.ts] forwards an event as a text message, the listener
    of the text-only adapter forwards the same event as the same message,
    field by field. *)
Theorem adapters_agree_on_text (now : Z) (message : jsval) (msg : InboundMessage)
    (s : string) (this : t) (st : status t unit) :
  run (on_message now message) this = (this, [OnMessage msg], st) ->
  content msg = Text s ->
  run (TextZaloClient.on_message now message) this = (this, [OnMessage msg], Done (Ok tt)).
Proof.
  rewrite on_message_run, text_on_message_run. intros H Hs.
  destruct (translate now message) as [[m|]|e] eqn:Ht; try discriminate.
  assert (m = msg) as -> by congruence. clear H.
  unfold translate in Ht.
  rsplit Ht shown Eshown. rsplit Ht sender Esender. rsplit Ht thread Ethread.
  rsplit Ht mid Emid. rsplit Ht ts Ets. rsplit Ht n En. rsplit Ht type Etype.
  rsplit Ht c Ec. rsplit Ht cont Econt.
  destruct cont as [cont|]; [|discriminate].
  rsplit Ht u1 Eu1. rsplit Ht short Eshort. rsplit Ht u2 Eu2.
  injection Ht as <-. simpl in Hs. subst cont.
  assert (Hc : c = JStr s).
  { destruct c; simpl in Econt; try (injection Econt as <-; reflexivity);
      rsplit Econt c' Ec'; rsplit Econt href Ehref;
      destruct (not_null href); discriminate. }
  subst c.
  assert (Hagain : data_field message "content" = Ok (JStr s)).
  { unfold data_content, data_field in *.
    destruct (get message "data") as [[| |b|n'|s'|fields]|e]; simpl in *;
      try discriminate; congruence. }
  unfold TextZaloClient.translate.
  rewrite Ec. cbn [rbind]. rewrite Esender. cbn [rbind]. rewrite Ethread. cbn [rbind].
  rewrite Hagain. cbn [rbind]. rewrite Emid. cbn [rbind]. rewrite Ets. cbn [rbind].
  rewrite En. cbn [rbind]. rewrite Etype. reflexivity.
Qed.

Lemma adapters_agree_on_text_witness :
  run (TextZaloClient.on_message 5
         (vendor_event (JNum (Fin 1)) "2757412803318084159" "8412076905511446202"
            "5612020938012" "1700000000000" (JStr "hello"))) new =
    (new,
     [OnMessage (forwarded 5 (JNum (Fin 1)) "2757412803318084159" "8412076905511446202"
                   "5612020938012" "1700000000000" (Text "hello"))],
     Done (Ok tt)).
Proof.
  apply (adapters_agree_on_text 5 _ _ "hello" new (Done (Ok tt))); reflexivity.
Defined.

(** X6.  The two [sendMessage] differ only off strings.  For a string
    thread id they do the same, whatever the adapter holds and however the
    vendor answers.  For a thread id that is [undefined], [null], a
    boolean, a number or a record (the values without a [slice] method),
    with an API object held, the text-only adapter passes the value on to
    the vendor as it is, while the adapter of [zalo.ts] throws a TypeError
    from its log line before the vendor is called. *)
Theorem sendMessage_differs_only_off_strings (oracle : vendor_call -> outcome) (this : t)
    (text type : jsval) :
  (forall s,
     complete oracle (TextZaloClient.sendMessage (JStr s) text type) this =
     complete oracle (sendMessage (JStr s) text type) this) /\
  (forall threadId h,
     api this = Some h -> (forall s, threadId <> JStr s) ->
     complete oracle (TextZaloClient.sendMessage threadId text type) this =
       (this, [Call (VSendMessage h text threadId type)],
        match oracle (VSendMessage h text threadId type) with
        | Fulfilled _ => Ok tt
        | Rejected detail => Raise (VendorError detail)
        end) /\
     complete oracle (sendMessage threadId text type) this =
       (this, [], Raise (TypeError "slice"))).
Proof.
  split.
  - intros s. unfold TextZaloClient.sendMessage, sendMessage.
    destruct this as [z [h|]]; simpl; [|reflexivity].
    destruct (oracle (VSendMessage h text (JStr s) type)); reflexivity.
  - intros threadId h Ha Hne. unfold TextZaloClient.sendMessage, sendMessage.
    destruct this as [z a]. simpl in Ha. subst a. simpl. split.
    + destruct (oracle (VSendMessage h text threadId type)); reflexivity.
    + destruct threadId as [| |b|n|s|fields]; try reflexivity.
      exfalso. exact (Hne s eq_refl).
Qed.

End AdapterMethodFacts.

(* ===================================================================== *)
(** * Further properties of the server *)
(* ===================================================================== *)

Module SessionFacts.
Import Async BridgeServer EventLoop ServerSpec ServerFacts SessionSpec.

(** *** No exception leaves a handler *)

Lemma tame_weaken {S A} throws (p : prog S A) : tame false p -> tame throws p.
Proof.
  induction p as [a|e|k IH|s k IH|x k IH|c k IH]; simpl; auto.
  - discriminate.
  - intros [Hx Hk]. auto.
Qed.

Lemma tame_bind {S A B} throws (p : prog S A) (f : A -> prog S B) :
  tame throws p -> (forall a, tame throws (f a)) -> tame throws (bind p f).
Proof.
  intros Hp Hf. induction p as [a|e|k IH|s k IH|x k IH|c k IH]; simpl in *; auto.
  destruct Hp as [Hx Hk]. auto.
Qed.

(** What the body throws, the handler takes. *)
Lemma tame_try_catch {S A} throws (p : prog S A) (h : exn -> prog S A) :
  tame true p -> (forall e, tame throws (h e)) -> tame throws (try_catch p h).
Proof.
  intros Hp Hh. induction p as [a|e|k IH|s k IH|x k IH|c k IH]; simpl in *; auto.
  destruct Hp as [Hx Hk]. auto.
Qed.

(** Soundness of the reading. *)
Lemma tame_run {S A} throws (p : prog S A) (s s' : S) tr st :
  tame throws p -> run p s = (s', tr, st) ->
  Forall silent tr /\
  match st with
  | Done (Ok _) => True
  | Done (Raise _) => throws = true
  | Suspended c k => forall o, tame throws (k o)
  end.
Proof.
  revert s s' tr st. induction p as [a|e|k IH|s0 k IH|x k IH|c k IH]; intros s s' tr st; simpl.
  - intros _ [= <- <- <-]. auto.
  - intros -> [= <- <- <-]. auto.
  - intros Hp. apply IH, Hp.
  - apply IH.
  - intros [Hx Hk]. destruct (run k s) as [[s1 tr1] st1] eqn:Hr. intros [= <- <- <-].
    destruct (IH _ _ _ _ Hk Hr) as [Htr Hst]. auto.
  - intros Hk [= <- <- <-]. split; [repeat constructor|exact Hk].
Qed.

Lemma tame_lift_bind {S A B} (r : result A) (f : A -> prog S B) :
  (forall a, tame true (f a)) -> tame true (bind (lift r) f).
Proof. intros Hf. destruct r as [a|e]; simpl; auto. Qed.

Lemma tame_for_of (l : list nat) (body : nat -> prog t unit) :
  (forall x, tame false (body x)) -> tame false (for_of l body).
Proof.
  intros Hb. induction l as [|x l IH]; simpl; [exact I|].
  apply tame_bind; auto.
Qed.

Lemma tame_broadcast (msg : BridgeMessage) : tame false (broadcast msg).
Proof.
  unfold broadcast. cbn [bind read tame]. intros this.
  apply tame_for_of. intros client. cbn [bind read tame]. intros w.
  destruct (is_open (sockets w !! client)); simpl; auto.
Qed.

Lemma tame_effect (a : nat) (x : action) : tame false (effect a x).
Proof.
  destruct x; simpl; try apply tame_broadcast; cbn; auto.
Qed.

Lemma tame_on_adapter {A} throws (a : nat) (p : prog ZaloClient.t A) :
  tame throws p -> tame throws (on_adapter a p).
Proof.
  induction p as [x|e|k IH|c k IH|x k IH|c k IH]; simpl; auto.
  intros [Hx Hp]. split; [exact Hx|].
  apply tame_bind; [apply tame_weaken, tame_effect|auto].
Qed.

(** The adapter's methods and listeners. *)
Ltac tame_tac :=
  repeat (cbn; intros;
          match goal with
          | |- True => exact I
          | |- _ = _ => reflexivity
          | |- _ /\ _ => split
          | |- context [match ?x with _ => _ end] => destruct x
          | |- context [lift ?r] => destruct r
          end).

Lemma tame_login credentials : tame true (ZaloClient.login credentials).
Proof. tame_tac. Qed.

Lemma tame_sendMessage threadId text type :
  tame true (ZaloClient.sendMessage threadId text type).
Proof. tame_tac. Qed.

Lemma tame_sendTypingEvent threadId : tame false (ZaloClient.sendTypingEvent threadId).
Proof. tame_tac. Qed.

Lemma tame_disconnect : tame false ZaloClient.disconnect.
Proof. tame_tac. Qed.

Lemma tame_listener_message now message : tame false (ZaloClient.on_message now message).
Proof.
  unfold ZaloClient.on_message.
  destruct (ZaloClient.translate now message) as [[msg|]|e]; cbn; auto.
Qed.

(** The handlers of the server. *)
Lemma tame_handleLogin (cmd : jsval) (ws : nat) : tame false (handleLogin cmd ws).
Proof.
  unfold handleLogin. apply tame_try_catch; [|intros e; simpl; auto].
  cbn [bind read tame]. intros this.
  apply tame_bind.
  - destruct (zalo this); simpl; auto.
  - intros _. do 3 (apply tame_lift_bind; intros ?).
    cbn [bind read tame]. intros w.
    apply tame_bind; [|intros _; simpl; auto].
    destruct (zalo w); [|reflexivity].
    unfold invoke. split; [exact I|]. apply tame_on_adapter, tame_login.
Qed.

Lemma tame_handleCommand (cmd : jsval) (ws : nat) : tame true (handleCommand cmd ws).
Proof.
  unfold handleCommand. apply tame_lift_bind. intros ty.
  destruct (strict_eq ty (JStr "login")); [apply tame_weaken, tame_handleLogin|].
  cbn [bind read tame]. intros this.
  destruct (strict_eq ty (JStr "send")), (zalo this) as [a|];
    try (do 2 (apply tame_lift_bind; intros ?);
         split; [exact I|apply tame_on_adapter, tame_sendMessage]);
    destruct (strict_eq ty (JStr "typing"));
    try exact I;
    (apply tame_lift_bind; intros ?);
    (split; [exact I|apply tame_on_adapter, tame_weaken, tame_sendTypingEvent]).
Qed.

Lemma tame_on_message (ws : nat) (data : frame) : tame false (on_message ws data).
Proof.
  unfold on_message. apply tame_try_catch; [|intros e; simpl; auto].
  apply tame_lift_bind. intros cmd. apply tame_handleCommand.
Qed.

Lemma tame_invoke_disconnect (a : nat) :
  tame false (invoke a Mdisconnect ZaloClient.disconnect).
Proof. split; [exact I|apply tame_on_adapter, tame_disconnect]. Qed.

Lemma tame_on_close (ws : nat) : tame false (on_close ws).
Proof.
  unfold on_close. cbn [bind modify read tame]. intros w w'.
  destruct (clients w') as [|c l], (zalo w') as [a|]; try exact I.
  apply tame_bind; [apply tame_invoke_disconnect|]. intros _ ?. exact I.
Qed.

Lemma tame_on_error (ws : nat) : tame false (on_error ws).
Proof.
  unfold on_error. cbn [bind modify read tame]. intros w w'.
  destruct (clients w') as [|c l], (zalo w') as [a|]; try exact I.
  apply tame_bind; [|intros _ ?; exact I].
  apply tame_try_catch; [apply tame_weaken, tame_invoke_disconnect|intros e; exact I].
Qed.

Lemma spawn_tame (p : prog t unit) (s s' : System) tr :
  tame false p -> pending_tame s -> spawn p s = (s', tr) ->
  Forall silent tr /\ pending_tame s'.
Proof.
  intros Ht Hp. unfold spawn.
  destruct (run p (world s)) as [[w tr0] st] eqn:Hr.
  destruct (tame_run _ _ _ _ _ _ Ht Hr) as (Htr & Hst).
  destruct st as [[[]|e]|c k]; [|discriminate|]; intros [= <- <-]; split; auto.
  unfold pending_tame; simpl. apply Forall_app. split; [exact Hp|].
  repeat constructor. exact Hst.
Qed.

Lemma step_tame (s s' : System) (e : event) (tr : list action) :
  pending_tame s -> step s e = (s', tr) -> Forall silent tr /\ pending_tame s'.
Proof.
  intros Hp. destruct e as [ws|ws data|ws|ws|ws|i rej|h m now|h]; cbn [step].
  - apply spawn_tame; [|exact Hp]. unfold on_connection. cbn. auto.
  - destruct (registered ws s); [|intros [= <- <-]; auto].
    apply spawn_tame; [apply tame_on_message|exact Hp].
  - destruct (registered ws s); [|intros [= <- <-]; auto].
    apply spawn_tame; [apply tame_on_close|exact Hp].
  - destruct (registered ws s); [|intros [= <- <-]; auto].
    apply spawn_tame; [apply tame_on_error|exact Hp].
  - destruct (registered ws s); intros [= <- <-]; auto.
  - destruct (pending s !! i) as [[c k]|] eqn:Hi; [|intros [= <- <-]; auto].
    assert (Hk : forall o, tame false (k o)).
    { unfold pending_tame in Hp. rewrite Forall_forall in Hp.
      apply (Hp (c, k)). eapply list_elem_of_lookup_2, Hi. }
    assert (Hd : forall w n,
               pending_tame {| world := w; pending := delete i (pending s); apis := n |}).
    { intros w n. unfold pending_tame; simpl. apply Forall_delete, Hp. }
    destruct rej as [detail|]; [|destruct c]; apply spawn_tame; auto.
  - destruct (handler h s) as [a|]; [|intros [= <- <-]; auto].
    apply spawn_tame; [apply tame_on_adapter, tame_listener_message|exact Hp].
  - destruct (handler h s) as [a|]; [|intros [= <- <-]; auto].
    apply spawn_tame; [|exact Hp]. apply tame_on_adapter. cbn. auto.
Qed.

Lemma exec_tame (evs : list event) (s : System) :
  pending_tame s -> Forall silent (snd (exec s evs)) /\ pending_tame (fst (exec s evs)).
Proof.
  revert s. induction evs as [|e evs IH]; intros s Hp; [simpl; auto|].
  cbn [exec]. destruct (step s e) as [s1 tr1] eqn:Hstep.
  destruct (exec s1 evs) as [s2 tr2] eqn:Hexec. simpl.
  destruct (step_tame _ _ _ _ Hp Hstep) as (Htr1 & Hp1).
  specialize (IH s1 Hp1). rewrite Hexec in IH. destruct IH as (Htr2 & Hp2).
  split; [apply Forall_app; auto|exact Hp2].
Qed.

(** X7.  Whatever events arrive, in whatever order (connects, frames of
    any content, disconnects, socket errors, vendor promises fulfilled or
    rejected at any later time, vendor messages and listener errors), no
    exception ever leaves a handler of the server: every throw on the way
    (a frame that is not JSON, a [send] before the login has succeeded, a
    rejected vendor call, a malformed vendor event) is caught by the
    handler that caused it, also when the handler resumes after an
    [await]. *)
Theorem no_exception_escapes (evs : list event) (e : exn) :
  ~ In (Uncaught e) (snd (exec boot evs)).
Proof.
  destruct (exec_tame evs boot) as (Htr & _); [constructor|].
  intros Hin. rewrite Forall_forall in Htr.
  apply list_elem_of_In, Htr in Hin. exact Hin.
Qed.

(** *** The client set *)

(** The sockets after one event. *)
Lemma step_sockets (s s' : System) (e : event) (tr : list action) :
  pending_ok s -> step s e = (s', tr) ->
  sockets (world s') =
    match e with
    | Connection ws => <[ws := OPEN]> (sockets (world s))
    | Close ws =>
        if registered ws s then <[ws := CLOSED]> (sockets (world s)) else sockets (world s)
    | Closing ws =>
        if registered ws s then <[ws := CLOSING]> (sockets (world s)) else sockets (world s)
    | _ => sockets (world s)
    end.
Proof.
  intros Hp Hstep. destruct (step_spec _ _ _ _ Hp Hstep) as (_ & He).
  unfold step_effect in He.
  destruct e as [ws|ws data|ws|ws|ws|i rej|h m now|h].
  - apply He.
  - destruct (registered ws s); [apply He|]. destruct He as (-> & _). reflexivity.
  - cbn [step] in Hstep. destruct (registered ws s); [|injection Hstep as <- _; reflexivity].
    destruct (run_on_close ws (world (with_socket ws CLOSED s)))
      as (w' & tr' & Hr & _ & Hso & _).
    rewrite (spawn_run _ _ _ _ Hr) in Hstep. injection Hstep as <- _. exact Hso.
  - cbn [step] in Hstep. destruct (registered ws s); [|injection Hstep as <- _; reflexivity].
    destruct (run_on_error ws (world s)) as (w' & tr' & Hr & _ & Hso & _).
    rewrite (spawn_run _ _ _ _ Hr) in Hstep. injection Hstep as <- _. exact Hso.
  - cbn [step] in Hstep. destruct (registered ws s); injection Hstep as <- _; reflexivity.
  - apply He.
  - apply He.
  - apply He.
Qed.

Lemma elem_of_add (x y : nat) (l : list nat) : x ∈ JSSet.add y l <-> x = y \/ x ∈ l.
Proof.
  unfold JSSet.add. destruct (decide (y ∈ l)) as [Hin|Hnin].
  - split; [auto|]. intros [->|H]; assumption.
  - rewrite elem_of_app, list_elem_of_singleton. tauto.
Qed.

Lemma elem_of_delete (x y : nat) (l : list nat) : x ∈ JSSet.delete y l <-> x ∈ l /\ x <> y.
Proof. unfold JSSet.delete. rewrite list_elem_of_filter. tauto. Qed.

Lemma step_members_live (s s' : System) (e : event) (tr : list action) :
  pending_ok s ->
  (forall ws, ws ∈ clients (world s) -> live (sockets (world s) !! ws)) ->
  step s e = (s', tr) ->
  forall ws, ws ∈ clients (world s') -> live (sockets (world s') !! ws).
Proof.
  intros Hp Hinv Hstep ws. rewrite (step_sockets _ _ _ _ Hp Hstep).
  destruct (step_spec _ _ _ _ Hp Hstep) as (_ & He). unfold step_effect in He.
  destruct e as [x|x data|x|x|x|i rej|h m now|h].
  - destruct He as (-> & _). rewrite elem_of_add.
    destruct (decide (x = ws)) as [->|Hne].
    + rewrite lookup_insert_eq. left. reflexivity.
    + rewrite lookup_insert_ne by exact Hne. intros [->|Hin]; [contradiction|auto].
  - destruct (registered x s); [destruct He as (-> & _)|destruct He as (-> & _)]; auto.
  - destruct (registered x s); [|destruct He as (-> & _); auto].
    destruct He as (-> & _). rewrite elem_of_delete. intros [Hin Hne].
    rewrite lookup_insert_ne by congruence. auto.
  - destruct (registered x s); [|destruct He as (-> & _); auto].
    destruct He as (-> & _). rewrite elem_of_delete. intros [Hin Hne]. auto.
  - destruct He as (-> & _). intros Hin. destruct (registered x s); [|auto].
    destruct (decide (x = ws)) as [->|Hne].
    + rewrite lookup_insert_eq. right. reflexivity.
    + rewrite lookup_insert_ne by exact Hne. auto.
  - destruct He as ((-> & _) & _). auto.
  - destruct He as ((-> & _) & _). auto.
  - destruct He as ((-> & _) & _). auto.
Qed.

Lemma exec_members_live (evs : list event) (s : System) :
  pending_ok s ->
  (forall ws, ws ∈ clients (world s) -> live (sockets (world s) !! ws)) ->
  forall ws, ws ∈ clients (world (fst (exec s evs))) ->
    live (sockets (world (fst (exec s evs))) !! ws).
Proof.
  revert s. induction evs as [|e evs IH]; intros s Hp Hinv; [exact Hinv|].
  cbn [exec]. destruct (step s e) as [s1 tr1] eqn:Hstep.
  destruct (exec s1 evs) as [s2 tr2] eqn:Hexec. simpl.
  destruct (step_spec _ _ _ _ Hp Hstep) as (Hp1 & _).
  specialize (IH s1 Hp1 (step_members_live _ _ _ _ Hp Hinv Hstep)).
  rewrite Hexec in IH. exact IH.
Qed.

(** X8.  After every sequence of events the client set holds each socket
    at most once, and every socket in it has connected and has not closed:
    its [readyState] is OPEN or CLOSING.  So a socket whose ["close"] event
    has been handled is in the set no longer, and no broadcast reaches it,
    until it connects again. *)
Theorem client_set_holds_live_sockets (evs : list event) :
  let w := world (fst (exec boot evs)) in
  NoDup (clients w) /\
  (forall ws, ws ∈ clients w ->
     sockets w !! ws = Some OPEN \/ sockets w !! ws = Some CLOSING) /\
  (forall ws, sockets w !! ws = Some CLOSED -> (ws ∉ clients w) /\ (ws ∉ reached w)).
Proof.
  intros w. destruct boot_ok as (Hp0 & _).
  assert (Hlive : forall ws, ws ∈ clients w -> live (sockets w !! ws)).
  { apply exec_members_live; [exact Hp0|]. intros ws Hin. inversion Hin. }
  split; [apply exec_NoDup; [exact Hp0|constructor]|]. split; [exact Hlive|].
  intros ws Hc.
  assert (Hn : ws ∉ clients w).
  { intros Hin. destruct (Hlive ws Hin) as [H|H]; congruence. }
  split; [exact Hn|]. unfold reached. rewrite list_elem_of_filter. tauto.
Qed.

(** *** [disconnect] and [login], exactly *)

Lemma run_invoke_disconnect_exact (a : nat) (w : t) :
  run (invoke a Mdisconnect ZaloClient.disconnect) w =
    (released a w,
     Invoke a Mdisconnect :: stops a w ++
       OnStatus "disconnected" :: sends (StatusEvent "disconnected") w,
     Done (Ok tt)).
Proof.
  unfold invoke, ZaloClient.disconnect, released, stops.
  cbn -[broadcast]. destruct (ZaloClient.api (deref w a)) as [h|];
    cbn -[broadcast]; rewrite run_bind, run_broadcast; cbn -[reached];
    rewrite app_nil_r, insert_insert_eq; unfold deref; cbn -[reached];
    rewrite ?lookup_insert_eq; reflexivity.
Qed.

Lemma released_keeps (a : nat) (w : t) :
  clients (released a w) = clients w /\ sockets (released a w) = sockets w /\
  zalo (released a w) = zalo w /\ heap (released a w) !! a = Some ZaloClient.new.
Proof.
  unfold released. destruct (ZaloClient.api (deref w a)); simpl;
    rewrite lookup_insert_eq; auto.
Qed.

Lemma sends_no_clients (msg : BridgeMessage) (w : t) : clients w = [] -> sends msg w = [].
Proof. unfold sends, reached. intros ->. reflexivity. Qed.

(** The ["close"] and ["error"] handlers when the last client leaves. *)
Lemma run_teardown (ws a : nat) (w : t) :
  zalo w = Some a -> JSSet.delete ws (clients w) = [] ->
  run (on_close ws) w =
    (set_zalo None (released a (set_clients [] w)),
     Invoke a Mdisconnect :: stops a w ++ [OnStatus "disconnected"], Done (Ok tt)) /\
  run (on_error ws) w =
    (set_zalo None (released a (set_clients [] w)),
     Invoke a Mdisconnect :: stops a w ++ [OnStatus "disconnected"], Done (Ok tt)).
Proof.
  intros Hz Hd. unfold on_close, on_error. cbn [bind modify read run].
  rewrite Hd. cbn [clients zalo set_clients]. rewrite Hz.
  rewrite !run_bind, run_try_catch, run_invoke_disconnect_exact.
  rewrite sends_no_clients by reflexivity.
  cbn. rewrite !app_nil_r. auto.
Qed.

Lemma run_invoke_login_done (a : nat) (credentials : Credentials) (w : t) :
  exists k,
    run (invoke a Mlogin (ZaloClient.login credentials)) w =
      (login_begun a w, [Invoke a Mlogin; Call (VLogin credentials)],
       Suspended (VLogin credentials) k) /\
    (forall detail w',
       run (k (Rejected detail)) w' =
         (w', OnStatus "disconnected" :: sends (StatusEvent "disconnected") w',
          Done (Raise (VendorError detail)))) /\
    (forall h w',
       run (k (Fulfilled h)) w' =
         (login_done a h w',
          OnStatus "connected" :: sends (StatusEvent "connected") w' ++
            [ListenerOn h; ListenerStart h],
          Done (Ok tt))).
Proof.
  unfold invoke, ZaloClient.login. cbn -[broadcast].
  eexists. split; [reflexivity|]. split.
  - intros detail w'. cbn -[broadcast].
    rewrite run_bind, run_broadcast. cbn. rewrite app_nil_r. reflexivity.
  - intros h w'. cbn -[broadcast].
    rewrite run_bind, run_broadcast.
    do 3 (cbn -[reached]; unfold deref; cbn -[reached]; rewrite ?lookup_insert_eq).
    unfold login_done, set_listeners, set_heap, deref. cbn -[reached].
    rewrite alter_insert_eq. reflexivity.
Qed.

Lemma run_login_command_done (ws : nat) (cmd : jsval) (w : t) :
  has_type cmd "login" = true ->
  exists k,
    run (on_message ws (Parsed cmd)) w =
      (login_begun (login_target w).1.1 (login_target w).1.2,
       (login_target w).2 ++
         [Invoke (login_target w).1.1 Mlogin; Call (VLogin (credentials_of cmd))],
       Suspended (VLogin (credentials_of cmd)) k) /\
    (forall detail w',
       run (k (Rejected detail)) w' =
         (w', OnStatus "disconnected" :: sends (StatusEvent "disconnected") w' ++
              [WsSend ws (LoginEvent false (Some (VendorError detail)))],
          Done (Ok tt))) /\
    (forall h w',
       run (k (Fulfilled h)) w' =
         (login_done (login_target w).1.1 h w',
          OnStatus "connected" :: sends (StatusEvent "connected") w' ++
            [ListenerOn h; ListenerStart h; WsSend ws (LoginEvent true None)],
          Done (Ok tt))).
Proof.
  intros Hl. pose proof (has_type_get _ _ Hl) as Hg.
  destruct cmd as [| |b|n|str|fields]; try discriminate.
  unfold login_target, on_message, handleCommand. cbn [JSON_parse lift bind].
  rewrite Hg. cbn [lift bind strict_eq String.eqb Ascii.eqb Bool.eqb].
  unfold handleLogin. rewrite !run_try_catch. cbn [bind read run]. rewrite run_bind.
  destruct (zalo w) as [a|] eqn:Hz.
  - cbn -[invoke ZaloClient.login]. rewrite Hz. rewrite run_bind.
    destruct (run_invoke_login_done a (credentials_of (JObj fields)) w)
      as (k & Hr & Hrej & Hful).
    cbn [credentials_of] in Hr. rewrite Hr.
    eexists. split; [reflexivity|]. split.
    + intros detail w'. rewrite !run_try_catch, run_bind, Hrej. cbn.
      rewrite <- ?List.app_assoc. reflexivity.
    + intros h w'. rewrite !run_try_catch, run_bind, Hful. cbn.
      rewrite <- ?List.app_assoc. reflexivity.
  - cbn -[invoke ZaloClient.login]. rewrite run_bind.
    destruct (run_invoke_login_done (next_ref w) (credentials_of (JObj fields)) (constructed w))
      as (k & Hr & Hrej & Hful).
    cbn [credentials_of] in Hr. unfold constructed in Hr. rewrite Hr.
    eexists. split; [reflexivity|]. split.
    + intros detail w'. rewrite !run_try_catch, run_bind, Hrej. cbn.
      rewrite <- ?List.app_assoc. reflexivity.
    + intros h w'. rewrite !run_try_catch, run_bind, Hful. cbn.
      rewrite <- ?List.app_assoc. reflexivity.
Qed.

(** The promise that suspended last settles. *)
Lemma step_settle_last (w : t) pend (n : nat) (c : vendor_call)
    (k : outcome -> prog t unit) (rej : option string) :
  step {| world := w; pending := pend ++ [(c, k)]; apis := n |}
       (Settle (List.length pend) rej) =
    match rej, c with
    | Some detail, _ =>
        spawn (k (Rejected detail)) {| world := w; pending := pend; apis := n |}
    | None, VLogin _ =>
        spawn (k (Fulfilled n)) {| world := w; pending := pend; apis := S n |}
    | None, _ =>
        spawn (k (Fulfilled 0)) {| world := w; pending := pend; apis := n |}
    end.
Proof.
  cbn [step pending world apis].
  rewrite list_lookup_middle by reflexivity.
  rewrite delete_middle, app_nil_r. reflexivity.
Qed.

Lemma step_login_command (s : System) (ws : nat) (cmd : jsval) :
  registered ws s = true -> has_type cmd "login" = true ->
  exists k,
    step s (Message ws (Parsed cmd)) =
      ({| world := login_begun (login_target (world s)).1.1 (login_target (world s)).1.2;
          pending := pending s ++ [(VLogin (credentials_of cmd), k)];
          apis := apis s |},
       (login_target (world s)).2 ++
         [Invoke (login_target (world s)).1.1 Mlogin; Call (VLogin (credentials_of cmd))]) /\
    (forall detail w',
       run (k (Rejected detail)) w' =
         (w', OnStatus "disconnected" :: sends (StatusEvent "disconnected") w' ++
              [WsSend ws (LoginEvent false (Some (VendorError detail)))],
          Done (Ok tt))) /\
    (forall h w',
       run (k (Fulfilled h)) w' =
         (login_done (login_target (world s)).1.1 h w',
          OnStatus "connected" :: sends (StatusEvent "connected") w' ++
            [ListenerOn h; ListenerStart h; WsSend ws (LoginEvent true None)],
          Done (Ok tt))).
Proof.
  intros Hreg Hl.
  destruct (run_login_command_done ws cmd (world s) Hl) as (k & Hr & Hrej & Hful).
  exists k. split; [|split; assumption].
  cbn [step]. rewrite Hreg. unfold spawn. rewrite Hr. reflexivity.
Qed.

Lemma listening_login_done (a h : nat) (w : t) pend (n : nat) :
  listening h {| world := login_done a h w; pending := pend; apis := n |} = Some a.
Proof.
  unfold listening, login_done. cbn [world listeners set_listeners].
  rewrite lookup_insert_eq. reflexivity.
Qed.

Lemma listening_login_done_ne (a h h0 : nat) (w : t) pend pend' (n n' : nat) :
  h0 <> h ->
  listening h0 {| world := login_done a h w; pending := pend; apis := n |} =
  listening h0 {| world := w; pending := pend'; apis := n' |}.
Proof.
  intros Hne. unfold listening, login_done. cbn [world listeners set_listeners].
  rewrite lookup_insert_ne by congruence. reflexivity.
Qed.

(** *** Commands to a session *)

(** A value that has a [type] is not [null] or [undefined]: reading any
    property of it returns. *)
Lemma get_object (cmd : jsval) (name : string) :
  has_type cmd name = true -> forall key, exists v, get cmd key = Ok v.
Proof.
  intros H key. apply has_type_get in H.
  destruct cmd as [| |b|n|str|fields]; try discriminate; simpl; eauto.
Qed.

Lemma run_send_command (ws a h : nat) (cmd : jsval) (thread : string) (w : t) :
  zalo w = Some a -> ZaloClient.api (deref w a) = Some h ->
  has_type cmd "send" = true -> get cmd "to" = Ok (JStr thread) ->
  exists text k,
    get cmd "text" = Ok text /\
    run (on_message ws (Parsed cmd)) w =
      (w, [Invoke a MsendMessage; Call (VSendMessage h text (JStr thread) JUndefined)],
       Suspended (VSendMessage h text (JStr thread) JUndefined) k) /\
    (forall v w', run (k (Fulfilled v)) w' = (w', [], Done (Ok tt))) /\
    (forall detail w',
       run (k (Rejected detail)) w' =
         (w', [WsSend ws (ErrorEvent (VendorError detail))], Done (Ok tt))).
Proof.
  intros Hz Ha Hs Hto.
  destruct (get_object _ _ Hs "text") as (text & Htext).
  pose proof (has_type_get _ _ Hs) as Hg.
  exists text.
  unfold on_message, handleCommand. cbn [JSON_parse lift bind].
  rewrite Hg. cbn [lift bind strict_eq String.eqb Ascii.eqb Bool.eqb].
  cbn [read bind try_catch run]. rewrite Hz, Hto, Htext.
  cbn. rewrite Ha. cbn.
  eexists. split; [reflexivity|]. split; [reflexivity|].
  split; intros; reflexivity.
Qed.

(** X9.  With a session that holds an API object [h], a [send] command
    whose [to] is a string makes the handler call [sendMessage] on the
    adapter, which issues exactly the vendor call
    [api.sendMessage(text, to, undefined)] on [h] (the text is whatever the
    command's [text] is, [undefined] when it is missing), and suspend; the
    server's state is unchanged and nothing has been sent to any client.
    When the vendor call fulfils, in whatever state the server then is, the
    handler ends without sending anything: a successful send is not
    acknowledged.  When it is rejected, exactly one error event, carrying
    the vendor's error, goes to the socket that sent the command, and the
    state is not touched. *)
Theorem send_is_delegated_without_acknowledgement (s : System) (ws a h : nat)
    (cmd : jsval) (thread : string) :
  registered ws s = true ->
  zalo (world s) = Some a -> ZaloClient.api (deref (world s) a) = Some h ->
  has_type cmd "send" = true -> get cmd "to" = Ok (JStr thread) ->
  exists text k,
    get cmd "text" = Ok text /\
    step s (Message ws (Parsed cmd)) =
      ({| world := world s;
          pending := pending s ++ [(VSendMessage h text (JStr thread) JUndefined, k)];
          apis := apis s |},
       [Invoke a MsendMessage; Call (VSendMessage h text (JStr thread) JUndefined)]) /\
    (forall v w, run (k (Fulfilled v)) w = (w, [], Done (Ok tt))) /\
    (forall detail w,
       run (k (Rejected detail)) w =
         (w, [WsSend ws (ErrorEvent (VendorError detail))], Done (Ok tt))).
Proof.
  intros Hreg Hz Ha Hs Hto.
  destruct (run_send_command ws a h cmd thread (world s) Hz Ha Hs Hto)
    as (text & k & Htext & Hr & Hful & Hrej).
  exists text, k. split; [exact Htext|]. split; [|split; assumption].
  cbn [step]. rewrite Hreg. unfold spawn. rewrite Hr. reflexivity.
Qed.

Lemma send_is_delegated_without_acknowledgement_witness :
  exists text k,
    get send_command "text" = Ok text /\
    step logged_in (Message 1 (Parsed send_command)) =
      ({| world := world logged_in;
          pending := pending logged_in ++
            [(VSendMessage 0 text (JStr "2757412803318084159") JUndefined, k)];
          apis := apis logged_in |},
       [Invoke 0 MsendMessage;
        Call (VSendMessage 0 text (JStr "2757412803318084159") JUndefined)]) /\
    (forall v w, run (k (Fulfilled v)) w = (w, [], Done (Ok tt))) /\
    (forall detail w,
       run (k (Rejected detail)) w =
         (w, [WsSend 1 (ErrorEvent (VendorError detail))], Done (Ok tt))).
Proof.
  apply (send_is_delegated_without_acknowledgement logged_in 1 0 0 send_command
           "2757412803318084159"); vm_compute; reflexivity.
Defined.

(** X10.  With a session that holds an API object, a [send] command whose
    [to] is missing, [null], a boolean, a number or a record (a value
    without a [slice] method; arrays are not values of the model) never
    reaches the vendor: the adapter's [sendMessage] throws while it formats
    its log line ([threadId.slice(0, 8)]), the handler of the frame catches
    the TypeError, and exactly one error event goes to the sender; the state
    is unchanged. *)
Theorem send_to_a_non_string_is_refused (s : System) (ws a h : nat) (cmd to : jsval) :
  registered ws s = true ->
  zalo (world s) = Some a -> ZaloClient.api (deref (world s) a) = Some h ->
  has_type cmd "send" = true ->
  get cmd "to" = Ok to -> (forall thread, to <> JStr thread) ->
  step s (Message ws (Parsed cmd)) =
    (s, [Invoke a MsendMessage; WsSend ws (ErrorEvent (TypeError "slice"))]).
Proof.
  intros Hreg Hz Ha Hs Hto Hne.
  destruct (get_object _ _ Hs "text") as (text & Htext).
  pose proof (has_type_get _ _ Hs) as Hg.
  cbn [step]. rewrite Hreg. apply spawn_done.
  unfold on_message, handleCommand. cbn [JSON_parse lift bind].
  rewrite Hg. cbn [lift bind strict_eq String.eqb Ascii.eqb Bool.eqb].
  cbn [read bind try_catch run]. rewrite Hz, Hto, Htext.
  cbn. rewrite Ha.
  destruct to as [| |b|n|str|fields]; try reflexivity.
  exfalso. exact (Hne str eq_refl).
Qed.

Lemma send_to_a_non_string_is_refused_witness :
  step logged_in (Message 1 (Parsed send_nowhere)) =
    (logged_in, [Invoke 0 MsendMessage; WsSend 1 (ErrorEvent (TypeError "slice"))]).
Proof.
  apply (send_to_a_non_string_is_refused logged_in 1 0 0 send_nowhere JUndefined);
    try (vm_compute; reflexivity).
  intros thread. discriminate.
Defined.

(** X11.  A [typing] command is never answered: from a connected socket,
    whatever the session is, nothing is sent to any client, neither when
    the command is handled nor when the vendor call settles, fulfilled or
    rejected, and the state is unchanged.  Without an adapter nothing
    happens at all; with an adapter that holds no API object
    [sendTypingEvent] is called and returns without a vendor call; with an
    API object exactly the vendor call [api.sendTypingEvent(to)] is
    issued. *)
Theorem typing_is_never_answered (s : System) (ws : nat) (cmd : jsval) :
  registered ws s = true -> has_type cmd "typing" = true ->
  exists to,
    get cmd "to" = Ok to /\
    match zalo (world s) with
    | None => step s (Message ws (Parsed cmd)) = (s, [])
    | Some a =>
        match ZaloClient.api (deref (world s) a) with
        | None => step s (Message ws (Parsed cmd)) = (s, [Invoke a MsendTypingEvent])
        | Some h =>
            exists k,
              step s (Message ws (Parsed cmd)) =
                ({| world := world s;
                    pending := pending s ++ [(VSendTypingEvent h to, k)];
                    apis := apis s |},
                 [Invoke a MsendTypingEvent; Call (VSendTypingEvent h to)]) /\
              forall o w, run (k o) w = (w, [], Done (Ok tt))
        end
    end.
Proof.
  intros Hreg Ht.
  destruct (get_object _ _ Ht "to") as (to & Hto).
  pose proof (has_type_get _ _ Ht) as Hg.
  exists to. split; [exact Hto|]. cbn [step]. rewrite Hreg.
  unfold spawn, on_message, handleCommand. cbn [JSON_parse lift bind].
  rewrite Hg. cbn [lift bind strict_eq String.eqb Ascii.eqb Bool.eqb].
  cbn [read bind try_catch run].
  destruct (zalo (world s)) as [a|] eqn:Hz; [|destruct s; reflexivity].
  rewrite Hto. cbn.
  destruct (ZaloClient.api (deref (world s) a)) as [h|] eqn:Ha; cbn.
  - eexists. split; [reflexivity|]. intros [v|detail] w; reflexivity.
  - destruct s; reflexivity.
Qed.

Lemma typing_is_never_answered_witness :
  exists to,
    get typing_command "to" = Ok to /\
    match zalo (world logged_in) with
    | None => step logged_in (Message 1 (Parsed typing_command)) = (logged_in, [])
    | Some a =>
        match ZaloClient.api (deref (world logged_in) a) with
        | None =>
            step logged_in (Message 1 (Parsed typing_command)) =
              (logged_in, [Invoke a MsendTypingEvent])
        | Some h =>
            exists k,
              step logged_in (Message 1 (Parsed typing_command)) =
                ({| world := world logged_in;
                    pending := pending logged_in ++ [(VSendTypingEvent h to, k)];
                    apis := apis logged_in |},
                 [Invoke a MsendTypingEvent; Call (VSendTypingEvent h to)]) /\
              forall o w, run (k o) w = (w, [], Done (Ok tt))
        end
    end.
Proof.
  apply (typing_is_never_answered logged_in 1 typing_command); vm_compute; reflexivity.
Defined.

(** *** Logging in *)

(** X12.  From the no-session state, a [login] command from a connected
    socket constructs one adapter and issues one vendor login with the
    credentials read from the command.  When the vendor fulfils it (before
    anything else happens), the status [connected] is broadcast, the
    listener of the new API object is registered and started, and the
    success result goes to the requester, in this order; afterwards the
    server holds the adapter, the adapter holds the API object, the
    listener of that object is running and delivers to this adapter, and
    the client set is what it was. *)
Theorem first_login_starts_the_listener (s : System) (ws : nat) (cmd : jsval) :
  registered ws s = true -> zalo (world s) = None -> has_type cmd "login" = true ->
  let a := next_ref (world s) in
  let h := apis s in
  let s1 := fst (step s (Message ws (Parsed cmd))) in
  let settle := Settle (List.length (pending s)) None in
  let s2 := fst (step s1 settle) in
  snd (step s (Message ws (Parsed cmd))) =
    [Construct a; Invoke a Mlogin; Call (VLogin (credentials_of cmd))] /\
  snd (step s1 settle) =
    OnStatus "connected" :: sends (StatusEvent "connected") (world s) ++
    [ListenerOn h; ListenerStart h; WsSend ws (LoginEvent true None)] /\
  zalo (world s2) = Some a /\
  heap (world s2) !! a =
    Some {| ZaloClient.zalo := Some zalo_options; ZaloClient.api := Some h |} /\
  listening h s2 = Some a /\
  clients (world s2) = clients (world s) /\ pending s2 = pending s.
Proof.
  intros Hreg Hz Hl a h s1 settle s2.
  destruct (step_login_command s ws cmd Hreg Hl) as (k & Hstep & _ & Hful).
  unfold login_target in Hstep, Hful. rewrite Hz in Hstep, Hful.
  cbn [fst snd] in Hstep, Hful.
  unfold s2, s1, settle. rewrite Hstep. cbn [fst snd].
  rewrite step_settle_last. unfold spawn. cbn [world]. rewrite Hful. cbn [fst snd].
  split; [reflexivity|]. split; [reflexivity|]. split; [reflexivity|].
  split; [|split; [apply listening_login_done|split; reflexivity]].
  unfold login_done, login_begun, constructed, deref. simpl.
  rewrite !lookup_insert_eq. reflexivity.
Qed.

Lemma first_login_starts_the_listener_witness :
  let a := next_ref (world one_client) in
  let h := apis one_client in
  let s1 := fst (step one_client (Message 1 (Parsed login_command))) in
  let settle := Settle (List.length (pending one_client)) None in
  let s2 := fst (step s1 settle) in
  snd (step one_client (Message 1 (Parsed login_command))) =
    [Construct a; Invoke a Mlogin; Call (VLogin (credentials_of login_command))] /\
  snd (step s1 settle) =
    OnStatus "connected" :: sends (StatusEvent "connected") (world one_client) ++
    [ListenerOn h; ListenerStart h; WsSend 1 (LoginEvent true None)] /\
  zalo (world s2) = Some a /\
  heap (world s2) !! a =
    Some {| ZaloClient.zalo := Some zalo_options; ZaloClient.api := Some h |} /\
  listening h s2 = Some a /\
  clients (world s2) = clients (world one_client) /\ pending s2 = pending one_client.
Proof.
  apply (first_login_starts_the_listener one_client 1 login_command); reflexivity.
Defined.

(** X13.  A [login] command while the adapter already holds an API object
    [h0] whose listener is running: no adapter is constructed, the same
    one logs in again.  When the vendor fulfils the login with a new API
    object, the adapter holds the new object and the new listener is
    started; the listener of [h0] is never stopped (no [listener.stop()]
    is called), so it is still running and still delivers to this adapter:
    events of the old API object keep being broadcast. *)
Theorem relogin_leaves_the_old_listener_running (s : System) (ws a h0 : nat)
    (cmd : jsval) :
  registered ws s = true -> has_type cmd "login" = true ->
  zalo (world s) = Some a -> ZaloClient.api (deref (world s) a) = Some h0 ->
  listening h0 s = Some a -> h0 <> apis s ->
  let h := apis s in
  let s1 := fst (step s (Message ws (Parsed cmd))) in
  let settle := Settle (List.length (pending s)) None in
  let s2 := fst (step s1 settle) in
  snd (step s (Message ws (Parsed cmd))) =
    [Invoke a Mlogin; Call (VLogin (credentials_of cmd))] /\
  snd (step s1 settle) =
    OnStatus "connected" :: sends (StatusEvent "connected") (world s) ++
    [ListenerOn h; ListenerStart h; WsSend ws (LoginEvent true None)] /\
  zalo (world s2) = Some a /\
  ZaloClient.api (deref (world s2) a) = Some h /\
  listening h s2 = Some a /\
  listening h0 s2 = Some a.
Proof.
  intros Hreg Hl Hz Ha Hlis Hne h s1 settle s2.
  destruct (step_login_command s ws cmd Hreg Hl) as (k & Hstep & _ & Hful).
  unfold login_target in Hstep, Hful. rewrite Hz in Hstep, Hful.
  cbn [fst snd] in Hstep, Hful.
  unfold s2, s1, settle. rewrite Hstep. cbn [fst snd].
  rewrite step_settle_last. unfold spawn. cbn [world]. rewrite Hful. cbn [fst snd].
  split; [reflexivity|]. split; [reflexivity|]. split; [exact Hz|].
  split; [unfold login_done, deref; simpl; rewrite lookup_insert_eq; reflexivity|].
  split; [apply listening_login_done|].
  rewrite (listening_login_done_ne a h h0 _ _ (pending s) _ (apis s)) by exact Hne.
  rewrite <- Hlis. unfold listening. reflexivity.
Qed.

Lemma relogin_leaves_the_old_listener_running_witness :
  let h := apis logged_in in
  let s1 := fst (step logged_in (Message 1 (Parsed login_command))) in
  let settle := Settle (List.length (pending logged_in)) None in
  let s2 := fst (step s1 settle) in
  snd (step logged_in (Message 1 (Parsed login_command))) =
    [Invoke 0 Mlogin; Call (VLogin (credentials_of login_command))] /\
  snd (step s1 settle) =
    OnStatus "connected" :: sends (StatusEvent "connected") (world logged_in) ++
    [ListenerOn h; ListenerStart h; WsSend 1 (LoginEvent true None)] /\
  zalo (world s2) = Some 0 /\
  ZaloClient.api (deref (world s2) 0) = Some h /\
  listening h s2 = Some 0 /\
  listening 0 s2 = Some 0.
Proof.
  apply (relogin_leaves_the_old_listener_running logged_in 1 0 0 login_command);
    try (vm_compute; reflexivity).
  vm_compute. discriminate.
Defined.

(** X14.  A [login] command over a working session that the vendor
    rejects: every open client is told [disconnected] and the requester
    gets the failure result, but the session is as it was: the server still
    holds the adapter, the adapter still holds the earlier API object, and
    no listener has changed.  A [send] command that follows is therefore
    still delivered to the vendor through the earlier API object. *)
Theorem failed_relogin_keeps_the_session (s : System) (ws ws' a h0 : nat)
    (cmd cmd' : jsval) (detail thread : string) :
  registered ws s = true -> registered ws' s = true ->
  zalo (world s) = Some a -> ZaloClient.api (deref (world s) a) = Some h0 ->
  has_type cmd "login" = true ->
  has_type cmd' "send" = true -> get cmd' "to" = Ok (JStr thread) ->
  let s1 := fst (step s (Message ws (Parsed cmd))) in
  let settle := Settle (List.length (pending s)) (Some detail) in
  let s2 := fst (step s1 settle) in
  snd (step s1 settle) =
    OnStatus "disconnected" :: sends (StatusEvent "disconnected") (world s) ++
    [WsSend ws (LoginEvent false (Some (VendorError detail)))] /\
  zalo (world s2) = Some a /\
  ZaloClient.api (deref (world s2) a) = Some h0 /\
  listeners (world s2) = listeners (world s) /\
  exists text,
    get cmd' "text" = Ok text /\
    snd (step s2 (Message ws' (Parsed cmd'))) =
      [Invoke a MsendMessage; Call (VSendMessage h0 text (JStr thread) JUndefined)].
Proof.
  intros Hreg Hreg' Hz Ha Hl Hs Hto s1 settle s2.
  destruct (step_login_command s ws cmd Hreg Hl) as (k & Hstep & Hrej & _).
  unfold login_target in Hstep. rewrite Hz in Hstep. cbn [fst snd] in Hstep.
  assert (Hs2 : step s1 settle =
            ({| world := login_begun a (world s); pending := pending s; apis := apis s |},
             OnStatus "disconnected" :: sends (StatusEvent "disconnected") (world s) ++
             [WsSend ws (LoginEvent false (Some (VendorError detail)))])).
  { unfold s1, settle. rewrite Hstep. cbn [fst snd].
    rewrite step_settle_last. unfold spawn. cbn [world]. rewrite Hrej. reflexivity. }
  unfold s2. rewrite Hs2. cbn [fst snd world].
  assert (Ha' : ZaloClient.api (deref (login_begun a (world s)) a) = Some h0).
  { unfold login_begun, deref. simpl. rewrite lookup_insert_eq. exact Ha. }
  split; [reflexivity|]. split; [exact Hz|]. split; [exact Ha'|]. split; [reflexivity|].
  destruct (run_send_command ws' a h0 cmd' thread (login_begun a (world s)) Hz Ha' Hs Hto)
    as (text & k' & Htext & Hr & _).
  exists text. split; [exact Htext|].
  cbn [step]. unfold registered in *. cbn [world login_begun set_heap sockets].
  rewrite Hreg'. unfold spawn. cbn [world]. rewrite Hr. reflexivity.
Qed.

Lemma failed_relogin_keeps_the_session_witness :
  let s1 := fst (step logged_in (Message 1 (Parsed login_command))) in
  let settle := Settle (List.length (pending logged_in)) (Some "invalid cookie") in
  let s2 := fst (step s1 settle) in
  snd (step s1 settle) =
    OnStatus "disconnected" :: sends (StatusEvent "disconnected") (world logged_in) ++
    [WsSend 1 (LoginEvent false (Some (VendorError "invalid cookie")))] /\
  zalo (world s2) = Some 0 /\
  ZaloClient.api (deref (world s2) 0) = Some 0 /\
  listeners (world s2) = listeners (world logged_in) /\
  exists text,
    get send_command "text" = Ok text /\
    snd (step s2 (Message 1 (Parsed send_command))) =
      [Invoke 0 MsendMessage;
       Call (VSendMessage 0 text (JStr "2757412803318084159") JUndefined)].
Proof.
  apply (failed_relogin_keeps_the_session logged_in 1 1 0 0 login_command send_command
           "invalid cookie" "2757412803318084159"); vm_compute; reflexivity.
Defined.

(** X15.  While a first login is in flight (the vendor has not answered
    yet), the adapter exists but holds no API object: a [send] command from
    any connected socket is refused at once with the NotLoggedIn error, sent
    to that socket only; it is not queued for the session to come, no vendor
    call is made, and the pending login is not disturbed. *)
Theorem send_during_a_pending_login_is_refused (s : System) (ws ws' : nat)
    (cmd cmd' : jsval) :
  zalo (world s) = None ->
  registered ws s = true -> registered ws' s = true ->
  has_type cmd "login" = true -> has_type cmd' "send" = true ->
  let s1 := fst (step s (Message ws (Parsed cmd))) in
  List.length (pending s1) = S (List.length (pending s)) /\
  step s1 (Message ws' (Parsed cmd')) =
    (s1, [Invoke (next_ref (world s)) MsendMessage; WsSend ws' (ErrorEvent NotLoggedIn)]).
Proof.
  intros Hz Hreg Hreg' Hl Hs s1.
  destruct (step_login_command s ws cmd Hreg Hl) as (k & Hstep & _ & _).
  unfold login_target in Hstep. rewrite Hz in Hstep. cbn [fst snd] in Hstep.
  unfold s1. rewrite Hstep. cbn [fst pending].
  split; [rewrite length_app; simpl; lia|].
  cbn [step]. unfold registered in *. cbn [world login_begun set_heap sockets constructed
    set_zalo set_next_ref].
  rewrite Hreg'. apply spawn_done. cbn [world].
  apply run_send_not_logged_in; [reflexivity| |exact Hs].
  unfold login_begun, constructed, deref. simpl. rewrite !lookup_insert_eq. reflexivity.
Qed.

Lemma send_during_a_pending_login_is_refused_witness :
  let s1 := fst (step one_client (Message 1 (Parsed login_command))) in
  List.length (pending s1) = S (List.length (pending one_client)) /\
  step s1 (Message 1 (Parsed send_command)) =
    (s1, [Invoke (next_ref (world one_client)) MsendMessage;
          WsSend 1 (ErrorEvent NotLoggedIn)]).
Proof.
  apply (send_during_a_pending_login_is_refused one_client 1 1 login_command send_command);
    reflexivity.
Defined.

(** *** Events of the vendor's listener *)

Lemma run_listener_message (a : nat) (now : Z) (message : jsval) (w : t) :
  run (on_adapter a (ZaloClient.on_message now message)) w =
    (w, match ZaloClient.translate now message with
        | Ok (Some msg) => OnMessage msg :: sends (MessageEvent msg) w
        | _ => []
        end, Done (Ok tt)).
Proof.
  unfold ZaloClient.on_message.
  destruct (ZaloClient.translate now message) as [[msg|]|e]; cbn -[broadcast];
    try reflexivity.
  rewrite run_bind, run_broadcast. cbn. rewrite app_nil_r. reflexivity.
Qed.

Lemma run_listener_error (a : nat) (w : t) :
  run (on_adapter a ZaloClient.on_error) w =
    (w, OnStatus "error" :: sends (StatusEvent "error") w, Done (Ok tt)).
Proof.
  cbn -[broadcast]. rewrite run_bind, run_broadcast. cbn. rewrite app_nil_r. reflexivity.
Qed.

(** X16.  A ["message"] event of a vendor listener on which an adapter
    has registered its handler, whether or not [listener.stop()] has been
    called since (the code never removes a handler): the state of the
    server is left as it is; the adapter that registered the handler
    translates the event, and when the translation yields a message the
    [message] event goes to every client the broadcast reaches (the open
    members of the client set), once each and in the order of the set; when
    it yields none (the content is dropped, or reading the event threw)
    nothing is sent. *)
Theorem vendor_message_reaches_open_clients (s : System) (h a : nat) (message : jsval)
    (now : Z) :
  handler h s = Some a ->
  step s (ListenerMessage h message now) =
    (s, match ZaloClient.translate now message with
        | Ok (Some msg) => OnMessage msg :: sends (MessageEvent msg) (world s)
        | _ => []
        end).
Proof.
  intros Hh. cbn [step]. rewrite Hh. apply spawn_done. apply run_listener_message.
Qed.

Lemma vendor_message_reaches_open_clients_witness :
  step logged_in
    (ListenerMessage 0
       (AdapterSpec.vendor_event (JNum (Fin 0)) "2757412803318084159"
          "8412076905511446202" "5612020938012" "1700000000000" (JStr "hello"))
       1700000000123) =
    (logged_in,
     match ZaloClient.translate 1700000000123
             (AdapterSpec.vendor_event (JNum (Fin 0)) "2757412803318084159"
                "8412076905511446202" "5612020938012" "1700000000000" (JStr "hello")) with
     | Ok (Some msg) => OnMessage msg :: sends (MessageEvent msg) (world logged_in)
     | _ => []
     end).
Proof.
  apply (vendor_message_reaches_open_clients logged_in 0 0). vm_compute. reflexivity.
Defined.

(** X17.  An ["error"] event of a vendor listener on which an adapter has
    registered its handler, whether or not [listener.stop()] has been
    called since, is reported and nothing more: the status [error] is
    broadcast to the open clients, and the state is unchanged, so the
    server still holds what adapter it held, the adapter its API object,
    and the listener is as it was; no teardown and no new login follow
    from it. *)
Theorem listener_error_is_only_reported (s : System) (h a : nat) :
  handler h s = Some a ->
  step s (ListenerError h) =
    (s, OnStatus "error" :: sends (StatusEvent "error") (world s)).
Proof.
  intros Hh. cbn [step]. rewrite Hh. apply spawn_done. apply run_listener_error.
Qed.

Lemma listener_error_is_only_reported_witness :
  step logged_in (ListenerError 0) =
    (logged_in, OnStatus "error" :: sends (StatusEvent "error") (world logged_in)).
Proof.
  apply (listener_error_is_only_reported logged_in 0 0). vm_compute. reflexivity.
Defined.

(** *** The last client leaves *)

(** X18.  When a disconnect or a socket error of a connected socket
    leaves the client set empty while an adapter is held, the handler calls
    [disconnect()], which calls [stop()] on the listener of the API object
    held (if any) and reports [disconnected]; but that status reaches no
    client, because the set is already empty when it is broadcast: the
    whole step sends nothing.  Afterwards the server holds no adapter, the
    adapter's fields are cleared, and the listener is stopped; the handlers
    the adapter registered on it are still registered, for [disconnect()]
    removes none. *)
Theorem last_client_leaving_stops_listener (s : System) (ws a : nat) (e : event) :
  e = Close ws \/ e = SocketError ws ->
  registered ws s = true -> zalo (world s) = Some a ->
  JSSet.delete ws (clients (world s)) = [] ->
  let s' := fst (step s e) in
  snd (step s e) =
    Invoke a Mdisconnect ::
    match ZaloClient.api (deref (world s) a) with
    | Some h => [ListenerStop h]
    | None => []
    end ++ [OnStatus "disconnected"] /\
  zalo (world s') = None /\ clients (world s') = [] /\
  heap (world s') !! a = Some ZaloClient.new /\
  forall h, ZaloClient.api (deref (world s) a) = Some h ->
    listening h s' = None /\ handler h s' = handler h s.
Proof.
  intros He Hreg Hz Hd s'.
  assert (Hstep : step s e =
            ({| world := set_zalo None (released a (set_clients []
                           (match e with
                            | Close _ => world (with_socket ws CLOSED s)
                            | _ => world s
                            end)));
                pending := pending s; apis := apis s |},
             Invoke a Mdisconnect :: stops a (world s) ++ [OnStatus "disconnected"])).
  { destruct He as [-> | ->]; cbn [step]; rewrite Hreg.
    - destruct (run_teardown ws a (world (with_socket ws CLOSED s)) Hz Hd) as (Hr & _).
      rewrite (spawn_run _ _ _ _ Hr). reflexivity.
    - destruct (run_teardown ws a (world s) Hz Hd) as (_ & Hr).
      rewrite (spawn_run _ _ _ _ Hr). reflexivity. }
  unfold s'. rewrite Hstep. cbn [fst snd].
  split; [reflexivity|]. split; [reflexivity|].
  split; [cbn [world set_zalo clients]; apply released_keeps|].
  split; [cbn [world set_zalo heap]; apply released_keeps|].
  intros h Hh.
  assert (Hh' : forall w, heap w = heap (world s) -> ZaloClient.api (deref w a) = Some h).
  { intros w Hw. unfold deref. rewrite Hw. exact Hh. }
  unfold listening, handler, released.
  destruct He as [-> | ->]; cbn [world set_zalo listeners set_heap];
    rewrite Hh' by reflexivity; cbn [listeners set_listeners set_clients with_socket
                                      set_sockets world];
    rewrite lookup_alter_eq;
    match goal with |- context [?m !! h] => destruct (m !! h) end; auto.
Qed.

Lemma last_client_leaving_stops_listener_witness :
  let s' := fst (step logged_in (Close 1)) in
  snd (step logged_in (Close 1)) =
    Invoke 0 Mdisconnect ::
    match ZaloClient.api (deref (world logged_in) 0) with
    | Some h => [ListenerStop h]
    | None => []
    end ++ [OnStatus "disconnected"] /\
  zalo (world s') = None /\ clients (world s') = [] /\
  heap (world s') !! 0 = Some ZaloClient.new /\
  forall h, ZaloClient.api (deref (world logged_in) 0) = Some h ->
    listening h s' = None /\ handler h s' = handler h logged_in.
Proof.
  apply (last_client_leaving_stops_listener logged_in 1 0 (Close 1));
    try (vm_compute; reflexivity).
  left. reflexivity.
Defined.

(** After the last client has left and the listener has been stopped, the
    handlers are still there: if the vendor delivers one more event of that
    listener, the released adapter forwards it to whoever has connected
    since, though the server is in the no-session state. *)
Example event_after_stop_is_still_forwarded :
  let evs := [Connection 1; Message 1 (Parsed login_command); Settle 0 None; Close 1;
              Connection 2] in
  zalo (world (fst (exec boot evs))) = None /\
  listening 0 (fst (exec boot evs)) = None /\
  snd (step (fst (exec boot evs))
         (ListenerMessage 0
            (AdapterSpec.vendor_event (JNum (Fin 0)) "2757412803318084159"
               "8412076905511446202" "5612020938012" "1700000000000" (JStr "hello"))
            1700000000123)) =
    [OnMessage (AdapterSpec.forwarded 1700000000123 (JNum (Fin 0)) "2757412803318084159"
                  "8412076905511446202" "5612020938012" "1700000000000" (Text "hello"));
     WsSend 2 (MessageEvent
                 (AdapterSpec.forwarded 1700000000123 (JNum (Fin 0)) "2757412803318084159"
                    "8412076905511446202" "5612020938012" "1700000000000" (Text "hello")))].
Proof. repeat split; vm_compute; reflexivity. Qed.

(** *** Adapters and their listeners *)

Lemma wired_same (n : nat) (w w' : t) :
  heap w' = heap w -> listeners w' = listeners w -> wired_world n w -> wired_world n w'.
Proof.
  unfold wired_world, deref. intros -> ->. auto.
Qed.

Lemma wired_login_begun (n a : nat) (w : t) :
  wired_world n w -> wired_world n (login_begun a w).
Proof.
  unfold wired_world, login_begun, deref. cbn [heap listeners set_heap].
  intros (H1 & H2). split; [|exact H2].
  intros a' h. destruct (decide (a = a')) as [<-|Hne].
  - rewrite lookup_insert_eq. simpl. apply H1.
  - rewrite lookup_insert_ne by exact Hne. apply H1.
Qed.

Lemma wired_constructed (n : nat) (w : t) :
  wired_world n w -> wired_world n (constructed w).
Proof.
  unfold wired_world, constructed, deref. cbn [heap listeners set_heap set_zalo set_next_ref].
  intros (H1 & H2). split; [|exact H2].
  intros a' h. destruct (decide (next_ref w = a')) as [<-|Hne].
  - rewrite lookup_insert_eq. discriminate.
  - rewrite lookup_insert_ne by exact Hne. apply H1.
Qed.

Lemma wired_login_done (n a : nat) (w : t) :
  wired_world n w -> wired_world (S n) (login_done a n w).
Proof.
  unfold wired_world, login_done, deref. cbn [heap listeners set_heap set_listeners].
  intros (H1 & H2). split.
  - intros a' h. destruct (decide (a = a')) as [<-|Hne].
    + rewrite lookup_insert_eq. simpl. intros [= <-]. apply lookup_insert_eq.
    + rewrite lookup_insert_ne by exact Hne. intros Ha.
      pose proof (H1 _ _ Ha) as Hl.
      assert (h < n) by (apply H2; eauto).
      rewrite lookup_insert_ne by lia. exact Hl.
  - intros h. destruct (decide (n = h)) as [<-|Hne]; [lia|].
    rewrite lookup_insert_ne by exact Hne. intros Hh. apply H2 in Hh. lia.
Qed.

Lemma wired_released (n a : nat) (w : t) :
  wired_world n w -> wired_world n (released a w).
Proof.
  unfold wired_world, released. intros (H1 & H2).
  assert (Hheap : forall w0 a' h,
            ZaloClient.api (deref (set_heap (<[a := ZaloClient.new]> (heap w)) w0) a') = Some h ->
            a' <> a /\ ZaloClient.api (deref w a') = Some h).
  { intros w0 a' h. unfold deref. cbn [heap set_heap].
    destruct (decide (a = a')) as [<-|Hne].
    - rewrite lookup_insert_eq. discriminate.
    - rewrite lookup_insert_ne by exact Hne. auto. }
  destruct (ZaloClient.api (deref w a)) as [h0|] eqn:Ha.
  - split.
    + intros a' h Ha'. apply Hheap in Ha' as (Hne & Ha').
      cbn [listeners set_heap set_listeners].
      pose proof (H1 _ _ Ha') as Hl.
      destruct (decide (h0 = h)) as [<-|Hh].
      * pose proof (H1 _ _ Ha) as Hl0. rewrite Hl0 in Hl. congruence.
      * rewrite lookup_alter_ne by exact Hh. exact Hl.
    + intros h. cbn [listeners set_heap set_listeners].
      destruct (decide (h0 = h)) as [<-|Hh].
      * rewrite lookup_alter_eq. intros [l Hl]. apply H2.
        destruct (listeners w !! h0); [eauto|discriminate].
      * rewrite lookup_alter_ne by exact Hh. apply H2.
  - split.
    + intros a' h Ha'. apply Hheap in Ha' as (Hne & Ha').
      cbn [listeners set_heap]. auto.
    + exact H2.
Qed.

Lemma run_on_message_wired (ws : nat) (data : frame) (w : t) :
  exists w' tr st,
    run (on_message ws data) w = (w', tr, st) /\
    (forall n, wired_world n w -> wired_world n w') /\
    match st with
    | Done r => r = Ok tt
    | Suspended c k => resumes (c, k)
    end.
Proof.
  destruct data as [|cmd]; [eexists _, _, _; split; [reflexivity|]; auto|].
  destruct (has_type cmd "login") eqn:Hl.
  - destruct (run_login_command_done ws cmd w Hl) as (k & Hr & Hrej & Hful).
    eexists _, _, _. split; [exact Hr|]. split.
    + intros n Hw. unfold login_target. destruct (zalo w); cbn [fst snd];
        auto using wired_login_begun, wired_constructed.
    + split; cbn [fst snd]; [intros detail w'; rewrite Hrej; eauto|].
      eexists. intros h w'. rewrite Hful. eauto.
  - unfold has_type in Hl. unfold on_message, handleCommand. cbn [JSON_parse lift bind].
    destruct (get cmd "type") as [ty|e]; cbn [lift bind try_catch];
      [|eexists _, _, _; split; [reflexivity|]; auto].
    rewrite Hl. cbn [read bind try_catch run].
    destruct (strict_eq ty (JStr "send")), (zalo w) as [a|],
             (strict_eq ty (JStr "typing"));
      try (eexists _, _, _; split; [reflexivity|]; auto; fail);
      try (destruct (get cmd "to") as [to|e]; cbn [lift bind try_catch];
           [|eexists _, _, _; split; [simpl; reflexivity|]; auto]);
      try (destruct (get cmd "text") as [text|e]; cbn [lift bind try_catch];
           [|eexists _, _, _; split; [simpl; reflexivity|]; auto]);
      cbn; destruct (ZaloClient.api (deref w a)) as [h|];
      try (destruct to); cbn;
      eexists _, _, _; (split; [reflexivity|]); (split; [auto|]);
      try reflexivity;
      (split; cbn [fst snd]; intros; eexists; reflexivity).
Qed.

Lemma run_on_close_wired (ws : nat) (w : t) :
  exists w' tr,
    run (on_close ws) w = (w', tr, Done (Ok tt)) /\
    run (on_error ws) w = (w', tr, Done (Ok tt)) /\
    forall n, wired_world n w -> wired_world n w'.
Proof.
  destruct (JSSet.delete ws (clients w)) as [|c l] eqn:Hd.
  - destruct (zalo w) as [a|] eqn:Hz.
    + destruct (run_teardown ws a w Hz Hd) as (Hc & He).
      eexists _, _. split; [exact Hc|]. split; [exact He|].
      intros n Hw. eapply wired_same; [| |apply (wired_released n a (set_clients [] w))];
        try reflexivity.
      eapply wired_same; [| |exact Hw]; reflexivity.
    + unfold on_close, on_error. cbn [bind modify read run]. rewrite Hd.
      cbn [clients zalo set_clients]. rewrite Hz.
      eexists _, _. split; [reflexivity|]. split; [reflexivity|].
      intros n Hw. eapply wired_same; [| |exact Hw]; reflexivity.
  - unfold on_close, on_error. cbn [bind modify read run]. rewrite Hd.
    cbn [clients zalo set_clients].
    eexists _, _. split; [reflexivity|]. split; [reflexivity|].
    intros n Hw. eapply wired_same; [| |exact Hw]; reflexivity.
Qed.

Lemma step_wired (s s' : System) (e : event) (tr : list action) :
  wired s -> step s e = (s', tr) -> wired s'.
Proof.
  intros (Hw & Hp). destruct e as [ws|ws data|ws|ws|ws|i rej|h m now|h]; cbn [step].
  - unfold spawn. cbn. intros [= <- _]. split; [|exact Hp].
    eapply wired_same; [| |exact Hw]; reflexivity.
  - destruct (registered ws s); [|intros [= <- _]; split; assumption].
    destruct (run_on_message_wired ws data (world s)) as (w' & tr' & st & Hr & Hw' & Hst).
    unfold spawn. rewrite Hr. destruct st as [[[]|e]|c k]; try discriminate;
      intros [= <- _]; split; cbn [world apis pending]; auto.
    apply Forall_app. split; [exact Hp|]. constructor; [exact Hst|constructor].
  - destruct (registered ws s); [|intros [= <- _]; split; assumption].
    destruct (run_on_close_wired ws (world (with_socket ws CLOSED s)))
      as (w' & tr' & Hr & _ & Hw').
    rewrite (spawn_run _ _ _ _ Hr). intros [= <- _]. split; [|exact Hp].
    apply Hw'. eapply wired_same; [| |exact Hw]; reflexivity.
  - destruct (registered ws s); [|intros [= <- _]; split; assumption].
    destruct (run_on_close_wired ws (world s)) as (w' & tr' & _ & Hr & Hw').
    rewrite (spawn_run _ _ _ _ Hr). intros [= <- _]. split; [|exact Hp]. auto.
  - destruct (registered ws s); intros [= <- _]; split; assumption.
  - destruct (pending s !! i) as [[c k]|] eqn:Hi; [|intros [= <- _]; split; assumption].
    assert (Hk : resumes (c, k)).
    { rewrite Forall_forall in Hp. apply Hp. eapply list_elem_of_lookup_2, Hi. }
    assert (Hd : Forall resumes (delete i (pending s))) by (apply Forall_delete, Hp).
    destruct Hk as (Hrej & Hful). cbn [fst snd] in Hrej, Hful.
    unfold spawn. cbn [world pending apis].
    destruct rej as [detail|].
    + destruct (Hrej detail (world s)) as (tr' & ->). intros [= <- _]. split; assumption.
    + destruct c as [cr|api text thread type|api thread].
      * destruct Hful as (a & Hful). destruct (Hful (apis s) (world s)) as (tr' & ->).
        intros [= <- _]. split; [|exact Hd]. apply wired_login_done, Hw.
      * destruct (Hful 0 (world s)) as (tr' & ->). intros [= <- _]. split; assumption.
      * destruct (Hful 0 (world s)) as (tr' & ->). intros [= <- _]. split; assumption.
  - destruct (handler h s) as [a|]; [|intros [= <- _]; split; assumption].
    unfold spawn. rewrite run_listener_message. intros [= <- _]. split; assumption.
  - destruct (handler h s) as [a|]; [|intros [= <- _]; split; assumption].
    unfold spawn. rewrite run_listener_error. intros [= <- _]. split; assumption.
Qed.

Lemma exec_wired (evs : list event) (s : System) : wired s -> wired (fst (exec s evs)).
Proof.
  revert s. induction evs as [|e evs IH]; intros s Hw; [exact Hw|].
  cbn [exec]. destruct (step s e) as [s1 tr1] eqn:Hstep.
  destruct (exec s1 evs) as [s2 tr2] eqn:Hexec. simpl.
  specialize (IH s1 (step_wired _ _ _ _ Hw Hstep)). rewrite Hexec in IH. exact IH.
Qed.

Lemma boot_wired : wired boot.
Proof.
  split; [|constructor]. split.
  - intros a h. unfold deref. simpl. rewrite lookup_empty. discriminate.
  - intros h [l Hl]. simpl in Hl. rewrite lookup_empty in Hl. discriminate.
Qed.

(** X19.  After every sequence of events, every adapter that holds an API
    object (the one the server holds, and any adapter it has released that a
    late login has revived) is listened to: the listener of that object is
    started and delivers to this adapter, the object is one the vendor has
    made, and no other adapter holds it.  So whenever [sendMessage] would
    find the session logged in, vendor events are being forwarded. *)
Theorem held_api_object_is_listened_to (evs : list event) :
  let s := fst (exec boot evs) in
  forall a h,
    ZaloClient.api (deref (world s) a) = Some h ->
    listening h s = Some a /\ h < apis s /\
    forall a', ZaloClient.api (deref (world s) a') = Some h -> a' = a.
Proof.
  intros s a h Ha.
  destruct (exec_wired evs boot boot_wired) as ((H1 & H2) & _). fold s in H1, H2.
  pose proof (H1 _ _ Ha) as Hl.
  split; [unfold listening; rewrite Hl; reflexivity|].
  split; [apply H2; eauto|].
  intros a' Ha'. pose proof (H1 _ _ Ha') as Hl'. congruence.
Qed.

Lemma held_api_object_is_listened_to_witness :
  listening 0 logged_in = Some 0 /\ 0 < apis logged_in /\
  forall a', ZaloClient.api (deref (world logged_in) a') = Some 0 -> a' = 0.
Proof.
  apply (held_api_object_is_listened_to
           [Connection 1; Message 1 (Parsed login_command); Settle 0 None] 0 0).
  vm_compute. reflexivity.
Defined.

(** *** The two handlers of a departure, and a race *)

(** X20.  The ["close"] and the ["error"] handler of a socket do the same:
    from every state they leave the same state and perform the same
    actions, and both complete.  They are written differently only in how a
    rejection of [disconnect()] would be handled, and [disconnect()] never
    rejects. *)
Theorem close_and_error_handlers_coincide (ws : nat) (w : t) :
  run (on_error ws) w = run (on_close ws) w /\
  exists w' tr, run (on_close ws) w = (w', tr, Done (Ok tt)).
Proof.
  destruct (run_on_close_wired ws w) as (w' & tr & Hc & He & _).
  rewrite Hc, He. eauto.
Qed.

(** X21.  A login that the vendor fulfils after the last client has left.
    From the no-session state the only client sends [login] and disconnects
    before the vendor answers: the teardown releases the adapter (there is
    no listener to stop yet).  When the vendor then fulfils the login, the
    released adapter takes the API object and starts its listener all the
    same, and the success result is sent to the socket that has closed.
    The server is left in the no-session state, with no client and no
    adapter held, while the listener of the new API object is running and
    delivers to the released adapter. *)
Theorem late_login_revives_the_released_adapter (s : System) (ws : nat) (cmd : jsval) :
  registered ws s = true -> zalo (world s) = None -> has_type cmd "login" = true ->
  JSSet.delete ws (clients (world s)) = [] ->
  let a := next_ref (world s) in
  let h := apis s in
  let s1 := fst (step s (Message ws (Parsed cmd))) in
  let s2 := fst (step s1 (Close ws)) in
  let settle := Settle (List.length (pending s)) None in
  let s3 := fst (step s2 settle) in
  snd (step s1 (Close ws)) = [Invoke a Mdisconnect; OnStatus "disconnected"] /\
  zalo (world s2) = None /\
  snd (step s2 settle) =
    [OnStatus "connected"; ListenerOn h; ListenerStart h; WsSend ws (LoginEvent true None)] /\
  zalo (world s3) = None /\ clients (world s3) = [] /\
  heap (world s3) !! a = Some {| ZaloClient.zalo := None; ZaloClient.api := Some h |} /\
  listening h s3 = Some a.
Proof.
  intros Hreg Hz Hl Hd a h s1 s2 settle s3.
  destruct (step_login_command s ws cmd Hreg Hl) as (k & Hstep & _ & Hful).
  unfold login_target in Hstep, Hful. rewrite Hz in Hstep, Hful.
  cbn [fst snd] in Hstep, Hful. fold a in Hstep, Hful.
  assert (Hs1 : s1 = {| world := login_begun a (constructed (world s));
                        pending := pending s ++ [(VLogin (credentials_of cmd), k)];
                        apis := apis s |}).
  { unfold s1. rewrite Hstep. reflexivity. }
  assert (Hreg1 : registered ws s1 = true).
  { rewrite Hs1. exact Hreg. }
  assert (Ha1 : stops a (world (with_socket ws CLOSED s1)) = []).
  { rewrite Hs1. unfold stops, login_begun, constructed, deref. simpl.
    rewrite !lookup_insert_eq. reflexivity. }
  destruct (run_teardown ws a (world (with_socket ws CLOSED s1))) as (Hr & _).
  { rewrite Hs1. reflexivity. }
  { rewrite Hs1. exact Hd. }
  rewrite Ha1 in Hr.
  assert (Hstep2 : step s1 (Close ws) =
            ({| world := set_zalo None (released a (set_clients []
                           (world (with_socket ws CLOSED s1))));
                pending := pending s1; apis := apis s1 |},
             [Invoke a Mdisconnect; OnStatus "disconnected"])).
  { cbn [step]. rewrite Hreg1. rewrite (spawn_run _ _ _ _ Hr). reflexivity. }
  unfold s3, s2, settle. rewrite Hstep2. cbn [fst snd].
  split; [reflexivity|]. split; [reflexivity|].
  rewrite Hs1. cbn [pending apis].
  rewrite step_settle_last. unfold spawn. rewrite Hful. cbn [fst snd world].
  rewrite sends_no_clients
    by (cbn [set_zalo clients]; apply released_keeps).
  split; [reflexivity|]. split; [reflexivity|].
  split; [cbn [login_done set_listeners set_heap set_zalo clients]; apply released_keeps|].
  split; [|apply listening_login_done].
  unfold login_done. cbn [heap set_listeners set_heap]. rewrite lookup_insert_eq.
  unfold deref. cbn [heap set_zalo].
  destruct (released_keeps a (set_clients [] (world (with_socket ws CLOSED
              {| world := login_begun a (constructed (world s));
                 pending := pending s ++ [(VLogin (credentials_of cmd), k)];
                 apis := apis s |})))) as (_ & _ & _ & ->).
  reflexivity.
Qed.

Lemma late_login_revives_the_released_adapter_witness :
  let a := next_ref (world one_client) in
  let h := apis one_client in
  let s1 := fst (step one_client (Message 1 (Parsed login_command))) in
  let s2 := fst (step s1 (Close 1)) in
  let settle := Settle (List.length (pending one_client)) None in
  let s3 := fst (step s2 settle) in
  snd (step s1 (Close 1)) = [Invoke a Mdisconnect; OnStatus "disconnected"] /\
  zalo (world s2) = None /\
  snd (step s2 settle) =
    [OnStatus "connected"; ListenerOn h; ListenerStart h; WsSend 1 (LoginEvent true None)] /\
  zalo (world s3) = None /\ clients (world s3) = [] /\
  heap (world s3) !! a = Some {| ZaloClient.zalo := None; ZaloClient.api := Some h |} /\
  listening h s3 = Some a.
Proof.
  apply (late_login_revives_the_released_adapter one_client 1 login_command);
    vm_compute; reflexivity.
Defined.

End SessionFacts.

(* ===================================================================== *)
(** * Properties of [stop()] *)
(* ===================================================================== *)

Module ShutdownFacts.
Import Async BridgeServer EventLoop ServerSpec ServerFacts SessionSpec SessionFacts Shutdown.

Lemma ws_close_idem (st : ReadyState) : ws_close (ws_close st) = ws_close st.
Proof. destruct st; reflexivity. Qed.

Lemma lookup_close_all (l : list nat) (m : gmap nat ReadyState) (ws : nat) :
  close_all l m !! ws = if decide (ws ∈ l) then ws_close <$> (m !! ws) else m !! ws.
Proof.
  revert m. induction l as [|c l IH]; intros m; cbn [close_all].
  - rewrite decide_False by (intros H; inversion H). reflexivity.
  - rewrite IH. destruct (decide (c = ws)) as [->|Hne].
    + rewrite lookup_alter_eq. rewrite (decide_True (P := ws ∈ ws :: l)) by left.
      destruct (decide (ws ∈ l)); [|reflexivity].
      destruct (m !! ws) as [st|]; simpl; [rewrite ws_close_idem|]; reflexivity.
    + rewrite lookup_alter_ne by exact Hne.
      destruct (decide (ws ∈ l)) as [Hin|Hnin].
      * rewrite decide_True by (right; exact Hin). reflexivity.
      * rewrite decide_False; [reflexivity|].
        intros H. apply elem_of_cons in H as [->|H]; contradiction.
Qed.

Lemma run_stop_session (w : t) :
  clients w = [] ->
  run stop_session w =
    (match zalo w with
     | Some a => set_zalo None (released a w)
     | None => w
     end,
     match zalo w with
     | Some a => Invoke a Mdisconnect :: stops a w ++ [OnStatus "disconnected"]
     | None => []
     end,
     Done (Ok tt)).
Proof.
  intros Hc. unfold stop_session. cbn [bind read run].
  destruct (zalo w) as [a|]; [|reflexivity].
  rewrite run_bind, run_invoke_disconnect_exact.
  rewrite sends_no_clients by exact Hc. cbn. rewrite !app_nil_r. reflexivity.
Qed.

(** The fields [stop()] clears. *)
Lemma stop_state (s : Server) :
  clients (base (stop s).1.1) = [] /\ zalo (base (stop s).1.1) = None /\
  wss (stop s).1.1 = false.
Proof.
  unfold stop. rewrite run_stop_session by reflexivity.
  cbn [fst base wss zalo set_clients set_sockets].
  destruct (zalo (base s)) as [a|] eqn:Hz.
  - split; [cbn [set_zalo clients]; apply released_keeps|]. auto.
  - auto.
Qed.

(** X22.  [stop()], from any state of the server: it calls [close()] on
    every socket of the client set, once each and in the order of the set,
    then closes the listening socket if there is one, then calls
    [disconnect()] on the adapter if one is held, and completes without an
    exception.  Nothing is sent to any client: the status [disconnected] of
    the adapter is broadcast after the client set has been cleared, so it
    reaches nobody.  Afterwards the client set is empty, no adapter is held,
    the adapter's fields are cleared, none of the sockets that were in the
    set is open, and the other sockets are as they were. *)
Theorem stop_releases_everything (s : Server) :
  exists w,
    stop s =
      ({| base := w; wss := false |},
       map WsClose (clients (base s)) ++
       (if wss s then [WssClose] else []) ++
       match zalo (base s) with
       | Some a =>
           Ran (Invoke a Mdisconnect) ::
           match ZaloClient.api (deref (base s) a) with
           | Some h => [Ran (ListenerStop h)]
           | None => []
           end ++ [Ran (OnStatus "disconnected")]
       | None => []
       end,
       Done (Ok tt)) /\
    clients w = [] /\ zalo w = None /\
    (forall a, zalo (base s) = Some a -> heap w !! a = Some ZaloClient.new) /\
    (forall ws, ws ∈ clients (base s) -> sockets w !! ws <> Some OPEN) /\
    (forall ws, ws ∉ clients (base s) -> sockets w !! ws = sockets (base s) !! ws).
Proof.
  unfold stop. rewrite run_stop_session by reflexivity.
  cbn [zalo set_clients set_sockets].
  assert (Hso : forall w0 : t,
            sockets w0 = close_all (clients (base s)) (sockets (base s)) ->
            (forall ws, ws ∈ clients (base s) -> sockets w0 !! ws <> Some OPEN) /\
            (forall ws, ws ∉ clients (base s) -> sockets w0 !! ws = sockets (base s) !! ws)).
  { intros w0 ->. split; intros ws Hin; rewrite lookup_close_all.
    - rewrite decide_True by exact Hin.
      destruct (sockets (base s) !! ws) as [[]|]; discriminate.
    - rewrite decide_False by exact Hin. reflexivity. }
  destruct (zalo (base s)) as [a|] eqn:Hz.
  - eexists. split; [|split; [|split; [|split]]].
    + unfold stops, deref. cbn [heap set_clients set_sockets].
      destruct (ZaloClient.api (default ZaloClient.new (heap (base s) !! a))); reflexivity.
    + cbn [set_zalo clients]. apply released_keeps.
    + reflexivity.
    + intros a' [= <-]. cbn [set_zalo heap]. apply released_keeps.
    + apply Hso. cbn [set_zalo sockets].
      destruct (released_keeps a (set_clients []
                  (set_sockets (close_all (clients (base s)) (sockets (base s))) (base s))))
        as (_ & -> & _). reflexivity.
  - eexists. split; [reflexivity|]. split; [reflexivity|]. split; [exact Hz|].
    split; [discriminate|]. apply Hso. reflexivity.
Qed.

(** X23.  A second [stop()] does nothing: it closes no socket, calls no
    method of an adapter and leaves the state as the first call left it.
    (The entry point registers [stop()] for two signals.) *)
Theorem stop_twice_does_nothing (s : Server) :
  stop (stop s).1.1 = ((stop s).1.1, [], Done (Ok tt)).
Proof.
  destruct (stop_state s) as (Hc & Hz & Hw).
  destruct (stop s).1.1 as [w b]. cbn [base wss] in Hc, Hz, Hw. subst b.
  unfold stop. cbn [base wss]. rewrite Hc. cbn [close_all map app].
  rewrite run_stop_session by reflexivity.
  cbn [zalo set_clients set_sockets]. rewrite Hz.
  destruct w; simpl in *. subst. reflexivity.
Qed.

End ShutdownFacts.
